(** * Binocular viewer: the viewport positioning core of [script.js]

    A shallow embedding of the viewport controller, the responsive sizer and
    the input handlers of the binocular viewer, and the properties of the
    design document checked against it.

    JavaScript numbers are IEEE 754 binary64 values.  The program is
    written once, over an interface [JSNumber] of the operations the script
    uses, and read at two number types:

    - [float], Rocq's primitive binary64 numbers: every operation is the
      correctly rounded IEEE operation, with NaN, the infinities and the
      signed zeros, so a run of the model is bit for bit a run of the
      script;
    - [R], the real numbers: the same program in exact arithmetic, for the
      algebraic properties (containment under smoothing, convergence,
      diagonal speed) whose statements are about the formulas and not
      about rounding.  Division by zero means nothing there, so the
      statements over [R] are about containers of non-zero size.

    The page is a transition system: a state made of the [AppState] object,
    the mutable fields of the [ViewportController] and [ResponsiveManager]
    instances and the variables the timers and the animation loop close
    over, and one event for each handler body.  The browser decides when a
    handler runs: [throttle] and [debounce] drop raw events before they reach
    a body, [requestAnimationFrame] and [setTimeout] run a callback later, and
    each of those runs is an event here.  The DOM, the logging and the
    performance counters are left out; of rendering, only the values handed
    to the render sink are kept.

    Beside the page, [throttle] and [debounce] are modelled on their own, as
    the closures they return over any wrapped function, with the calls, the
    animation frames and the timers as events; so are the flags and the retry
    count of the image loader, and the score of the health check. *)

From Stdlib Require Import ZArith Reals Lra Lia Floats Bool List Ascii String.
From stdpp Require Import base decidable strings gmap.

Set Warnings "-inexact-float".

Local Open Scope Z_scope.

(** ** The numbers of the script *)

Class JSNumber (num : Type) := {
  (** the decimal literal [n/d], as in [0.15] = [num_lit 15 100] *)
  num_lit : Z -> positive -> num;
  num_add : num -> num -> num;
  num_sub : num -> num -> num;
  num_mul : num -> num -> num;
  num_div : num -> num -> num;
  (** [a < b] *)
  num_lt : num -> num -> bool;
  (** [a === b] *)
  num_eq : num -> num -> bool;
  (** [Math.max(a, b)] and [Math.min(a, b)] *)
  num_max : num -> num -> num;
  num_min : num -> num -> num;
  (** [Math.sqrt(a)] *)
  num_sqrt : num -> num
}.

Declare Scope num_scope.
Delimit Scope num_scope with num.
Infix "+" := num_add : num_scope.
Infix "-" := num_sub : num_scope.
Infix "*" := num_mul : num_scope.
Infix "/" := num_div : num_scope.
Infix "<?" := num_lt : num_scope.
Infix "===" := num_eq (at level 70, no associativity) : num_scope.
Notation "a >? b" := (num_lt b a) (at level 70, no associativity) : num_scope.
Notation "a !== b" := (negb (num_eq a b)) (at level 70, no associativity) : num_scope.

(** *** binary64 *)

Module Float64.

(** An integer literal below 2^53 is a binary64 value. *)
Definition of_Z (z : Z) : float :=
  match z with
  | Z0 => PrimFloat.zero
  | Zpos _ => PrimFloat.of_uint63 (Uint63.of_Z z)
  | Zneg p => PrimFloat.opp (PrimFloat.of_uint63 (Uint63.of_Z (Zpos p)))
  end.

(** A decimal literal is read as the binary64 value nearest to it; the
    correctly rounded quotient of its digits by the power of ten, both
    exact, is that value. *)
Definition lit (n : Z) (d : positive) : float :=
  PrimFloat.div (of_Z n) (of_Z (Zpos d)).

(** [Math.max]: NaN if either argument is NaN; [+0] is larger than [-0]. *)
Definition max (a b : float) : float :=
  if PrimFloat.is_nan a || PrimFloat.is_nan b then PrimFloat.nan
  else if PrimFloat.ltb a b then b
  else if PrimFloat.ltb b a then a
  else if PrimFloat.get_sign a then b else a.

(** [Math.min]: NaN if either argument is NaN; [-0] is smaller than [+0]. *)
Definition min (a b : float) : float :=
  if PrimFloat.is_nan a || PrimFloat.is_nan b then PrimFloat.nan
  else if PrimFloat.ltb a b then a
  else if PrimFloat.ltb b a then b
  else if PrimFloat.get_sign a then a else b.

(** The order of two binary64 values, if neither is NaN. *)
Definition cmp (a b : float) : option comparison := SFcompare (Prim2SF a) (Prim2SF b).

(** What two comparisons in a row say about the ends. *)
Definition chain (r1 r2 : comparison) : option comparison :=
  match r1, r2 with
  | Eq, r | r, Eq => Some r
  | Lt, Lt => Some Lt
  | Gt, Gt => Some Gt
  | _, _ => None
  end.

#[global] Instance number : JSNumber float := {|
  num_lit := lit;
  num_add := PrimFloat.add;
  num_sub := PrimFloat.sub;
  num_mul := PrimFloat.mul;
  num_div := PrimFloat.div;
  num_lt := PrimFloat.ltb;
  num_eq := PrimFloat.eqb;
  num_max := max;
  num_min := min;
  num_sqrt := PrimFloat.sqrt
|}.

End Float64.

(** *** exact arithmetic *)

Module Exact.

Definition lit (n : Z) (d : positive) : R := (IZR n / IZR (Zpos d))%R.

Definition ltb (a b : R) : bool := if Rlt_dec a b then true else false.
Definition eqb (a b : R) : bool := if Req_dec_T a b then true else false.

#[global] Instance number : JSNumber R := {|
  num_lit := lit;
  num_add := Rplus;
  num_sub := Rminus;
  num_mul := Rmult;
  num_div := Rdiv;
  num_lt := ltb;
  num_eq := eqb;
  num_max := Rmax;
  num_min := Rmin;
  num_sqrt := R_sqrt.sqrt
|}.

End Exact.

(** ** Strings: [event.key.toLowerCase()] *)

(** [toLowerCase] on the ASCII letters, which are all the navigation keys
    are made of. *)
Definition lower_ascii (c : ascii) : ascii :=
  let n := Ascii.nat_of_ascii c in
  if ((65 <=? n)%nat && (n <=? 90)%nat)%bool then Ascii.ascii_of_nat (n + 32) else c.

Fixpoint toLowerCase (s : string) : string :=
  match s with
  | EmptyString => EmptyString
  | String c s' => String (lower_ascii c) (toLowerCase s')
  end.

Definition navigationKeys : list string :=
  ["arrowup"; "arrowdown"; "arrowleft"; "arrowright"; "w"; "a"; "s"; "d"]%string.

(** ** The program *)

Inductive DeviceType := MobileSmall | MobileLarge | Tablet | Desktop.
Inductive Orientation := Portrait | Landscape.

Section Program.

Context {num : Type} {number : JSNumber num}.

Local Open Scope num_scope.

(** integer and decimal literals *)
Definition int (n : Z) : num := num_lit n 1.
Definition dec (n : Z) (d : positive) : num := num_lit n d.

(** *** State: [AppState] and the two controller objects *)

Record Viewport := mkViewport {
  viewport_x : num;
  viewport_y : num;
  viewport_radius : num
}.

Record Input := mkInput {
  input_mouseX : num;
  input_mouseY : num;
  input_keysPressed : gset string;
  input_isMouseActive : bool;
  input_touchActive : bool;
  input_keyboardActive : bool
}.

(** [animationId] is the handle of the pending [requestAnimationFrame]
    request for [moveLoop], or [null]: only whether there is one matters. *)
Record Keyboard := mkKeyboard {
  keyboard_animationId : bool;
  keyboard_isMoving : bool
}.

Record Container := mkContainer {
  container_width : num;
  container_height : num
}.

Record AppStateT := mkAppState {
  isLoaded : bool;
  viewport : Viewport;
  input : Input;
  keyboard : Keyboard;
  container : Container
}.

Record Bounds := mkBounds { minX : num; maxX : num; minY : num; maxY : num }.

(** The fields of [ViewportController] that change; its three factors
    are constants below. *)
Record ViewportController := mkViewportController {
  cachedBounds : option Bounds;
  lastContainerSize : Container
}.

Record ResponsiveManager := mkResponsiveManager {
  deviceType : DeviceType;
  orientation : Orientation
}.

(** What the render sink last received: the three custom properties set
    on the viewport mask. *)
Record Rendered := mkRendered { pixelX : num; pixelY : num; radiusPx : num }.

Record Page := mkPage {
  AppState : AppStateT;
  viewportController : ViewportController;
  responsiveManager : ResponsiveManager;
  (** [lastFrameTime], the variable [moveLoop] closes over *)
  lastFrameTime : num;
  (** [originalX], [originalY] held by the pending timer of [testViewportMask] *)
  testOriginal : option (num * num);
  rendered : option Rendered
}.

Definition smoothingFactor : num := dec 15 100.
Definition touchSmoothingFactor : num := dec 4 10.
Definition boundaryPadding : num := dec 2 100.

(** field updates *)
Definition setAppState (a : AppStateT) (p : Page) : Page :=
  mkPage a (viewportController p) (responsiveManager p) (lastFrameTime p)
         (testOriginal p) (rendered p).
Definition setViewport (v : Viewport) (p : Page) : Page :=
  let a := AppState p in
  setAppState (mkAppState (isLoaded a) v (input a) (keyboard a) (container a)) p.
Definition setPosition (x y : num) (p : Page) : Page :=
  setViewport (mkViewport x y (viewport_radius (viewport (AppState p)))) p.
Definition setRadius (r : num) (p : Page) : Page :=
  let v := viewport (AppState p) in
  setViewport (mkViewport (viewport_x v) (viewport_y v) r) p.
Definition setInput (i : Input) (p : Page) : Page :=
  let a := AppState p in
  setAppState (mkAppState (isLoaded a) (viewport a) i (keyboard a) (container a)) p.
Definition setKeyboard (k : Keyboard) (p : Page) : Page :=
  let a := AppState p in
  setAppState (mkAppState (isLoaded a) (viewport a) (input a) k (container a)) p.
Definition setContainer (c : Container) (p : Page) : Page :=
  let a := AppState p in
  setAppState (mkAppState (isLoaded a) (viewport a) (input a) (keyboard a) c) p.
Definition setIsLoaded (b : bool) (p : Page) : Page :=
  let a := AppState p in
  setAppState (mkAppState b (viewport a) (input a) (keyboard a) (container a)) p.
Definition setViewportController (c : ViewportController) (p : Page) : Page :=
  mkPage (AppState p) c (responsiveManager p) (lastFrameTime p) (testOriginal p) (rendered p).
Definition setResponsiveManager (m : ResponsiveManager) (p : Page) : Page :=
  mkPage (AppState p) (viewportController p) m (lastFrameTime p) (testOriginal p) (rendered p).
Definition setLastFrameTime (t : num) (p : Page) : Page :=
  mkPage (AppState p) (viewportController p) (responsiveManager p) t (testOriginal p) (rendered p).
Definition setTestOriginal (o : option (num * num)) (p : Page) : Page :=
  mkPage (AppState p) (viewportController p) (responsiveManager p) (lastFrameTime p) o (rendered p).
Definition setRendered (r : option Rendered) (p : Page) : Page :=
  mkPage (AppState p) (viewportController p) (responsiveManager p) (lastFrameTime p)
         (testOriginal p) r.

(** shorthands for reading *)
Definition state_x (p : Page) : num := viewport_x (viewport (AppState p)).
Definition state_y (p : Page) : num := viewport_y (viewport (AppState p)).
Definition state_radius (p : Page) : num := viewport_radius (viewport (AppState p)).
Definition width (p : Page) : num := container_width (container (AppState p)).
Definition height (p : Page) : num := container_height (container (AppState p)).
Definition keysPressed (p : Page) : gset string := input_keysPressed (input (AppState p)).

(** *** [updateContainerDimensions] *)
Definition updateContainerDimensions (innerWidth innerHeight : num) (p : Page) : Page :=
  setContainer (mkContainer innerWidth innerHeight) p.

(** *** [updateViewportPosition()], the global one: publish to the render sink *)
Definition updateViewportPosition (p : Page) : Page :=
  setRendered (Some (mkRendered (state_x p * width p) (state_y p * height p)
                                (state_radius p))) p.

(** *** [ViewportController] *)

(** The bounds [applyBoundaryConstraints] computes when it refreshes its
    cache, as a function of the container and the radius. *)
Definition computeBounds (c : Container) (radius : num) : Bounds :=
  let radiusX := radius / container_width c in
  let radiusY := radius / container_height c in
  let dynamicPadding :=
    if container_width c <? int 768 then dec 1 100 else boundaryPadding in
  {| minX := radiusX + dynamicPadding;
     maxX := int 1 - radiusX - dynamicPadding;
     minY := radiusY + dynamicPadding;
     maxY := int 1 - radiusY - dynamicPadding |}.

(** The condition of the [if]: no cache yet, or the container size moved. *)
Definition cacheMiss (p : Page) : bool :=
  match cachedBounds (viewportController p) with
  | None => true
  | Some _ =>
      (container_width (lastContainerSize (viewportController p)) !== width p)
      || (container_height (lastContainerSize (viewportController p)) !== height p)
  end.

(** The bounds used by a call, and the controller after it. *)
Definition refreshBounds (p : Page) : Bounds * Page :=
  let fresh := computeBounds (container (AppState p)) (state_radius p) in
  match cachedBounds (viewportController p) with
  | Some b =>
      if cacheMiss p
      then (fresh, setViewportController (mkViewportController (Some fresh) (container (AppState p))) p)
      else (b, p)
  | None =>
      (fresh, setViewportController (mkViewportController (Some fresh) (container (AppState p))) p)
  end.

Definition clampTo (b : Bounds) (x y : num) : num * num :=
  (num_max (minX b) (num_min (maxX b) x), num_max (minY b) (num_min (maxY b) y)).

Definition applyBoundaryConstraints (x y : num) (p : Page) : (num * num) * Page :=
  let '(b, p1) := refreshBounds p in
  (clampTo b x y, p1).

Definition mouseToViewportPosition (clientX clientY : num) (p : Page) : (num * num) * Page :=
  let normalizedX := clientX / width p in
  let normalizedY := clientY / height p in
  applyBoundaryConstraints normalizedX normalizedY p.

(** [viewportController.updateViewportPosition(targetX, targetY, smooth)] *)
Definition ViewportController_updateViewportPosition
    (targetX targetY : num) (smooth : bool) (p : Page) : Page :=
  let '(constrainedTarget, p1) := applyBoundaryConstraints targetX targetY p in
  let p2 :=
    if smooth then
      let smoothing :=
        if input_touchActive (input (AppState p1)) then touchSmoothingFactor
        else smoothingFactor in
      let currentX := state_x p1 in
      let currentY := state_y p1 in
      let newX := currentX + (fst constrainedTarget - currentX) * smoothing in
      let newY := currentY + (snd constrainedTarget - currentY) * smoothing in
      setPosition newX newY p1
    else
      setPosition (fst constrainedTarget) (snd constrainedTarget) p1 in
  updateViewportPosition p2.

Definition moveViewportByDelta (deltaX deltaY : num) (p : Page) : Page :=
  let newX := state_x p + deltaX in
  let newY := state_y p + deltaY in
  let '(constrainedPosition, p1) := applyBoundaryConstraints newX newY p in
  updateViewportPosition (setPosition (fst constrainedPosition) (snd constrainedPosition) p1).

Definition getKeyboardMoveSpeed (p : Page) : num :=
  if width p <? int 480 then dec 3 1000
  else if width p <? int 768 then dec 25 10000
  else dec 2 1000.

(** *** [ResponsiveManager] *)

Definition detectDeviceType (c : Container) : DeviceType :=
  let minDimension := num_min (container_width c) (container_height c) in
  if minDimension <? int 480 then MobileSmall
  else if minDimension <? int 768 then MobileLarge
  else if minDimension <? int 1024 then Tablet
  else Desktop.

Definition getOrientation (c : Container) : Orientation :=
  if container_height c >? container_width c then Portrait else Landscape.

Definition updateResponsiveState (p : Page) : Page :=
  setResponsiveManager
    (mkResponsiveManager (detectDeviceType (container (AppState p)))
                         (getOrientation (container (AppState p)))) p.

Definition getOptimalViewportRadius (p : Page) : num :=
  let minDimension := num_min (width p) (height p) in
  match deviceType (responsiveManager p) with
  | MobileSmall => num_min (int 80) (minDimension * dec 15 100)
  | MobileLarge => num_min (int 100) (minDimension * dec 18 100)
  | Tablet => num_min (int 140) (minDimension * dec 2 10)
  | Desktop => num_min (int 180) (minDimension * dec 15 100)
  end.

(** *** [calculateViewportRadius] *)
Definition calculateViewportRadius (p : Page) : Page :=
  let baseRadius := getOptimalViewportRadius p in
  let maxDimension := num_max (width p) (height p) in
  let minDimension := num_min (width p) (height p) in
  let aspectRatio := maxDimension / minDimension in
  let baseRadius :=
    if aspectRatio >? dec 25 10 then baseRadius * dec 75 100
    else if aspectRatio >? int 2 then baseRadius * dec 85 100
    else baseRadius in
  setRadius (num_max (int 60) (num_min (int 200) baseRadius)) p.

(** *** Keyboard movement loop *)

Definition stopKeyboardMovement (p : Page) : Page :=
  setKeyboard (mkKeyboard false false) p.

(** [startKeyboardMovement]; [now] is what [performance.now()] returns. *)
Definition startKeyboardMovement (now : num) (p : Page) : Page :=
  if keyboard_isMoving (keyboard (AppState p)) then p
  else
    setKeyboard (mkKeyboard true true) (setLastFrameTime now p).

Definition has (k : string) (keys : gset string) : bool := bool_decide (k ∈ keys).

Definition leftPressed (keys : gset string) : bool := has "arrowleft" keys || has "a" keys.
Definition rightPressed (keys : gset string) : bool := has "arrowright" keys || has "d" keys.
Definition upPressed (keys : gset string) : bool := has "arrowup" keys || has "w" keys.
Definition downPressed (keys : gset string) : bool := has "arrowdown" keys || has "s" keys.

(** The deltas one tick of [moveLoop] computes from the held keys. *)
Definition keyboardDelta (keys : gset string) (moveSpeed : num) : num * num :=
  let deltaX := int 0 in
  let deltaY := int 0 in
  let deltaX := if leftPressed keys then deltaX - moveSpeed else deltaX in
  let deltaX := if rightPressed keys then deltaX + moveSpeed else deltaX in
  let deltaY := if upPressed keys then deltaY - moveSpeed else deltaY in
  let deltaY := if downPressed keys then deltaY + moveSpeed else deltaY in
  if (leftPressed keys || rightPressed keys) && (upPressed keys || downPressed keys) then
    let diagonalFactor := int 1 / num_sqrt (int 2) in
    (deltaX * diagonalFactor, deltaY * diagonalFactor)
  else (deltaX, deltaY).

(** [moveSpeed] of a tick that sees [deltaTime]. *)
Definition tickSpeed (deltaTime : num) (p : Page) : num :=
  let frameMultiplier := deltaTime / dec 1667 100 in
  let baseSpeed := getKeyboardMoveSpeed p in
  baseSpeed * frameMultiplier.

(** One run of the [moveLoop] callback, at timestamp [currentTime]. *)
Definition moveLoop (currentTime : num) (p : Page) : Page :=
  if negb (keyboard_isMoving (keyboard (AppState p)))
     || bool_decide (size (keysPressed p) = 0%nat)
  then stopKeyboardMovement p
  else
    let deltaTime := currentTime - lastFrameTime p in
    let p1 := setLastFrameTime currentTime p in
    let moveSpeed := tickSpeed deltaTime p1 in
    let '(deltaX, deltaY) := keyboardDelta (keysPressed p1) moveSpeed in
    let p2 :=
      if (deltaX !== int 0) || (deltaY !== int 0)
      then moveViewportByDelta deltaX deltaY p1
      else p1 in
    setKeyboard (mkKeyboard true (keyboard_isMoving (keyboard (AppState p2)))) p2.

(** *** Event handlers *)

(** The body that [throttle] lets through. *)
Definition handleMouseMove (clientX clientY : num) (p : Page) : Page :=
  if negb (isLoaded (AppState p)) then p
  else
    let i := input (AppState p) in
    let p1 := setInput (mkInput clientX clientY (input_keysPressed i)
                                true (input_touchActive i) false) p in
    let '(position, p2) := mouseToViewportPosition clientX clientY p1 in
    ViewportController_updateViewportPosition (fst position) (snd position) true p2.

Definition handleKeyDown (eventKey : string) (now : num) (p : Page) : Page :=
  if negb (isLoaded (AppState p)) then p
  else
    let key := toLowerCase eventKey in
    if bool_decide (key ∈ navigationKeys) then
      let i := input (AppState p) in
      let p1 := setInput (mkInput (input_mouseX i) (input_mouseY i)
                                  ({[ key ]} ∪ input_keysPressed i)
                                  false (input_touchActive i) true) p in
      if negb (keyboard_isMoving (keyboard (AppState p1)))
      then startKeyboardMovement now p1
      else p1
    else p.

Definition handleKeyUp (eventKey : string) (p : Page) : Page :=
  if negb (isLoaded (AppState p)) then p
  else
    let key := toLowerCase eventKey in
    let i := input (AppState p) in
    let p1 := setInput (mkInput (input_mouseX i) (input_mouseY i)
                                (input_keysPressed i ∖ {[ key ]})
                                (input_isMouseActive i) (input_touchActive i)
                                (input_keyboardActive i)) p in
    if bool_decide (size (keysPressed p1) = 0%nat)
    then stopKeyboardMovement p1
    else p1.

(** [touch] is [event.touches[0]]: its client coordinates, if there is one. *)
Definition handleTouchStart (touch : option (num * num)) (p : Page) : Page :=
  if negb (isLoaded (AppState p)) then p
  else
    match touch with
    | Some (clientX, clientY) =>
        let i := input (AppState p) in
        let p1 := setInput (mkInput clientX clientY (input_keysPressed i)
                                    false true false) p in
        let '(position, p2) := mouseToViewportPosition clientX clientY p1 in
        ViewportController_updateViewportPosition (fst position) (snd position) false p2
    | None => p
    end.

Definition handleTouchMove (touch : option (num * num)) (p : Page) : Page :=
  if negb (isLoaded (AppState p)) || negb (input_touchActive (input (AppState p))) then p
  else
    match touch with
    | Some (clientX, clientY) =>
        let i := input (AppState p) in
        let p1 := setInput (mkInput clientX clientY (input_keysPressed i)
                                    (input_isMouseActive i) (input_touchActive i)
                                    (input_keyboardActive i)) p in
        let '(position, p2) := mouseToViewportPosition clientX clientY p1 in
        ViewportController_updateViewportPosition (fst position) (snd position) true p2
    | None => p
    end.

(** The timer [handleTouchEnd] sets, when it fires; [touches] is
    [event.touches.length]. *)
Definition touchEndTimeout (touches : nat) (p : Page) : Page :=
  if (touches =? 0)%nat then
    let i := input (AppState p) in
    setInput (mkInput (input_mouseX i) (input_mouseY i) (input_keysPressed i)
                      (input_isMouseActive i) false (input_keyboardActive i)) p
  else p.

Definition setMouseActive (b : bool) (p : Page) : Page :=
  let i := input (AppState p) in
  setInput (mkInput (input_mouseX i) (input_mouseY i) (input_keysPressed i)
                    b (input_touchActive i) (input_keyboardActive i)) p.

Definition clearKeys (p : Page) : Page :=
  let i := input (AppState p) in
  setInput (mkInput (input_mouseX i) (input_mouseY i) ∅
                    (input_isMouseActive i) (input_touchActive i)
                    (input_keyboardActive i)) p.

Definition setTouchActive (b : bool) (p : Page) : Page :=
  let i := input (AppState p) in
  setInput (mkInput (input_mouseX i) (input_mouseY i) (input_keysPressed i)
                    (input_isMouseActive i) b (input_keyboardActive i)) p.

Definition handleBlur (p : Page) : Page :=
  setTouchActive false (stopKeyboardMovement (clearKeys p)).

Definition handleVisibilityChange (hidden : bool) (p : Page) : Page :=
  if hidden then stopKeyboardMovement (clearKeys p) else p.

(** The body [debounce] runs, and the timer body of
    [handleOrientationChange], which is the same. *)
Definition handleResize (innerWidth innerHeight : num) (p : Page) : Page :=
  let p1 := updateContainerDimensions innerWidth innerHeight p in
  let p2 := updateResponsiveState p1 in
  if isLoaded (AppState p2)
  then updateViewportPosition (calculateViewportRadius p2)
  else p2.

Definition handleOrientationChange := handleResize.

(** *** Start-up *)

Definition initialContainer : Container := mkContainer (int 0) (int 0).

(** The state when the script has been evaluated: the [AppState] literal
    and the two instances, the responsive manager built while the
    container is still 0 by 0. *)
Definition initialPage : Page :=
  mkPage
    (mkAppState false
       (mkViewport (dec 5 10) (dec 5 10) (int 150))
       (mkInput (int 0) (int 0) ∅ false false false)
       (mkKeyboard false false)
       initialContainer)
    (mkViewportController None (mkContainer (int 0) (int 0)))
    (mkResponsiveManager (detectDeviceType initialContainer) (getOrientation initialContainer))
    (int 0) None None.

(** [init], as far as the core goes. *)
Definition init (innerWidth innerHeight : num) (p : Page) : Page :=
  updateContainerDimensions innerWidth innerHeight p.

(** [testViewportMask]: nudge the position, and leave a timer to put the
    original back. *)
Definition testViewportMask (p : Page) : Page :=
  let originalX := state_x p in
  let originalY := state_y p in
  setTestOriginal (Some (originalX, originalY))
    (updateViewportPosition (setPosition (dec 51 100) (dec 51 100) p)).

Definition testViewportMaskTimeout (p : Page) : Page :=
  match testOriginal p with
  | Some (originalX, originalY) =>
      setTestOriginal None (updateViewportPosition (setPosition originalX originalY p))
  | None => p
  end.

Definition initializeViewport (p : Page) : Page :=
  let p1 := setPosition (dec 5 10) (dec 5 10) p in
  let p2 := calculateViewportRadius p1 in
  let p3 := updateViewportPosition p2 in
  let p4 := setIsLoaded true p3 in
  testViewportMask p4.

(** *** [setViewportPosition] *)
Definition setViewportPosition (normalizedX normalizedY : num) (p : Page) : Page :=
  updateViewportPosition
    (setPosition (num_max (int 0) (num_min (int 1) normalizedX))
                 (num_max (int 0) (num_min (int 1) normalizedY)) p).

(** *** The page as a transition system *)

Inductive Event :=
| MouseMove (clientX clientY : num)
| MouseEnter
| MouseLeave
| KeyDown (key : string) (now : num)
| KeyUp (key : string)
| AnimationFrame (currentTime : num)
| TouchStart (touch : option (num * num))
| TouchMove (touch : option (num * num))
| TouchEndTimeout (touches : nat)
| Blur
| VisibilityChange (hidden : bool)
| Resize (innerWidth innerHeight : num)
| OrientationChange (innerWidth innerHeight : num)
| TestViewportMaskTimeout
| SetViewportPosition (normalizedX normalizedY : num).

Definition handle (e : Event) (p : Page) : Page :=
  match e with
  | MouseMove clientX clientY => handleMouseMove clientX clientY p
  | MouseEnter => setMouseActive true p
  | MouseLeave => setMouseActive false p
  | KeyDown key now => handleKeyDown key now p
  | KeyUp key => handleKeyUp key p
  | AnimationFrame currentTime =>
      (* the browser runs [moveLoop] only if a request for it is pending *)
      if keyboard_animationId (keyboard (AppState p)) then moveLoop currentTime p else p
  | TouchStart touch => handleTouchStart touch p
  | TouchMove touch => handleTouchMove touch p
  | TouchEndTimeout touches => touchEndTimeout touches p
  | Blur => handleBlur p
  | VisibilityChange hidden => handleVisibilityChange hidden p
  | Resize w h => handleResize w h p
  | OrientationChange w h => handleOrientationChange w h p
  | TestViewportMaskTimeout => testViewportMaskTimeout p
  | SetViewportPosition nx ny => setViewportPosition nx ny p
  end.

Definition run (es : list Event) (p : Page) : Page := fold_left (fun q e => handle e q) es p.

(** The page once the image has loaded in a window of the given size and
    the self-test of [testViewportMask] has finished. *)
Definition loaded (innerWidth innerHeight : num) : Page :=
  testViewportMaskTimeout (initializeViewport (init innerWidth innerHeight initialPage)).

(** *** Vocabulary of the properties *)

(** The allowed rectangle derived from the current container size and
    radius, and the one a call of [applyBoundaryConstraints] uses. *)
Definition currentBounds (p : Page) : Bounds :=
  computeBounds (container (AppState p)) (state_radius p).

Definition usedBounds (p : Page) : Bounds := fst (refreshBounds p).

(** The clamp that recomputes the bounds at every call, as a pure
    function of the container size and the radius. *)
Definition applyBoundaryConstraints_recompute (x y : num) (p : Page) : num * num :=
  clampTo (computeBounds (container (AppState p)) (state_radius p)) x y.

(** [a <= b] *)
Definition num_le (a b : num) : bool := (a <? b) || (a === b).

Definition inRectangle (b : Bounds) (x y : num) : bool :=
  num_le (minX b) x && num_le x (maxX b) && num_le (minY b) y && num_le y (maxY b).

(** The containment invariant of the design: the position lies in the
    rectangle of the current container size and radius. *)
Definition contained (p : Page) : Prop :=
  inRectangle (currentBounds p) (state_x p) (state_y p) = true.

Definition nonDegenerate (b : Bounds) : bool :=
  num_le (minX b) (maxX b) && num_le (minY b) (maxY b).

(** One step of exponential smoothing. *)
Definition smoothed (current target alpha : num) : num :=
  current + (target - current) * alpha.

(** Pointer, touch and keyboard events: everything the page handles but a
    resize, the self-test timer and the programmatic [setViewportPosition]. *)
Definition inputEvent (e : Event) : Prop :=
  match e with
  | Resize _ _ | OrientationChange _ _ | TestViewportMaskTimeout
  | SetViewportPosition _ _ => False
  | _ => True
  end.

(** The cache is usable: there is none, or the next call refreshes it, or
    it holds the bounds of the current container and radius. *)
Definition cacheValid (p : Page) : Prop :=
  match cachedBounds (viewportController p) with
  | None => True
  | Some b => cacheMiss p = true \/ b = currentBounds p
  end.

(** The invariant of a page whose container and radius stay put. *)
Definition settled (p : Page) : Prop :=
  cacheValid p /\ nonDegenerate (currentBounds p) = true /\ contained p.

(** A resize either lands on a size other than the cached one, or changes
    neither the size nor the radius. *)
Definition keyedOnSize (e : Event) (p : Page) : Prop :=
  match e with
  | Resize _ _ | OrientationChange _ _ =>
      cacheMiss (handle e p) = true
      \/ (container (AppState (handle e p)) = container (AppState p)
          /\ state_radius (handle e p) = state_radius p)
  | _ => True
  end.

Fixpoint keyedRun (es : list Event) (p : Page) : Prop :=
  match es with
  | [] => True
  | e :: es' => keyedOnSize e p /\ keyedRun es' (handle e p)
  end.

(** What the bounds of a call depend on. *)
Definition core (p : Page) : ViewportController * Container * num :=
  (viewportController p, container (AppState p), state_radius p).

(** The reduced intent of an event: leave the position alone, set it to
    the clamp of a target, or smooth it toward the clamp of a target. *)
Inductive Motion :=
| Still
| Direct (targetX targetY : num)
| Smooth (targetX targetY alpha : num).

(** What [mouseToViewportPosition] returns. *)
Definition target (clientX clientY : num) (p : Page) : num * num :=
  clampTo (usedBounds p) (clientX / width p) (clientY / height p).

Definition loopRuns (p : Page) : bool :=
  keyboard_animationId (keyboard (AppState p))
  && keyboard_isMoving (keyboard (AppState p))
  && negb (bool_decide (size (keysPressed p) = 0%nat)).

Definition intent (e : Event) (p : Page) : Motion :=
  match e with
  | MouseMove clientX clientY =>
      if isLoaded (AppState p) then
        Smooth (fst (target clientX clientY p)) (snd (target clientX clientY p))
               (if input_touchActive (input (AppState p)) then touchSmoothingFactor
                else smoothingFactor)
      else Still
  | TouchStart (Some (clientX, clientY)) =>
      if isLoaded (AppState p) then
        Direct (fst (target clientX clientY p)) (snd (target clientX clientY p))
      else Still
  | TouchMove (Some (clientX, clientY)) =>
      if isLoaded (AppState p) && input_touchActive (input (AppState p)) then
        Smooth (fst (target clientX clientY p)) (snd (target clientX clientY p))
               touchSmoothingFactor
      else Still
  | AnimationFrame currentTime =>
      if loopRuns p then
        let d := keyboardDelta (keysPressed p) (tickSpeed (currentTime - lastFrameTime p) p) in
        if (fst d !== int 0) || (snd d !== int 0)
        then Direct (state_x p + fst d) (state_y p + snd d)
        else Still
      else Still
  | _ => Still
  end.

(** [q] is [p] after the motion [m]. *)
Definition moved (m : Motion) (p q : Page) : Prop :=
  match m with
  | Still =>
      core q = core p /\ state_x q = state_x p /\ state_y q = state_y p
  | Direct targetX targetY =>
      core q = core (snd (refreshBounds p))
      /\ state_x q = fst (clampTo (usedBounds p) targetX targetY)
      /\ state_y q = snd (clampTo (usedBounds p) targetX targetY)
  | Smooth targetX targetY alpha =>
      core q = core (snd (refreshBounds p))
      /\ state_x q = smoothed (state_x p) (fst (clampTo (usedBounds p) targetX targetY)) alpha
      /\ state_y q = smoothed (state_y p) (snd (clampTo (usedBounds p) targetX targetY)) alpha
  end.

(** The unit direction the held keys ask for: [-1], [0] or [1] on each
    axis, both scaled by [1/sqrt 2] when both axes have a key down. *)
Definition direction (keys : gset string) : num * num :=
  let dx := (if rightPressed keys then int 1 else int 0)
            - (if leftPressed keys then int 1 else int 0) in
  let dy := (if downPressed keys then int 1 else int 0)
            - (if upPressed keys then int 1 else int 0) in
  if (leftPressed keys || rightPressed keys) && (upPressed keys || downPressed keys)
  then (dx * (int 1 / num_sqrt (int 2)), dy * (int 1 / num_sqrt (int 2)))
  else (dx, dy).

(** Exactly one horizontal and one vertical direction are held. *)
Definition diagonalKeys (keys : gset string) : bool :=
  xorb (leftPressed keys) (rightPressed keys) && xorb (upPressed keys) (downPressed keys).

(** Exactly one direction is held. *)
Definition singleKey (keys : gset string) : bool :=
  (xorb (leftPressed keys) (rightPressed keys)
   && negb (upPressed keys) && negb (downPressed keys))
  || (negb (leftPressed keys) && negb (rightPressed keys)
      && xorb (upPressed keys) (downPressed keys)).

(** Euclidean length of a displacement. *)
Definition magnitude (d : num * num) : num :=
  num_sqrt (fst d * fst d + snd d * snd d).

End Program.

(** ** More of the script *)

(** *** Vocabulary of the run invariants *)

Section Invariants.

Context {num : Type} {number : JSNumber num}.

Local Open Scope num_scope.

(** The keyboard loop is requested exactly while [isMoving] is set, and
    [isMoving] is set only while a key is held. *)
Definition loopConsistent (p : @Page num) : Prop :=
  keyboard_animationId (keyboard (AppState p)) = keyboard_isMoving (keyboard (AppState p))
  /\ (keyboard_isMoving (keyboard (AppState p)) = true -> size (keysPressed p) <> 0%nat).

(** The render sink holds the current position and radius. *)
Definition inSync (p : @Page num) : Prop :=
  rendered p
  = Some (mkRendered (state_x p * width p) (state_y p * height p) (state_radius p)).

(** [isMouseActive] and [keyboardActive] are not both up. *)
Definition flagsExclusive (p : @Page num) : Prop :=
  input_isMouseActive (input (AppState p)) && input_keyboardActive (input (AppState p)) = false.

(** The handlers that return at once until the image has loaded. *)
Definition guardedEvent (e : @Event num) : bool :=
  match e with
  | MouseMove _ _ | KeyDown _ _ | KeyUp _ | TouchStart _ | TouchMove _ => true
  | _ => false
  end.

Definition isMouseEnter (e : @Event num) : bool :=
  match e with MouseEnter => true | _ => false end.

Definition isTestTimeout (e : @Event num) : bool :=
  match e with TestViewportMaskTimeout => true | _ => false end.

(** The page when [initializeViewport] returns: [isLoaded] is up, the
    position is the (0.51, 0.51) of [testViewportMask], and its timer is
    pending. *)
Definition initialized (innerWidth innerHeight : num) : @Page num :=
  initializeViewport (init innerWidth innerHeight initialPage).

(** The events that leave the container and the radius alone: pointer,
    touch and keyboard events, and the self-test timer. *)
Definition fixedWindowEvent (e : @Event num) : Prop :=
  match e with
  | Resize _ _ | OrientationChange _ _ | SetViewportPosition _ _ => False
  | _ => True
  end.

(** The self-test is sound: the cache is usable, the rectangle is not
    empty, and the position the timer will write back, if the timer is
    pending, or else the position itself, is in the rectangle. *)
Definition selfTestSound (p : @Page num) : Prop :=
  cacheValid p
  /\ nonDegenerate (currentBounds p) = true
  /\ match testOriginal p with
     | Some (originalX, originalY) => inRectangle (currentBounds p) originalX originalY = true
     | None => contained p
     end.

(** What a handler did to the position. *)
Definition displacement (p q : @Page num) : num * num :=
  (state_x q - state_x p, state_y q - state_y p).

End Invariants.

(** The cap [getOptimalViewportRadius] puts on the radius of a device
    class. *)
Definition radiusCap (d : DeviceType) : Z :=
  match d with
  | MobileSmall => 80
  | MobileLarge => 100
  | Tablet => 140
  | Desktop => 180
  end.

(** *** [throttle] and [debounce] *)

Section Scheduling.

Context {num : Type} {number : JSNumber num}.

Local Open Scope num_scope.

(** [a >= b] *)
Definition num_ge (a b : num) : bool := (b <? a) || (a === b).

(** The two variables of a closure made by [throttle]. *)
Record Throttle := mkThrottle { inThrottle : bool; lastExecTime : num }.

(** Their values when [throttle] returns. *)
Definition newThrottle : Throttle := mkThrottle false (int 0).

(** The window, as [updateContainerDimensions] reads it. *)
Record Window := mkWindow { innerWidth : num; innerHeight : num }.

Section Wrapped.

(** The wrapped function, as what a call of it does to the state it works
    on. *)
Context {State Args : Type} (func : Args -> State -> State).

(** One call of the function [throttle(func, limit)] returns, when
    [performance.now()] gives [now]. *)
Definition throttle (limit now : num) (args : Args) (c : Throttle * State) : Throttle * State :=
  let '(t, s) := c in
  if negb (inThrottle t) && num_ge (now - lastExecTime t) limit
  then (mkThrottle true now, func args s)
  else (t, s).

(** The [requestAnimationFrame] callback a call that went through leaves
    behind. *)
Definition throttleFrame (c : Throttle * State) : Throttle * State :=
  (mkThrottle false (lastExecTime (fst c)), snd c).

Inductive ThrottleEvent :=
| Call (now : num) (args : Args)
| Frame.

Definition throttleStep (limit : num) (e : ThrottleEvent) (c : Throttle * State)
    : Throttle * State :=
  match e with
  | Call now args => throttle limit now args c
  | Frame => throttleFrame c
  end.

Definition throttleRun (limit : num) (es : list ThrottleEvent) (c : Throttle * State)
    : Throttle * State :=
  fold_left (fun c e => throttleStep limit e c) es c.

(** The closure [debounce(func, delay)] returns holds [timeoutId]: the
    pending timer, if there is one, with the arguments its callback closes
    over.  A call clears the timer and sets a new one. *)
Definition debounce (args : Args) (c : option Args * State) : option Args * State :=
  (Some args, snd c).

(** The pending timer fires. *)
Definition debounceTimeout (c : option Args * State) : option Args * State :=
  match fst c with
  | Some args => (None, func args (snd c))
  | None => c
  end.

Inductive DebounceEvent :=
| DebouncedCall (args : Args)
| TimerFires.

Definition debounceStep (e : DebounceEvent) (c : option Args * State) : option Args * State :=
  match e with
  | DebouncedCall args => debounce args c
  | TimerFires => debounceTimeout c
  end.

Definition debounceRun (es : list DebounceEvent) (c : option Args * State)
    : option Args * State :=
  fold_left (fun c e => debounceStep e c) es c.

End Wrapped.

(** The calls of a run, with their times, and the ones that go through. *)
Fixpoint calls {Args : Type} (es : list (@ThrottleEvent Args)) : list (num * Args) :=
  match es with
  | [] => []
  | Call now args :: es' => (now, args) :: calls es'
  | Frame :: es' => calls es'
  end.

Fixpoint executed {Args : Type} (limit : num) (es : list (@ThrottleEvent Args)) (t : Throttle)
    : list (num * Args) :=
  match es with
  | [] => []
  | Call now args :: es' =>
      if negb (inThrottle t) && num_ge (now - lastExecTime t) limit
      then (now, args) :: executed limit es' (mkThrottle true now)
      else executed limit es' t
  | Frame :: es' => executed limit es' (mkThrottle false (lastExecTime t))
  end.

Fixpoint frames {Args : Type} (es : list (@ThrottleEvent Args)) : nat :=
  match es with
  | [] => 0
  | Call _ _ :: es' => frames es'
  | Frame :: es' => S (frames es')
  end.

(** Each time of the list is at least [limit] after the one before it,
    the first one after [last]. *)
Fixpoint spaced {Args : Type} (limit last : num) (l : list (num * Args)) : bool :=
  match l with
  | [] => true
  | (now, _) :: l' => num_ge (now - last) limit && spaced limit now l'
  end.

(** The [mousemove] and [touchmove] listeners: the bodies behind
    [throttle], 8 ms and 6 ms. *)
Definition throttledMouseMove (now : num) (event : num * num) (c : Throttle * @Page num)
    : Throttle * @Page num :=
  throttle (fun event => handleMouseMove (fst event) (snd event)) (int 8) now event c.

Definition throttledTouchMove (now : num) (touch : option (num * num)) (c : Throttle * @Page num)
    : Throttle * @Page num :=
  throttle handleTouchMove (int 6) now touch c.

(** The [resize] listener.  The window has its new size when the event is
    dispatched; the debounced body reads the size when the timer fires. *)
Inductive ResizeEvent :=
| WindowResized (w h : num)
| ResizeTimerFires.

Definition resizeBody (_ : unit) (s : Window * @Page num) : Window * @Page num :=
  (fst s, handleResize (innerWidth (fst s)) (innerHeight (fst s)) (snd s)).

Definition resizeStep (e : ResizeEvent) (c : option unit * (Window * @Page num))
    : option unit * (Window * @Page num) :=
  match e with
  | WindowResized w h => debounce tt (fst c, (mkWindow w h, snd (snd c)))
  | ResizeTimerFires => debounceTimeout resizeBody c
  end.

Definition resizeRun (es : list ResizeEvent) (c : option unit * (Window * @Page num))
    : option unit * (Window * @Page num) :=
  fold_left (fun c e => resizeStep e c) es c.

End Scheduling.

(** *** [ImageLoader]: the image state *)

(** [AppState.imageState], without the message. *)
Record ImageState := mkImageState {
  imageState_isLoading : bool;
  imageState_isLoaded : bool;
  imageState_hasError : bool;
  retryCount : nat;
  maxRetries : nat
}.

Definition initialImageState : ImageState := mkImageState true false false 0 3.

(** [loadImage], up to its first [await]. *)
Definition loadImage (s : ImageState) : ImageState :=
  mkImageState true (imageState_isLoaded s) false (retryCount s) (maxRetries s).

Definition handleImageSuccess (s : ImageState) : ImageState :=
  mkImageState false true false 0 (maxRetries s).

Definition handleImageError (s : ImageState) : ImageState :=
  mkImageState false false true (retryCount s) (maxRetries s).

Definition retry (s : ImageState) : ImageState :=
  if (maxRetries s <=? retryCount s)%nat then s
  else
    loadImage (mkImageState (imageState_isLoading s) (imageState_isLoaded s)
                            (imageState_hasError s) (S (retryCount s)) (maxRetries s)).

(** Whether [showErrorState] offers the retry button. *)
Definition retryOffered (s : ImageState) : bool := (retryCount s <? maxRetries s)%nat.

(** What happens to the image state: a load starts; the promise chain of a
    load ends in [handleImageSuccess] or in [handleImageError]; the retry
    button is pressed. *)
Inductive ImageEvent := LoadImage | ImageSuccess | ImageError | Retry.

Definition imageStep (e : ImageEvent) (s : ImageState) : ImageState :=
  match e with
  | LoadImage => loadImage s
  | ImageSuccess => handleImageSuccess s
  | ImageError => handleImageError s
  | Retry => retry s
  end.

Definition imageRun (es : list ImageEvent) (s : ImageState) : ImageState :=
  fold_left (fun s e => imageStep e s) es s.

(** The loads that [retry] starts along a run. *)
Fixpoint retriesStarted (es : list ImageEvent) (s : ImageState) : nat :=
  match es with
  | [] => 0
  | e :: es' =>
      (match e with
       | Retry => if (maxRetries s <=? retryCount s)%nat then 0 else 1
       | _ => 0
       end + retriesStarted es' (imageStep e s))%nat
  end.

Definition isImageSuccess (e : ImageEvent) : bool :=
  match e with ImageSuccess => true | _ => false end.

(** *** [performHealthCheck] *)

Section Health.

Context {num : Type} {number : JSNumber num}.

Local Open Scope num_scope.

(** The object [healthStatus]. *)
Record HealthStatus := mkHealthStatus {
  health_initialization : bool;
  health_imageLoading : bool;
  health_browserSupport : bool;
  health_domElements : bool;
  health_eventListeners : bool;
  health_viewport : bool
}.

(** [hasError] is [AppState.hasError]; [modernCSS] and [clipPath] are the
    two flags of [AppState.browserSupport] the check reads; [domElements]
    says whether the three elements were found. *)
Definition healthStatus (hasError : bool) (imageState : ImageState)
    (modernCSS clipPath domElements : bool) (p : @Page num) : HealthStatus :=
  {| health_initialization := isLoaded (AppState p) && negb hasError;
     health_imageLoading :=
       imageState_isLoaded imageState && negb (imageState_hasError imageState);
     health_browserSupport := modernCSS && clipPath;
     health_domElements := domElements;
     health_eventListeners := true;
     health_viewport := num_ge (state_x p) (int 0) && num_ge (state_y p) (int 0) |}.

(** [Object.values(healthStatus).filter(Boolean).length] *)
Definition passed (h : HealthStatus) : Z :=
  Z.b2z (health_initialization h) + Z.b2z (health_imageLoading h)
  + Z.b2z (health_browserSupport h) + Z.b2z (health_domElements h)
  + Z.b2z (health_eventListeners h) + Z.b2z (health_viewport h).

Definition healthScore (h : HealthStatus) : num := int (passed h) / int 6.

(** The warning is logged. *)
Definition belowOptimal (h : HealthStatus) : bool := healthScore h <? dec 8 10.

(** The error toast is shown. *)
Definition userErrorShown (h : HealthStatus) : bool :=
  belowOptimal h && (healthScore h <? dec 5 10).

End Health.


(** * Properties *)

(** ** The cache, whatever the numbers are *)

Section ProgramFacts.

Context {num : Type} {number : JSNumber num}.
Implicit Types (p q : @Page num) (b : @Bounds num) (e : @Event num).

Lemma applyBoundaryConstraints_eq x y p :
  applyBoundaryConstraints x y p = (clampTo (usedBounds p) x y, snd (refreshBounds p)).
Proof.
  unfold applyBoundaryConstraints, usedBounds.
  destruct (refreshBounds p) as [b p1]; reflexivity.
Qed.

Lemma refreshBounds_AppState p : AppState (snd (refreshBounds p)) = AppState p.
Proof.
  unfold refreshBounds.
  destruct (cachedBounds (viewportController p)); [destruct (cacheMiss p)|]; reflexivity.
Qed.

Lemma refreshBounds_cached p :
  cachedBounds (viewportController (snd (refreshBounds p))) = Some (usedBounds p).
Proof.
  unfold usedBounds, refreshBounds.
  destruct (cachedBounds (viewportController p)) eqn:Hc; [destruct (cacheMiss p)|];
    simpl; auto.
Qed.

Lemma refreshBounds_rest p :
  responsiveManager (snd (refreshBounds p)) = responsiveManager p
  /\ lastFrameTime (snd (refreshBounds p)) = lastFrameTime p
  /\ testOriginal (snd (refreshBounds p)) = testOriginal p
  /\ rendered (snd (refreshBounds p)) = rendered p.
Proof.
  unfold refreshBounds.
  destruct (cachedBounds (viewportController p)); [destruct (cacheMiss p)|];
    simpl; auto.
Qed.

(** The bounds a call uses are the cached ones or the current ones. *)
Lemma usedBounds_cases p :
  usedBounds p = currentBounds p
  \/ (cachedBounds (viewportController p) = Some (usedBounds p) /\ cacheMiss p = false).
Proof.
  unfold usedBounds, refreshBounds, currentBounds.
  destruct (cachedBounds (viewportController p)) eqn:Hc; [destruct (cacheMiss p) eqn:Hm|];
    simpl; auto.
Qed.

Lemma usedBounds_valid p : cacheValid p -> usedBounds p = currentBounds p.
Proof.
  unfold cacheValid. intros Hv.
  destruct (usedBounds_cases p) as [|[Hc Hm]]; [assumption|].
  rewrite Hc in Hv. destruct Hv as [Hv|Hv]; congruence.
Qed.

(** What the bounds of a call depend on. *)
Lemma usedBounds_congr p q :
  viewportController p = viewportController q ->
  container (AppState p) = container (AppState q) ->
  state_radius p = state_radius q ->
  usedBounds p = usedBounds q.
Proof.
  intros Hc Hk Hr.
  unfold usedBounds, refreshBounds, cacheMiss, width, height.
  rewrite Hc, Hk, Hr.
  destruct (cachedBounds (viewportController q)); [|reflexivity].
  match goal with |- context [if ?c then _ else _] => destruct c end; reflexivity.
Qed.

(** A second call right after a first one uses the same bounds. *)
Lemma usedBounds_refresh p : usedBounds (snd (refreshBounds p)) = usedBounds p.
Proof.
  destruct (usedBounds_cases p) as [Hcur|[Hc Hm]].
  - destruct (usedBounds_cases (snd (refreshBounds p))) as [H1|[H1 _]].
    + rewrite H1, Hcur. unfold currentBounds, state_radius.
      rewrite refreshBounds_AppState. reflexivity.
    + rewrite refreshBounds_cached in H1. congruence.
  - assert (Hp : snd (refreshBounds p) = p).
    { unfold refreshBounds. rewrite Hm.
      destruct (cachedBounds (viewportController p)); [reflexivity|discriminate]. }
    rewrite Hp. reflexivity.
Qed.

Lemma core_refresh_congr p q :
  core p = core q -> core (snd (refreshBounds p)) = core (snd (refreshBounds q)).
Proof.
  unfold core. intros H. injection H as Hc Hk Hr.
  unfold state_radius. rewrite !refreshBounds_AppState.
  fold (state_radius p) (state_radius q). rewrite Hk, Hr.
  f_equal. f_equal.
  unfold refreshBounds, cacheMiss, width, height. rewrite Hc, Hk, Hr.
  destruct (cachedBounds (viewportController q)); [|reflexivity].
  match goal with |- context [if ?c then _ else _] => destruct c end; simpl; congruence.
Qed.

Lemma usedBounds_core p q : core p = core q -> usedBounds p = usedBounds q.
Proof.
  unfold core. intros H. injection H as Hc Hk Hr. apply usedBounds_congr; assumption.
Qed.

Lemma refreshBounds_idem p :
  snd (refreshBounds (snd (refreshBounds p))) = snd (refreshBounds p).
Proof.
  assert (Hset : forall q,
    let q1 := setViewportController
                (mkViewportController
                   (Some (computeBounds (container (AppState q)) (state_radius q)))
                   (container (AppState q))) q in
    snd (refreshBounds q1) = q1).
  { intros q q1. unfold refreshBounds. subst q1. simpl.
    match goal with |- context [if ?c then _ else _] => destruct c end; reflexivity. }
  assert (Hcases : snd (refreshBounds p) = p
    \/ snd (refreshBounds p)
       = setViewportController
           (mkViewportController
              (Some (computeBounds (container (AppState p)) (state_radius p)))
              (container (AppState p))) p).
  { unfold refreshBounds.
    destruct (cachedBounds (viewportController p)); [destruct (cacheMiss p)|]; auto. }
  destruct Hcases as [Hp|Hp].
  - rewrite Hp. exact Hp.
  - rewrite Hp. apply Hset.
Qed.

Lemma cacheValid_core p q : core p = core q -> cacheValid p -> cacheValid q.
Proof.
  unfold core. intros H. injection H as Hc Hk Hr.
  unfold cacheValid, cacheMiss, currentBounds, width, height.
  rewrite Hc, Hk, Hr. auto.
Qed.

Lemma cacheValid_refresh p : cacheValid p -> cacheValid (snd (refreshBounds p)).
Proof.
  intros Hv. unfold cacheValid. rewrite refreshBounds_cached. right.
  rewrite (usedBounds_valid p Hv).
  unfold currentBounds, state_radius. rewrite refreshBounds_AppState. reflexivity.
Qed.

Lemma currentBounds_core p q : core p = core q -> currentBounds p = currentBounds q.
Proof.
  unfold core. intros H. injection H as Hc Hk Hr.
  unfold currentBounds. congruence.
Qed.

Lemma core_refresh p :
  snd (core (snd (refreshBounds p))) = snd (core p)
  /\ snd (fst (core (snd (refreshBounds p)))) = snd (fst (core p)).
Proof.
  unfold core, state_radius. simpl. rewrite refreshBounds_AppState. auto.
Qed.


(** *** The page after start-up *)

Lemma loaded_container (w h : num) : container (AppState (loaded w h)) = mkContainer w h.
Proof. reflexivity. Qed.

Lemma loaded_position (w h : num) :
  state_x (loaded w h) = dec 5 10 /\ state_y (loaded w h) = dec 5 10.
Proof. split; reflexivity. Qed.

Lemma loaded_cache (w h : num) : cachedBounds (viewportController (loaded w h)) = None.
Proof. reflexivity. Qed.

Lemma loaded_flags (w h : num) :
  isLoaded (AppState (loaded w h)) = true
  /\ input_touchActive (input (AppState (loaded w h))) = false.
Proof. split; reflexivity. Qed.

Lemma loaded_usedBounds (w h : num) : usedBounds (loaded w h) = currentBounds (loaded w h).
Proof. apply usedBounds_valid. unfold cacheValid. rewrite loaded_cache. exact I. Qed.

(** *** The handlers realise the intents *)

Lemma mouseToViewportPosition_eq clientX clientY p :
  mouseToViewportPosition clientX clientY p
  = (target clientX clientY p, snd (refreshBounds p)).
Proof. unfold mouseToViewportPosition. apply applyBoundaryConstraints_eq. Qed.

Lemma updateViewportPosition_moved targetX targetY (smooth : bool) p :
  moved (if smooth
         then Smooth targetX targetY
                (if input_touchActive (input (AppState p)) then touchSmoothingFactor
                 else smoothingFactor)
         else Direct targetX targetY)
        p (ViewportController_updateViewportPosition targetX targetY smooth p).
Proof.
  unfold ViewportController_updateViewportPosition.
  rewrite applyBoundaryConstraints_eq.
  pose proof (refreshBounds_AppState p) as Ha.
  destruct smooth; unfold moved, core, state_x, state_y, state_radius in *; simpl;
    rewrite ?Ha; repeat split; reflexivity.
Qed.

Lemma moveViewportByDelta_moved deltaX deltaY p :
  moved (Direct (state_x p + deltaX) (state_y p + deltaY))%num
        p (moveViewportByDelta deltaX deltaY p).
Proof.
  unfold moveViewportByDelta.
  rewrite applyBoundaryConstraints_eq.
  pose proof (refreshBounds_AppState p) as Ha.
  unfold moved, core, state_x, state_y, state_radius in *; simpl;
    rewrite ?Ha; repeat split; reflexivity.
Qed.

(** A motion seen from a page with the same core and position. *)
Lemma moved_from m p p' q :
  core p' = core p -> state_x p' = state_x p -> state_y p' = state_y p ->
  moved m p' q -> moved m p q.
Proof.
  intros Hc Hx Hy. unfold moved.
  destruct m; rewrite ?(usedBounds_core _ _ Hc), ?Hx, ?Hy, ?(core_refresh_congr _ _ Hc);
    try rewrite Hc; auto.
Qed.

(** Two calls in a row, as the pointer handlers make them. *)
Lemma moved_after_refresh m p q :
  moved m (snd (refreshBounds p)) q -> m <> Still -> moved m p q.
Proof.
  unfold moved, state_x, state_y.
  destruct m; [congruence| |]; intros H _;
    rewrite usedBounds_refresh, refreshBounds_idem, ?refreshBounds_AppState in H; exact H.
Qed.

Lemma moved_to m p q q' :
  core q' = core q -> state_x q' = state_x q -> state_y q' = state_y q ->
  moved m p q -> moved m p q'.
Proof.
  intros Hc Hx Hy. unfold moved. destruct m; rewrite Hc, Hx, Hy; auto.
Qed.

Lemma target_core clientX clientY p q :
  core p = core q -> target clientX clientY p = target clientX clientY q.
Proof.
  intros Hc. unfold target. rewrite (usedBounds_core _ _ Hc).
  unfold core in Hc. injection Hc as _ Hk _. unfold width, height. rewrite Hk. reflexivity.
Qed.

Lemma moved_still p : moved Still p p.
Proof. repeat split. Qed.

(** A pointer sample: clamp in [mouseToViewportPosition], then clamp
    again and move in [updateViewportPosition]. *)
Lemma pointer_moved clientX clientY (smooth : bool) p p1 :
  core p1 = core p -> state_x p1 = state_x p -> state_y p1 = state_y p ->
  moved (if smooth
         then Smooth (fst (target clientX clientY p)) (snd (target clientX clientY p))
                (if input_touchActive (input (AppState p1)) then touchSmoothingFactor
                 else smoothingFactor)
         else Direct (fst (target clientX clientY p)) (snd (target clientX clientY p)))
    p
    (let '(position, p2) := mouseToViewportPosition clientX clientY p1 in
     ViewportController_updateViewportPosition (fst position) (snd position) smooth p2).
Proof.
  intros Hc Hx Hy.
  rewrite mouseToViewportPosition_eq.
  rewrite <- (target_core clientX clientY p1 p Hc).
  apply (moved_from _ p p1); try assumption.
  apply moved_after_refresh; [|destruct smooth; discriminate].
  pose proof (updateViewportPosition_moved
                (fst (target clientX clientY p1)) (snd (target clientX clientY p1))
                smooth (snd (refreshBounds p1))) as H.
  rewrite refreshBounds_AppState in H. exact H.
Qed.

Local Ltac still := unfold moved; repeat split; reflexivity.

Theorem handle_intent e p : inputEvent e -> moved (intent e p) p (handle e p).
Proof.
  destruct e as [cx cy| | |key now|key|t|touch|touch|n| |hidden|w h|w h| |nx ny];
    simpl; try contradiction; intros _.
  - (* MouseMove *)
    unfold handleMouseMove.
    destruct (isLoaded (AppState p)) eqn:Hl; simpl; [|still].
    exact (pointer_moved cx cy true p
      (setInput (mkInput cx cy (input_keysPressed (input (AppState p))) true
                   (input_touchActive (input (AppState p))) false) p)
      eq_refl eq_refl eq_refl).
  - still.
  - still.
  - (* KeyDown *)
    unfold handleKeyDown, startKeyboardMovement.
    destruct (isLoaded (AppState p)); simpl; [|still].
    destruct (bool_decide _); [|still].
    simpl. destruct (keyboard_isMoving (keyboard (AppState p))); simpl;
      still.
  - (* KeyUp *)
    unfold handleKeyUp.
    destruct (isLoaded (AppState p)); simpl; [|still].
    destruct (bool_decide _); still.
  - (* AnimationFrame *)
    unfold loopRuns, moveLoop.
    destruct (keyboard_animationId (keyboard (AppState p))); simpl; [|still].
    destruct (keyboard_isMoving (keyboard (AppState p))) eqn:Hm; simpl;
      [|still].
    destruct (bool_decide (size (keysPressed p) = 0%nat)) eqn:Hs; simpl;
      [still|].
    change (keysPressed (setLastFrameTime t p)) with (keysPressed p).
    change (tickSpeed (t - lastFrameTime p) (setLastFrameTime t p))%num
      with (tickSpeed (t - lastFrameTime p) p)%num.
    destruct (keyboardDelta (keysPressed p) (tickSpeed (t - lastFrameTime p) p)%num)
      as [dX dY]; simpl.
    destruct ((dX !== int 0) || (dY !== int 0))%num.
    + pose proof (moveViewportByDelta_moved dX dY (setLastFrameTime t p)) as H.
      apply (moved_from _ p (setLastFrameTime t p)) in H; [|reflexivity..].
      revert H. apply moved_to; reflexivity.
    + still.
  - (* TouchStart *)
    unfold handleTouchStart.
    destruct touch as [[cx cy]|]; [|destruct (isLoaded (AppState p)); still].
    destruct (isLoaded (AppState p)) eqn:Hl; simpl; [|still].
    exact (pointer_moved cx cy false p
      (setInput (mkInput cx cy (input_keysPressed (input (AppState p))) false true false) p)
      eq_refl eq_refl eq_refl).
  - (* TouchMove *)
    unfold handleTouchMove.
    destruct touch as [[cx cy]|];
      [|destruct (negb _ || negb _); still].
    destruct (isLoaded (AppState p)) eqn:Hl; simpl; [|still].
    destruct (input_touchActive (input (AppState p))) eqn:Ht; simpl; [|still].
    pose proof (pointer_moved cx cy true p
      (setInput (mkInput cx cy (input_keysPressed (input (AppState p)))
                   (input_isMouseActive (input (AppState p)))
                   (input_touchActive (input (AppState p)))
                   (input_keyboardActive (input (AppState p)))) p)
      eq_refl eq_refl eq_refl) as H.
    simpl in H. rewrite Ht in H. exact H.
  - (* TouchEndTimeout *)
    unfold touchEndTimeout. destruct (n =? 0)%nat;
      still.
  - (* Blur *)
    still.
  - (* VisibilityChange *)
    unfold handleVisibilityChange. destruct hidden;
      still.
Qed.

(** What the two calls of a pointer sample leave alone: everything but
    the viewport, the cache and the render sink. *)
Lemma pointer_frame clientX clientY (smooth : bool) p1 :
  let q := (let '(position, p2) := mouseToViewportPosition clientX clientY p1 in
            ViewportController_updateViewportPosition (fst position) (snd position) smooth p2) in
  isLoaded (AppState q) = isLoaded (AppState p1)
  /\ input (AppState q) = input (AppState p1)
  /\ keyboard (AppState q) = keyboard (AppState p1)
  /\ lastFrameTime q = lastFrameTime p1.
Proof.
  rewrite mouseToViewportPosition_eq.
  unfold ViewportController_updateViewportPosition.
  rewrite applyBoundaryConstraints_eq.
  pose proof (refreshBounds_AppState p1) as H1.
  pose proof (refreshBounds_AppState (snd (refreshBounds p1))) as H2.
  pose proof (refreshBounds_rest p1) as (_ & L1 & _).
  pose proof (refreshBounds_rest (snd (refreshBounds p1))) as (_ & L2 & _).
  destruct smooth; simpl; rewrite H2, H1, L2, L1; auto.
Qed.

(** A pointer sample leaves the keyboard loop and the held keys alone. *)
Lemma handleMouseMove_frame clientX clientY p :
  let q := handleMouseMove clientX clientY p in
  isLoaded (AppState q) = isLoaded (AppState p)
  /\ input_touchActive (input (AppState q)) = input_touchActive (input (AppState p))
  /\ keyboard (AppState q) = keyboard (AppState p)
  /\ keysPressed q = keysPressed p
  /\ lastFrameTime q = lastFrameTime p.
Proof.
  unfold handleMouseMove.
  destruct (isLoaded (AppState p)) eqn:Hl; simpl; [|rewrite Hl; auto].
  match goal with
  | |- context [mouseToViewportPosition _ _ ?p1] =>
      pose proof (pointer_frame clientX clientY true p1) as (Fl & Fi & Fk & Ft)
  end.
  unfold keysPressed. rewrite Fl, Fi, Fk, Ft. simpl. auto.
Qed.

Lemma handleTouchStart_frame clientX clientY p :
  let q := handleTouchStart (Some (clientX, clientY)) p in
  keyboard (AppState q) = keyboard (AppState p) /\ keysPressed q = keysPressed p.
Proof.
  unfold handleTouchStart.
  destruct (isLoaded (AppState p)) eqn:Hl; simpl; [|auto].
  match goal with
  | |- context [mouseToViewportPosition _ _ ?p1] =>
      pose proof (pointer_frame clientX clientY false p1) as (Fl & Fi & Fk & Ft)
  end.
  unfold keysPressed. rewrite Fi, Fk. simpl. auto.
Qed.

(** So the loop runs after a pointer sample if it ran before. *)
Lemma pointer_sample_keeps_the_loop clientX clientY p :
  loopRuns (handle (MouseMove clientX clientY) p) = loopRuns p
  /\ loopRuns (handle (TouchStart (Some (clientX, clientY))) p) = loopRuns p.
Proof.
  pose proof (handleMouseMove_frame clientX clientY p) as (_ & _ & Mk & Ms & _).
  pose proof (handleTouchStart_frame clientX clientY p) as (Tk & Ts).
  unfold loopRuns. simpl. rewrite Mk, Ms, Tk, Ts. auto.
Qed.

Lemma intent_smoothing e p targetX targetY alpha :
  intent e p = Smooth targetX targetY alpha ->
  alpha = smoothingFactor \/ alpha = touchSmoothingFactor.
Proof.
  destruct e as [cx cy| | |key now|key|t|touch|touch|n| |hidden|w h|w h| |nx ny];
    simpl; try discriminate.
  - destruct (isLoaded (AppState p)); [|discriminate].
    intros H. injection H as _ _ <-. destruct (input_touchActive _); auto.
  - destruct (loopRuns p); [|discriminate].
    destruct (_ || _); discriminate.
  - destruct touch as [[cx cy]|]; [|discriminate].
    destruct (isLoaded (AppState p)); discriminate.
  - destruct touch as [[cx cy]|]; [|discriminate].
    destruct (_ && _); [|discriminate].
    intros H. injection H as _ _ <-. auto.
Qed.

(** No motion changes the container or the radius. *)
Lemma currentBounds_moved m p q : moved m p q -> currentBounds q = currentBounds p.
Proof.
  intros Hm. unfold currentBounds.
  assert (H : snd (core q) = snd (core p) /\ snd (fst (core q)) = snd (fst (core p))).
  { destruct m; destruct Hm as (-> & _); auto using core_refresh. }
  simpl in H. destruct H as [-> ->]. reflexivity.
Qed.

(** *** The cache stays usable *)

Lemma cacheValid_moved m p q : moved m p q -> cacheValid p -> cacheValid q.
Proof.
  intros Hm Hv.
  destruct m; destruct Hm as (Hc & _).
  - apply (cacheValid_core p q); auto.
  - apply (cacheValid_core (snd (refreshBounds p)) q); auto using cacheValid_refresh.
  - apply (cacheValid_core (snd (refreshBounds p)) q); auto using cacheValid_refresh.
Qed.

Lemma handleResize_controller w h p :
  viewportController (handleResize w h p) = viewportController p.
Proof.
  unfold handleResize. simpl. destruct (isLoaded (AppState p)); reflexivity.
Qed.

Lemma cacheValid_miss p : cacheMiss p = true -> cacheValid p.
Proof.
  unfold cacheValid. destruct (cachedBounds (viewportController p)); auto.
Qed.

Lemma cacheValid_step e p : cacheValid p -> keyedOnSize e p -> cacheValid (handle e p).
Proof.
  intros Hv Hk.
  assert (Hin : inputEvent e -> cacheValid (handle e p))
    by (intros Hi; exact (cacheValid_moved _ _ _ (handle_intent e p Hi) Hv)).
  assert (Hrs : forall w h,
    cacheMiss (handleResize w h p) = true
    \/ (container (AppState (handleResize w h p)) = container (AppState p)
        /\ state_radius (handleResize w h p) = state_radius p) ->
    cacheValid (handleResize w h p)).
  { intros w h [Hm|[Hc Hr]]; [apply cacheValid_miss; exact Hm|].
    apply (cacheValid_core p); [|exact Hv].
    unfold core. rewrite handleResize_controller, Hc, Hr. reflexivity. }
  destruct e; try (apply Hin; exact I).
  - apply Hrs, Hk.
  - apply Hrs, Hk.
  - simpl. unfold testViewportMaskTimeout.
    destruct (testOriginal p) as [[ox oy]|]; [|exact Hv].
    apply (cacheValid_core p); [reflexivity|exact Hv].
  - simpl. apply (cacheValid_core p); [reflexivity|exact Hv].
Qed.

Lemma cacheValid_run es p : cacheValid p -> keyedRun es p -> cacheValid (run es p).
Proof.
  revert p. induction es as [|e es IH]; intros p Hv Hk; [exact Hv|].
  destruct Hk as [He Hk]. apply (IH (handle e p)); auto using cacheValid_step.
Qed.

(** C7, as the code has it.  The cache is keyed on the container width
    and height alone.  On every run in which each resize either lands on a
    size other than the cached one or changes neither size nor radius,
    clamping through the cache gives what recomputing the bounds from the
    container size and the radius gives; and whenever width or height
    differs from the cached size, the call refreshes the cache with the
    bounds of the current size and radius. *)
Theorem C7_cache_keyed_on_container_size (p : @Page num) (es : list (@Event num)) (x y : num) :
  cacheValid p ->
  keyedRun es p ->
  let q := run es p in
  fst (applyBoundaryConstraints x y q) = applyBoundaryConstraints_recompute x y q
  /\ (forall r : @Page num,
        cacheMiss r = true ->
        fst (applyBoundaryConstraints x y r) = applyBoundaryConstraints_recompute x y r
        /\ cachedBounds (viewportController (snd (applyBoundaryConstraints x y r)))
           = Some (computeBounds (container (AppState r)) (state_radius r)))
  /\ (forall (r : @Page num) (radius : num), cacheMiss (setRadius radius r) = cacheMiss r).
Proof.
  intros Hv Hk q.
  pose proof (cacheValid_run es p Hv Hk) as Hq. fold q in Hq.
  split; [|split].
  - rewrite applyBoundaryConstraints_eq. simpl.
    unfold applyBoundaryConstraints_recompute.
    rewrite (usedBounds_valid q Hq). reflexivity.
  - intros r Hm. rewrite applyBoundaryConstraints_eq. simpl.
    rewrite refreshBounds_cached, (usedBounds_valid r (cacheValid_miss r Hm)).
    split; reflexivity.
  - reflexivity.
Qed.

Lemma pointer_sample_position (p : @Page num) (clientX clientY : num) :
  isLoaded (AppState p) = true ->
  let clamped :=
    clampTo (usedBounds p) (fst (target clientX clientY p)) (snd (target clientX clientY p)) in
  let alpha :=
    if input_touchActive (input (AppState p)) then touchSmoothingFactor
    else smoothingFactor in
  (let q := handle (MouseMove clientX clientY) p in
   state_x q = smoothed (state_x p) (fst clamped) alpha
   /\ state_y q = smoothed (state_y p) (snd clamped) alpha)
  /\ (input_touchActive (input (AppState p)) = true ->
      let q := handle (TouchMove (Some (clientX, clientY))) p in
      state_x q = smoothed (state_x p) (fst clamped) touchSmoothingFactor
      /\ state_y q = smoothed (state_y p) (snd clamped) touchSmoothingFactor)
  /\ (let q := handle (TouchStart (Some (clientX, clientY))) p in
      state_x q = fst clamped /\ state_y q = snd clamped).
Proof.
  intros Hl clamped alpha.
  pose proof (handle_intent (MouseMove clientX clientY) p I) as Hmm.
  pose proof (handle_intent (TouchMove (Some (clientX, clientY))) p I) as Htm.
  pose proof (handle_intent (TouchStart (Some (clientX, clientY))) p I) as Hts.
  unfold intent in Hmm, Htm, Hts. rewrite Hl in Hmm, Htm, Hts.
  split; [|split].
  - destruct Hmm as (_ & Hx & Hy). split; assumption.
  - intros Ht. rewrite Ht in Htm. destruct Htm as (_ & Hx & Hy). split; assumption.
  - destruct Hts as (_ & Hx & Hy). split; assumption.
Qed.

(** C4, as the code has it.  A processed mouse-move sample, and a
    processed touch-move sample, clamps its target into the rectangle the
    controller uses and moves the position once by
    [(clampedTarget - position) * alpha], with [alpha] 0.4 when the touch
    flag is up and 0.15 otherwise; a touch-start sample sets the position
    to the clamped target itself. *)
Theorem C4_pointer_sample_update (p : @Page num) (clientX clientY : num) :
  isLoaded (AppState p) = true ->
  let clamped :=
    clampTo (usedBounds p) (fst (target clientX clientY p)) (snd (target clientX clientY p)) in
  let alpha :=
    if input_touchActive (input (AppState p)) then dec 4 10 else dec 15 100 in
  (let q := handle (MouseMove clientX clientY) p in
   state_x q = (state_x p + (fst clamped - state_x p) * alpha)%num
   /\ state_y q = (state_y p + (snd clamped - state_y p) * alpha)%num)
  /\ (input_touchActive (input (AppState p)) = true ->
      let q := handle (TouchMove (Some (clientX, clientY))) p in
      state_x q = (state_x p + (fst clamped - state_x p) * dec 4 10)%num
      /\ state_y q = (state_y p + (snd clamped - state_y p) * dec 4 10)%num)
  /\ (let q := handle (TouchStart (Some (clientX, clientY))) p in
      state_x q = fst clamped /\ state_y q = snd clamped).
Proof. exact (pointer_sample_position p clientX clientY). Qed.

(** *** The self-test of [testViewportMask] and the runs *)

Lemma run_cons e es p : run (e :: es) p = run es (handle e p).
Proof. reflexivity. Qed.

Lemma pointer_testOriginal cx cy (smooth : bool) p1 :
  testOriginal (let '(position, p2) := mouseToViewportPosition cx cy p1 in
                ViewportController_updateViewportPosition (fst position) (snd position) smooth p2)
  = testOriginal p1.
Proof.
  rewrite mouseToViewportPosition_eq.
  unfold ViewportController_updateViewportPosition.
  rewrite applyBoundaryConstraints_eq.
  pose proof (refreshBounds_rest p1) as (_ & _ & T1 & _).
  pose proof (refreshBounds_rest (snd (refreshBounds p1))) as (_ & _ & T2 & _).
  destruct smooth; simpl; rewrite T2, T1; reflexivity.
Qed.

Lemma handle_testOriginal e p :
  isTestTimeout e = false -> testOriginal (handle e p) = testOriginal p.
Proof.
  destruct e as [cx cy| | |key now|key|t|touch|touch|n| |hidden|w h|w h| |nx ny]; simpl;
    try discriminate; intros _.
  - unfold handleMouseMove. destruct (isLoaded (AppState p)); simpl; [|reflexivity].
    rewrite pointer_testOriginal. reflexivity.
  - reflexivity.
  - reflexivity.
  - unfold handleKeyDown, startKeyboardMovement.
    destruct (isLoaded (AppState p)); simpl; [|reflexivity].
    destruct (bool_decide _); [|reflexivity]. simpl.
    destruct (keyboard_isMoving (keyboard (AppState p))); reflexivity.
  - unfold handleKeyUp. destruct (isLoaded (AppState p)); simpl; [|reflexivity].
    destruct (bool_decide _); reflexivity.
  - destruct (keyboard_animationId (keyboard (AppState p))); [|reflexivity].
    unfold moveLoop. destruct (negb _ || bool_decide _); [reflexivity|].
    destruct (keyboardDelta _ _) as [dX dY].
    destruct ((dX !== int 0) || (dY !== int 0))%num; [|reflexivity].
    unfold moveViewportByDelta. rewrite applyBoundaryConstraints_eq. simpl.
    pose proof (refreshBounds_rest (setLastFrameTime t p)) as (_ & _ & T1 & _).
    rewrite T1. reflexivity.
  - unfold handleTouchStart. destruct (isLoaded (AppState p)); simpl; [|reflexivity].
    destruct touch as [[cx cy]|]; [|reflexivity]. rewrite pointer_testOriginal. reflexivity.
  - unfold handleTouchMove. destruct (negb _ || negb _); [reflexivity|].
    destruct touch as [[cx cy]|]; [|reflexivity]. rewrite pointer_testOriginal. reflexivity.
  - unfold touchEndTimeout. destruct (n =? 0)%nat; reflexivity.
  - reflexivity.
  - destruct hidden; reflexivity.
  - unfold handleResize. simpl. destruct (isLoaded (AppState p)); reflexivity.
  - unfold handleOrientationChange, handleResize. simpl.
    destruct (isLoaded (AppState p)); reflexivity.
  - reflexivity.
Qed.

Lemma fixedWindowEvent_cases e :
  fixedWindowEvent e -> inputEvent e \/ e = TestViewportMaskTimeout.
Proof. destruct e; simpl; auto. Qed.

Lemma inputEvent_testOriginal e p :
  inputEvent e -> testOriginal (handle e p) = testOriginal p.
Proof. intros He. apply handle_testOriginal. destruct e; simpl in *; auto; contradiction. Qed.

Lemma timer_testOriginal p : testOriginal (handle TestViewportMaskTimeout p) = None.
Proof.
  simpl. unfold testViewportMaskTimeout.
  destruct (testOriginal p) as [[ox oy]|] eqn:Ho; [reflexivity|exact Ho].
Qed.

Lemma timer_fired es p :
  Forall fixedWindowEvent es ->
  testOriginal p = None \/ existsb isTestTimeout es = true ->
  testOriginal (run es p) = None.
Proof.
  intros Hes. revert p. induction Hes as [|e es He _ IH]; intros p Hp.
  - destruct Hp as [Hp|Hp]; [exact Hp|discriminate Hp].
  - rewrite run_cons. apply IH.
    destruct (fixedWindowEvent_cases e He) as [Hi| ->].
    + rewrite (inputEvent_testOriginal e p Hi).
      destruct Hp as [Hp|Hp]; [left; exact Hp|right].
      simpl in Hp. destruct e; simpl in *; auto; contradiction.
    + left. apply timer_testOriginal.
Qed.

End ProgramFacts.

(** ** Exact arithmetic *)

(** Comparisons between closed real expressions, innermost first. *)
Ltac rdecide :=
  repeat match goal with
  | |- context [Rle_dec ?a ?b] =>
      first [ let H := fresh in assert (H : (a <= b)%R) by lra;
              destruct (Rle_dec a b); [clear H|contradiction]
            | let H := fresh in assert (H : ~ (a <= b)%R) by lra;
              destruct (Rle_dec a b); [contradiction|clear H] ]
  | |- context [Rlt_dec ?a ?b] =>
      first [ let H := fresh in assert (H : (a < b)%R) by lra;
              destruct (Rlt_dec a b); [clear H|contradiction]
            | let H := fresh in assert (H : ~ (a < b)%R) by lra;
              destruct (Rlt_dec a b); [contradiction|clear H] ]
  | |- context [Req_dec_T ?a ?b] =>
      first [ let H := fresh in assert (H : a = b) by lra;
              destruct (Req_dec_T a b); [clear H|contradiction]
            | let H := fresh in assert (H : a <> b) by lra;
              destruct (Req_dec_T a b); [contradiction|clear H] ]
  end.

(** Run the program on closed real inputs. *)
Ltac rcompute :=
  lazy - [Rplus Rminus Rmult Rdiv Rinv Ropp IZR Rle_dec Rlt_dec Req_dec_T R_sqrt.sqrt
          Rle Rlt Rabs pow];
  rdecide.

Section ExactFacts.

Local Open Scope R_scope.
Local Abbreviation sqrt := R_sqrt.sqrt.
Implicit Types (p q : @Page R) (b : @Bounds R) (e : @Event R).

Lemma ltb_iff (a b : R) : num_lt a b = true <-> a < b.
Proof. simpl. unfold Exact.ltb. destruct (Rlt_dec a b); split; auto; discriminate. Qed.

Lemma num_le_iff (a b : R) : num_le a b = true <-> a <= b.
Proof.
  unfold num_le. simpl. unfold Exact.ltb, Exact.eqb.
  destruct (Rlt_dec a b), (Req_dec_T a b); simpl; split; intros; try lra; discriminate.
Qed.

Lemma inRectangle_iff b (x y : R) :
  inRectangle b x y = true
  <-> (minX b <= x <= maxX b /\ minY b <= y <= maxY b).
Proof.
  unfold inRectangle. rewrite !andb_true_iff, !num_le_iff. tauto.
Qed.

Lemma nonDegenerate_iff b :
  nonDegenerate b = true <-> (minX b <= maxX b /\ minY b <= maxY b).
Proof. unfold nonDegenerate. rewrite andb_true_iff, !num_le_iff. tauto. Qed.

Lemma clamp_between (lo hi x : R) : lo <= hi -> lo <= Rmax lo (Rmin hi x) <= hi.
Proof. intros H. unfold Rmax, Rmin. repeat destruct (Rle_dec _ _); lra. Qed.

Lemma clamp_idempotent (lo hi x : R) :
  Rmax lo (Rmin hi (Rmax lo (Rmin hi x))) = Rmax lo (Rmin hi x).
Proof. unfold Rmax, Rmin. repeat destruct (Rle_dec _ _); lra. Qed.

Lemma clamp_inside (lo hi x : R) : lo <= x <= hi -> Rmax lo (Rmin hi x) = x.
Proof. intros H. unfold Rmax, Rmin. repeat destruct (Rle_dec _ _); lra. Qed.

Lemma clampTo_inRectangle b (x y : R) :
  nonDegenerate b = true ->
  inRectangle b (fst (clampTo b x y)) (snd (clampTo b x y)) = true.
Proof.
  rewrite nonDegenerate_iff, inRectangle_iff. intros [Hx Hy]. simpl.
  split; apply clamp_between; assumption.
Qed.

Lemma smoothed_between (lo hi c t a : R) :
  0 <= a <= 1 -> lo <= c <= hi -> lo <= t <= hi -> lo <= smoothed c t a <= hi.
Proof.
  intros Ha Hc Ht. unfold smoothed. simpl.
  replace (c + (t - c) * a) with ((1 - a) * c + a * t) by ring.
  split; nra.
Qed.

Lemma smoothingFactor_unit : 0 <= smoothingFactor <= 1.
Proof. unfold smoothingFactor, dec. simpl. unfold Exact.lit. lra. Qed.

Lemma touchSmoothingFactor_unit : 0 <= touchSmoothingFactor <= 1.
Proof. unfold touchSmoothingFactor, dec. simpl. unfold Exact.lit. lra. Qed.

Lemma intent_alpha e p targetX targetY alpha :
  intent e p = Smooth targetX targetY alpha -> 0 <= alpha <= 1.
Proof.
  intros H. destruct (intent_smoothing e p _ _ _ H) as [-> | ->];
    [apply smoothingFactor_unit|apply touchSmoothingFactor_unit].
Qed.

Lemma settled_step e p : inputEvent e -> settled p -> settled (handle e p).
Proof.
  intros Hi (Hv & Hn & Hc).
  pose proof (handle_intent e p Hi) as Hm.
  pose proof (currentBounds_moved _ _ _ Hm) as Hb.
  split; [exact (cacheValid_moved _ _ _ Hm Hv)|].
  split; [rewrite Hb; exact Hn|].
  unfold contained in *. rewrite Hb.
  pose proof (intent_alpha e p) as Ha.
  destruct (intent e p) as [|tx ty|tx ty a]; destruct Hm as (_ & Hx & Hy).
  - rewrite Hx, Hy. exact Hc.
  - rewrite Hx, Hy, (usedBounds_valid p Hv). apply clampTo_inRectangle, Hn.
  - rewrite Hx, Hy, (usedBounds_valid p Hv).
    specialize (Ha tx ty a eq_refl).
    pose proof (clampTo_inRectangle (currentBounds p) tx ty Hn) as Ht.
    rewrite inRectangle_iff in *.
    destruct Hc as [Hcx Hcy], Ht as [Htx Hty].
    split; apply smoothed_between; assumption.
Qed.

Lemma selfTestSound_step e p :
  fixedWindowEvent e -> selfTestSound p -> selfTestSound (handle e p).
Proof.
  intros He (Hv & Hn & Ho).
  destruct (fixedWindowEvent_cases e He) as [Hi| ->].
  - pose proof (handle_intent e p Hi) as Hm.
    pose proof (currentBounds_moved _ _ _ Hm) as Hb.
    split; [exact (cacheValid_moved _ _ _ Hm Hv)|].
    split; [rewrite Hb; exact Hn|].
    rewrite (inputEvent_testOriginal e p Hi).
    destruct (testOriginal p) as [[ox oy]|].
    + rewrite Hb. exact Ho.
    + apply (settled_step e p Hi). repeat split; assumption.
  - simpl. unfold testViewportMaskTimeout.
    destruct (testOriginal p) as [[ox oy]|] eqn:Hp.
    + split; [apply (cacheValid_core p); [reflexivity|exact Hv]|].
      split; [exact Hn|exact Ho].
    + split; [exact Hv|]. split; [exact Hn|]. rewrite Hp. exact Ho.
Qed.

Lemma selfTestSound_run es p :
  Forall fixedWindowEvent es -> selfTestSound p -> selfTestSound (run es p).
Proof.
  intros Hes. revert p. induction Hes as [|e es He _ IH]; intros p Hp; [exact Hp|].
  rewrite run_cons. apply IH, selfTestSound_step; assumption.
Qed.

(** With the timer's point in the rectangle, a position in the rectangle
    stays there across the timer too. *)
Lemma settled_fixed_step e p :
  fixedWindowEvent e -> selfTestSound p -> settled p -> settled (handle e p).
Proof.
  intros He (_ & _ & Ho) Hs.
  destruct (fixedWindowEvent_cases e He) as [Hi| ->]; [apply settled_step; assumption|].
  destruct Hs as (Hv & Hn & Hc).
  simpl. unfold testViewportMaskTimeout.
  destruct (testOriginal p) as [[ox oy]|]; [|repeat split; assumption].
  split; [apply (cacheValid_core p); [reflexivity|exact Hv]|].
  split; [exact Hn|exact Ho].
Qed.

Lemma settled_fixed_run es p :
  Forall fixedWindowEvent es -> selfTestSound p -> settled p -> settled (run es p).
Proof.
  intros Hes. revert p. induction Hes as [|e es He _ IH]; intros p Hp Hs; [exact Hs|].
  rewrite run_cons. apply IH; [apply selfTestSound_step|apply settled_fixed_step]; assumption.
Qed.

Lemma centre_inRectangle (c : @Container R) (r : R) :
  nonDegenerate (computeBounds c r) = true ->
  inRectangle (computeBounds c r) (dec 5 10) (dec 5 10) = true.
Proof.
  rewrite inRectangle_iff, nonDegenerate_iff.
  unfold computeBounds. simpl.
  unfold boundaryPadding, dec, int. simpl. unfold Exact.lit.
  generalize (r / container_width c). generalize (r / container_height c).
  intros ry rx. destruct (Exact.ltb _ _); simpl; lra.
Qed.

Lemma initialized_sound (w h : R) :
  nonDegenerate (currentBounds (initialized w h)) = true -> selfTestSound (initialized w h).
Proof.
  intros Hn. split; [exact I|]. split; [exact Hn|].
  change (testOriginal (initialized w h)) with (Some (dec 5 10 : R, dec 5 10 : R)).
  apply centre_inRectangle, Hn.
Qed.

Lemma initialized_settled (w h : R) :
  nonDegenerate (currentBounds (initialized w h)) = true ->
  inRectangle (currentBounds (initialized w h)) (dec 51 100) (dec 51 100) = true ->
  settled (initialized w h).
Proof. intros Hn Hin. split; [exact I|]. split; [exact Hn|exact Hin]. Qed.

(** C1, as the code has it.  [initializeViewport] raises [isLoaded] and
    leaves the position at the (0.51, 0.51) of the self-test, whose timer
    writes the centre back 100 ms later; events are processed in between.
    In exact arithmetic, in a window of positive size whose allowed
    rectangle is not empty, after every prefix of every sequence of pointer,
    touch and keyboard events and firings of the self-test timer that
    follows [initializeViewport], the position is in the rectangle of the
    current container size and radius if the timer is among the events
    processed, or if (0.51, 0.51) is in the rectangle; if it is not, the
    position is outside the rectangle when [initializeViewport] returns. *)
Theorem C1_contained_while_the_container_is_fixed
    (w h : R) (es : list (@Event R)) (k : nat) :
  0 < w -> 0 < h ->
  nonDegenerate (currentBounds (initialized w h)) = true ->
  Forall fixedWindowEvent es ->
  let p := run (take k es) (initialized w h) in
  (existsb isTestTimeout (take k es) = true -> contained p)
  /\ (inRectangle (currentBounds (initialized w h)) (dec 51 100) (dec 51 100) = true ->
      contained p)
  /\ (inRectangle (currentBounds (initialized w h)) (dec 51 100) (dec 51 100) = false ->
      ~ contained (initialized w h)).
Proof.
  intros _ _ Hn Hes p.
  assert (Hk : Forall fixedWindowEvent (take k es)) by apply Forall_take, Hes.
  pose proof (initialized_sound w h Hn) as H0.
  split.
  - intros Ht.
    destruct (selfTestSound_run _ _ Hk H0) as (_ & _ & Ho). fold p in Ho.
    replace (testOriginal p) with (@None (R * R)) in Ho; [exact Ho|].
    symmetry. apply timer_fired; [exact Hk|right; exact Ht].
  - split.
    + intros Hin. apply (settled_fixed_run _ _ Hk H0), initialized_settled; assumption.
    + intros Hout Hc. unfold contained in Hc.
      change (state_x (initialized w h)) with (dec 51 100 : R) in Hc.
      change (state_y (initialized w h)) with (dec 51 100 : R) in Hc.
      rewrite Hc in Hout. discriminate Hout.
Qed.

(** *** Smoothing toward a fixed target *)

Lemma smoothed_error (c t a : R) : smoothed c t a - t = (c - t) * (1 - a).
Proof. unfold smoothed. simpl. ring. Qed.

Lemma clampTo_idempotent b (x y : R) :
  clampTo b (fst (clampTo b x y)) (snd (clampTo b x y)) = clampTo b x y.
Proof. unfold clampTo. simpl. rewrite !clamp_idempotent. reflexivity. Qed.

Lemma target_clamped (cx cy : R) p :
  clampTo (usedBounds p) (fst (target cx cy p)) (snd (target cx cy p)) = target cx cy p.
Proof. unfold target. apply clampTo_idempotent. Qed.

Lemma target_after_refresh (cx cy : R) p :
  target cx cy (snd (refreshBounds p)) = target cx cy p.
Proof.
  unfold target, width, height.
  rewrite usedBounds_refresh, refreshBounds_AppState. reflexivity.
Qed.

Lemma mouse_step (cx cy : R) p :
  isLoaded (AppState p) = true ->
  input_touchActive (input (AppState p)) = false ->
  let q := handle (MouseMove cx cy) p in
  state_x q = smoothed (state_x p) (fst (target cx cy p)) smoothingFactor
  /\ state_y q = smoothed (state_y p) (snd (target cx cy p)) smoothingFactor
  /\ target cx cy q = target cx cy p
  /\ isLoaded (AppState q) = true
  /\ input_touchActive (input (AppState q)) = false.
Proof.
  intros Hl Ht q.
  pose proof (handle_intent (MouseMove cx cy) p I) as Hm.
  unfold intent in Hm. rewrite Hl, Ht in Hm. unfold moved in Hm.
  rewrite target_clamped in Hm. destruct Hm as (Hc & Hx & Hy).
  fold q in Hc, Hx, Hy.
  pose proof (handleMouseMove_frame cx cy p) as (Fl & Ft & _).
  repeat split; try assumption.
  - rewrite (target_core cx cy q _ Hc). apply target_after_refresh.
  - unfold q. simpl. congruence.
  - unfold q. simpl. congruence.
Qed.

Lemma mouse_iterated (cx cy : R) (n : nat) p :
  isLoaded (AppState p) = true ->
  input_touchActive (input (AppState p)) = false ->
  let q := run (repeat (MouseMove cx cy) n) p in
  state_x q - fst (target cx cy p)
  = (state_x p - fst (target cx cy p)) * (1 - smoothingFactor) ^ n
  /\ state_y q - snd (target cx cy p)
     = (state_y p - snd (target cx cy p)) * (1 - smoothingFactor) ^ n.
Proof.
  revert p. induction n as [|n IH]; intros p Hl Ht.
  - simpl. split; ring.
  - destruct (mouse_step cx cy p Hl Ht) as (Hx & Hy & HT & Hl' & Ht').
    specialize (IH _ Hl' Ht'). cbv zeta in IH. rewrite HT in IH.
    destruct IH as [IHx IHy]. cbv zeta.
    change (run (repeat (MouseMove cx cy) (S n)) p)
      with (run (repeat (MouseMove cx cy) n) (handle (MouseMove cx cy) p)).
    rewrite IHx, IHy.
    pose proof (smoothed_error (state_x p) (fst (target cx cy p)) smoothingFactor) as Ex.
    pose proof (smoothed_error (state_y p) (snd (target cx cy p)) smoothingFactor) as Ey.
    rewrite <- Hx in Ex. rewrite <- Hy in Ey. rewrite Ex, Ey.
    rewrite <- !tech_pow_Rmult. split; ring.
Qed.

Lemma geometric_small (d eps : R) :
  0 < eps -> exists N : nat, forall n, (N <= n)%nat -> Rabs (d * (1 - smoothingFactor) ^ n) < eps.
Proof.
  intros He.
  destruct (Req_dec d 0) as [->|Hd].
  - exists 0%nat. intros n _. rewrite Rmult_0_l, Rabs_R0. exact He.
  - assert (Hd' : 0 < Rabs d) by (apply Rabs_pos_lt; exact Hd).
    assert (Hq : Rabs (1 - smoothingFactor) < 1).
    { pose proof smoothingFactor_unit.
      assert (0 < smoothingFactor)
        by (unfold smoothingFactor, dec; simpl; unfold Exact.lit; lra).
      apply Rabs_def1; lra. }
    destruct (pow_lt_1_zero _ Hq (eps / Rabs d)) as [N HN].
    { apply Rdiv_lt_0_compat; assumption. }
    exists N. intros n Hn. rewrite Rabs_mult.
    specialize (HN n Hn).
    apply (Rmult_lt_compat_l (Rabs d)) in HN; [|exact Hd'].
    replace (Rabs d * (eps / Rabs d)) with eps in HN by (field; lra).
    exact HN.
Qed.

Lemma loaded_1000_800_radius : state_radius (loaded 1000 800 : @Page R) = 80.
Proof. rcompute. lra. Qed.

Lemma loaded_1000_800_target :
  target 800 160 (loaded 1000 800 : @Page R) = (8 / 10, 2 / 10).
Proof.
  unfold target. rewrite loaded_usedBounds. unfold currentBounds, width, height.
  rewrite loaded_1000_800_radius, loaded_container.
  rcompute. f_equal; lra.
Qed.

Lemma loaded_1000_800_start :
  state_x (loaded 1000 800 : @Page R) = 5 / 10
  /\ state_y (loaded 1000 800 : @Page R) = 5 / 10.
Proof.
  destruct (loaded_position (1000 : R) 800) as [-> ->].
  unfold dec. simpl. unfold Exact.lit. split; lra.
Qed.

(** C8, as the code has it.  In exact arithmetic, feeding the same pointer
    sample again and again multiplies the distance to the clamped target by
    0.85 at every sample, on each axis, so the position converges to the
    clamped target.  From (0.5, 0.5) toward (0.8, 0.2) the distance after 50
    samples is 0.3 * 0.85^50, between 1e-6 and 1e-4; it is below 1e-6 after
    78 samples. *)
Theorem C8_smoothing_converges_geometrically :
  (forall (p : @Page R) (cx cy : R),
      0 < width p -> 0 < height p ->
      isLoaded (AppState p) = true ->
      input_touchActive (input (AppState p)) = false ->
      let t := target cx cy p in
      let q n := run (repeat (MouseMove cx cy) n) p in
      (forall n, state_x (q n) - fst t = (state_x p - fst t) * (85 / 100) ^ n
                 /\ state_y (q n) - snd t = (state_y p - snd t) * (85 / 100) ^ n)
      /\ (forall eps, 0 < eps ->
            exists N : nat, forall n, (N <= n)%nat ->
              Rabs (state_x (q n) - fst t) < eps /\ Rabs (state_y (q n) - snd t) < eps))
  /\ (let q n := run (repeat (MouseMove 800 160) n) (loaded 1000 800 : @Page R) in
      target 800 160 (loaded 1000 800 : @Page R) = (8 / 10, 2 / 10)
      /\ 1 / 1000000 < Rabs (state_x (q 50%nat) - 8 / 10) < 1 / 10000
      /\ 1 / 1000000 < Rabs (state_y (q 50%nat) - 2 / 10) < 1 / 10000
      /\ Rabs (state_x (q 78%nat) - 8 / 10) < 1 / 1000000
      /\ Rabs (state_y (q 78%nat) - 2 / 10) < 1 / 1000000).
Proof.
  assert (Hsf : 1 - smoothingFactor = 85 / 100)
    by (unfold smoothingFactor, dec; simpl; unfold Exact.lit; lra).
  split.
  - intros p cx cy _ _ Hl Ht t q. split.
    + intros n. pose proof (mouse_iterated cx cy n p Hl Ht) as H.
      cbv zeta in H. rewrite Hsf in H. exact H.
    + intros eps He.
      destruct (geometric_small (state_x p - fst t) eps He) as [Nx HNx].
      destruct (geometric_small (state_y p - snd t) eps He) as [Ny HNy].
      exists (Nat.max Nx Ny). intros n Hn.
      pose proof (mouse_iterated cx cy n p Hl Ht) as [Hx Hy].
      unfold q, t. rewrite Hx, Hy. split; [apply HNx|apply HNy]; lia.
  - intros q.
    destruct (loaded_flags (1000 : R) 800) as [Hl Ht].
    pose proof loaded_1000_800_start as [Sx Sy].
    split; [exact loaded_1000_800_target|].
    pose proof (mouse_iterated 800 160 50 _ Hl Ht) as [X50 Y50].
    pose proof (mouse_iterated 800 160 78 _ Hl Ht) as [X78 Y78].
    rewrite loaded_1000_800_target, Hsf, ?Sx, ?Sy in X50, Y50, X78, Y78.
    simpl fst in *. simpl snd in *.
    unfold q. rewrite X50, Y50, X78, Y78.
    repeat split; try (apply Rabs_def1); unfold Rabs; try destruct (Rcase_abs _); lra.
Qed.

(** *** The keyboard tick *)

Lemma diagonalFactor_sqr :
  let f : R := num_div (int 1) (num_sqrt (int 2)) in f * f = 1 / 2.
Proof.
  unfold int. simpl. unfold Exact.lit.
  replace (2 / 1) with 2 by lra. replace (1 / 1) with 1 by lra.
  assert (H2 : sqrt 2 * sqrt 2 = 2) by (apply sqrt_sqrt; lra).
  assert (Hp : 0 < sqrt 2) by (apply sqrt_lt_R0; lra).
  field_simplify; [|lra]. replace (sqrt 2 ^ 2) with (sqrt 2 * sqrt 2) by ring.
  rewrite H2. reflexivity.
Qed.

Lemma keyboardDelta_direction (keys : gset string) (speed : R) :
  keyboardDelta keys speed
  = (fst (direction keys) * speed, snd (direction keys) * speed).
Proof.
  unfold keyboardDelta, direction.
  set (f := num_div (int 1) (num_sqrt (int 2))).
  destruct (leftPressed keys), (rightPressed keys), (upPressed keys), (downPressed keys);
    simpl; unfold int; simpl; unfold Exact.lit; f_equal; field.
Qed.

Lemma magnitude_diagonal (keys : gset string) (speed : R) :
  diagonalKeys keys = true -> magnitude (keyboardDelta keys speed) = Rabs speed.
Proof.
  intros Hk. rewrite <- sqrt_Rsqr_abs. unfold magnitude, Rsqr. simpl. f_equal.
  pose proof diagonalFactor_sqr as Hf. cbv zeta in Hf.
  revert Hk. unfold diagonalKeys, keyboardDelta.
  set (f := num_div (int 1) (num_sqrt (int 2))) in *.
  destruct (leftPressed keys), (rightPressed keys), (upPressed keys), (downPressed keys);
    simpl; try discriminate; intros _; unfold int; simpl; unfold Exact.lit;
    match goal with
    | |- ?l = _ => transitivity (2 * (speed * speed) * (f * f)); [field|rewrite Hf; field]
    end.
Qed.

Lemma magnitude_single (keys : gset string) (speed : R) :
  singleKey keys = true -> magnitude (keyboardDelta keys speed) = Rabs speed.
Proof.
  intros Hk. rewrite <- sqrt_Rsqr_abs. unfold magnitude, Rsqr. simpl. f_equal.
  revert Hk. unfold singleKey, keyboardDelta.
  destruct (leftPressed keys), (rightPressed keys), (upPressed keys), (downPressed keys);
    simpl; try discriminate; intros _; unfold int; simpl; unfold Exact.lit; field.
Qed.

Lemma direction_diagonal (keys : gset string) :
  diagonalKeys keys = true ->
  Rabs (fst (direction keys)) = 1 / sqrt 2 /\ Rabs (snd (direction keys)) = 1 / sqrt 2.
Proof.
  intros Hb.
  assert (Hp : 0 < 1 / sqrt 2)
    by (apply Rdiv_lt_0_compat; [lra|apply sqrt_lt_R0; lra]).
  revert Hb. unfold diagonalKeys, direction.
  destruct (leftPressed keys), (rightPressed keys), (upPressed keys), (downPressed keys);
    simpl; try discriminate; intros _; unfold int; simpl; unfold Exact.lit;
    replace (2 / 1) with 2 by lra;
    split; unfold Rabs; destruct (Rcase_abs _); lra.
Qed.

Lemma neq_iff (a b : R) : (a !== b)%num = true <-> a <> b.
Proof. simpl. unfold Exact.eqb. destruct (Req_dec_T a b); simpl; split; auto; discriminate. Qed.

Lemma int_0 : (int 0 : R) = 0.
Proof. unfold int. simpl. unfold Exact.lit. lra. Qed.

Lemma getKeyboardMoveSpeed_table p :
  (width p < 480 -> getKeyboardMoveSpeed p = 3 / 1000)
  /\ (480 <= width p < 768 -> getKeyboardMoveSpeed p = 25 / 10000)
  /\ (768 <= width p -> getKeyboardMoveSpeed p = 2 / 1000).
Proof.
  unfold getKeyboardMoveSpeed, int, dec. simpl. unfold Exact.lit, Exact.ltb.
  repeat split; intros H; repeat destruct (Rlt_dec _ _); lra.
Qed.

(** C5, as the code has it.  In exact arithmetic, a tick of the running
    keyboard loop that sees the elapsed time [dt] asks for the displacement
    [direction * baseSpeed * (dt / 16.67)], with [baseSpeed] 0.003 below 480
    pixels of width, 0.0025 below 768 and 0.002 from there on; unless that
    displacement is zero, the position is set, without smoothing, to the
    clamp of the displaced position.  One tick of 16.67 ms holding only
    [arrowleft] in a window 1000 pixels wide moves [x] by -0.002 before the
    clamp. *)
Theorem C5_keyboard_tick_displacement (p : @Page R) (currentTime : R) :
  0 < width p -> 0 < height p ->
  loopRuns p = true ->
  let dt := currentTime - lastFrameTime p in
  let speed := getKeyboardMoveSpeed p * (dt / (1667 / 100)) in
  let dx := fst (direction (keysPressed p)) * speed in
  let dy := snd (direction (keysPressed p)) * speed in
  let q := handle (AnimationFrame currentTime) p in
  ((width p < 480 -> getKeyboardMoveSpeed p = 3 / 1000)
   /\ (480 <= width p < 768 -> getKeyboardMoveSpeed p = 25 / 10000)
   /\ (768 <= width p -> getKeyboardMoveSpeed p = 2 / 1000))
  /\ keyboardDelta (keysPressed p) (tickSpeed dt p) = (dx, dy)
  /\ (dx <> 0 \/ dy <> 0 ->
      state_x q = fst (clampTo (usedBounds p) (state_x p + dx) (state_y p + dy))
      /\ state_y q = snd (clampTo (usedBounds p) (state_x p + dx) (state_y p + dy)))
  /\ (dx = 0 -> dy = 0 -> state_x q = state_x p /\ state_y q = state_y p)
  /\ (width p = 1000 -> keysPressed p = {[ "arrowleft"%string ]} -> dt = 1667 / 100 ->
      dx = - (2 / 1000) /\ dy = 0
      /\ state_x q = fst (clampTo (usedBounds p) (state_x p - 2 / 1000) (state_y p))).
Proof.
  intros _ _ Hrun dt speed dx dy q.
  assert (Hspeed : tickSpeed dt p = speed).
  { unfold tickSpeed, speed, dec. simpl. unfold Exact.lit. reflexivity. }
  assert (Hd : keyboardDelta (keysPressed p) (tickSpeed dt p) = (dx, dy)).
  { rewrite keyboardDelta_direction, Hspeed. reflexivity. }
  pose proof (handle_intent (AnimationFrame currentTime) p I) as Hm.
  unfold intent in Hm. rewrite Hrun in Hm.
  change (num_sub currentTime (lastFrameTime p)) with dt in Hm. rewrite Hd in Hm.
  cbv zeta in Hm. simpl fst in Hm. simpl snd in Hm. fold q in Hm.
  assert (Hmove : dx <> 0 \/ dy <> 0 ->
      state_x q = fst (clampTo (usedBounds p) (state_x p + dx) (state_y p + dy))
      /\ state_y q = snd (clampTo (usedBounds p) (state_x p + dx) (state_y p + dy))).
  { intros Hnz.
    assert (Hc : ((dx !== int 0) || (dy !== int 0))%num = true).
    { rewrite orb_true_iff, !neq_iff, int_0. exact Hnz. }
    rewrite Hc in Hm. destruct Hm as (_ & Hx & Hy). split; assumption. }
  split; [apply getKeyboardMoveSpeed_table|].
  split; [exact Hd|].
  split; [exact Hmove|].
  split.
  - intros Hx0 Hy0.
    assert (Hc : ((dx !== int 0) || (dy !== int 0))%num = false).
    { rewrite orb_false_iff. split; apply not_true_is_false; rewrite neq_iff, int_0; tauto. }
    rewrite Hc in Hm. destruct Hm as (_ & Hx & Hy). split; assumption.
  - intros Hw Hk Hdt.
    destruct (getKeyboardMoveSpeed_table p) as (_ & _ & Hs).
    assert (Hdir : direction (keysPressed p) = (-1, 0)).
    { rewrite Hk. unfold direction.
      replace (leftPressed {[ "arrowleft"%string ]}) with true by (vm_compute; reflexivity).
      replace (rightPressed {[ "arrowleft"%string ]}) with false by (vm_compute; reflexivity).
      replace (upPressed {[ "arrowleft"%string ]}) with false by (vm_compute; reflexivity).
      replace (downPressed {[ "arrowleft"%string ]}) with false by (vm_compute; reflexivity).
      simpl. unfold int. simpl. unfold Exact.lit. f_equal; lra. }
    assert (Hdx : dx = - (2 / 1000)).
    { unfold dx, speed. rewrite Hdir, Hs, Hdt by lra. simpl. field. }
    assert (Hdy : dy = 0).
    { unfold dy. rewrite Hdir. simpl. ring. }
    split; [exact Hdx|]. split; [exact Hdy|].
    destruct Hmove as [Hx _]; [left; lra|].
    rewrite Hx, Hdx. reflexivity.
Qed.

(** *** The diagonal tick *)

(** What a tick of the running loop does to the position. *)
Lemma tick_displacement p (currentTime : R) :
  loopRuns p = true ->
  let d := keyboardDelta (keysPressed p) (tickSpeed (currentTime - lastFrameTime p) p) in
  let q := handle (AnimationFrame currentTime) p in
  (d <> (0, 0) ->
   (state_x q, state_y q) = clampTo (usedBounds p) (state_x p + fst d) (state_y p + snd d))
  /\ (inRectangle (usedBounds p) (state_x p + fst d) (state_y p + snd d) = true ->
      displacement p q = d).
Proof.
  intros Hrun d q.
  pose proof (handle_intent (AnimationFrame currentTime) p I) as Hm.
  unfold intent in Hm. rewrite Hrun in Hm.
  change (num_sub currentTime (lastFrameTime p)) with (currentTime - lastFrameTime p) in Hm.
  fold d in Hm. cbv zeta in Hm. fold q in Hm.
  destruct ((fst d !== int 0) || (snd d !== int 0))%num eqn:Hc.
  - destruct Hm as (_ & Hx & Hy). split.
    + intros _. rewrite Hx, Hy. simpl. reflexivity.
    + rewrite inRectangle_iff. intros [Hix Hiy].
      unfold displacement. rewrite Hx, Hy. simpl.
      rewrite !clamp_inside by assumption.
      destruct d as [dx dy]. simpl. f_equal; lra.
  - apply orb_false_iff in Hc as [Hcx Hcy].
    apply not_true_iff_false in Hcx, Hcy. rewrite neq_iff, int_0 in Hcx, Hcy.
    assert (Hd : d = (0, 0)).
    { destruct d as [dx dy]. simpl in *. f_equal.
      - destruct (Req_dec_T dx 0); [assumption|contradiction].
      - destruct (Req_dec_T dy 0); [assumption|contradiction]. }
    destruct Hm as (_ & Hx & Hy). split.
    + intros Hne. contradiction.
    + intros _. unfold displacement. rewrite Hx, Hy, Hd. simpl. f_equal; lra.
Qed.

Lemma clamp_step_sqr (lo hi x d : R) :
  lo <= x <= hi ->
  (Rmax lo (Rmin hi (x + d)) - x) * (Rmax lo (Rmin hi (x + d)) - x) <= d * d.
Proof. intros H. unfold Rmax, Rmin. repeat destruct (Rle_dec _ _); nra. Qed.

Lemma tick_displacement_short p (currentTime : R) :
  loopRuns p = true ->
  inRectangle (usedBounds p) (state_x p) (state_y p) = true ->
  let d := keyboardDelta (keysPressed p) (tickSpeed (currentTime - lastFrameTime p) p) in
  magnitude (displacement p (handle (AnimationFrame currentTime) p)) <= magnitude d.
Proof.
  intros Hrun Hin d. rewrite inRectangle_iff in Hin. destruct Hin as [Hix Hiy].
  pose proof (handle_intent (AnimationFrame currentTime) p I) as Hm.
  unfold intent in Hm. rewrite Hrun in Hm.
  change (num_sub currentTime (lastFrameTime p)) with (currentTime - lastFrameTime p) in Hm.
  fold d in Hm. cbv zeta in Hm.
  unfold magnitude, displacement. apply sqrt_le_1_alt.
  destruct ((fst d !== int 0) || (snd d !== int 0))%num;
    destruct Hm as (_ & Hx & Hy); rewrite Hx, Hy; simpl.
  - pose proof (clamp_step_sqr _ _ _ (fst d) Hix). pose proof (clamp_step_sqr _ _ _ (snd d) Hiy).
    lra.
  - nra.
Qed.

(** C9, as the code has it.  In exact arithmetic, take a tick of the
    running keyboard loop with one horizontal and one vertical direction
    held, and a tick with a single direction held, in windows of the same
    width and after the same elapsed time.  The two ticks have the same
    [moveSpeed]; the displacement each asks for has the length of
    [moveSpeed], the two components of the diagonal one being [moveSpeed]
    scaled by 1/sqrt 2; each tick sets the position to the clamp of the
    displaced position; so where the displaced positions are in the
    rectangle the two ticks move the viewport by the same distance.  From a
    position in the rectangle the clamp never lengthens the move: at an edge
    it shortens it. *)
Theorem C9_diagonal_speed_is_axis_speed
    (both one : @Page R) (timeBoth timeOne : R) :
  loopRuns both = true -> loopRuns one = true ->
  diagonalKeys (keysPressed both) = true ->
  singleKey (keysPressed one) = true ->
  width both = width one ->
  timeBoth - lastFrameTime both = timeOne - lastFrameTime one ->
  let speed := tickSpeed (timeBoth - lastFrameTime both) both in
  let deltaBoth := keyboardDelta (keysPressed both) speed in
  let deltaOne := keyboardDelta (keysPressed one) speed in
  let afterBoth := handle (AnimationFrame timeBoth) both in
  let afterOne := handle (AnimationFrame timeOne) one in
  tickSpeed (timeOne - lastFrameTime one) one = speed
  /\ magnitude deltaBoth = Rabs speed
  /\ magnitude deltaOne = Rabs speed
  /\ magnitude deltaBoth = magnitude deltaOne
  /\ deltaBoth = (fst (direction (keysPressed both)) * speed,
                  snd (direction (keysPressed both)) * speed)
  /\ Rabs (fst (direction (keysPressed both))) = 1 / sqrt 2
  /\ Rabs (snd (direction (keysPressed both))) = 1 / sqrt 2
  /\ (speed <> 0 ->
      (state_x afterBoth, state_y afterBoth)
      = clampTo (usedBounds both) (state_x both + fst deltaBoth) (state_y both + snd deltaBoth)
      /\ (state_x afterOne, state_y afterOne)
         = clampTo (usedBounds one) (state_x one + fst deltaOne) (state_y one + snd deltaOne))
  /\ (inRectangle (usedBounds both)
        (state_x both + fst deltaBoth) (state_y both + snd deltaBoth) = true ->
      inRectangle (usedBounds one)
        (state_x one + fst deltaOne) (state_y one + snd deltaOne) = true ->
      displacement both afterBoth = deltaBoth
      /\ displacement one afterOne = deltaOne
      /\ magnitude (displacement both afterBoth) = magnitude (displacement one afterOne))
  /\ (inRectangle (usedBounds both) (state_x both) (state_y both) = true ->
      magnitude (displacement both afterBoth) <= Rabs speed)
  /\ (inRectangle (usedBounds one) (state_x one) (state_y one) = true ->
      magnitude (displacement one afterOne) <= Rabs speed).
Proof.
  intros Rb Ro Hb Ho Hw Ht speed deltaBoth deltaOne afterBoth afterOne.
  assert (Hs : tickSpeed (timeOne - lastFrameTime one) one = speed).
  { unfold speed. rewrite Ht. unfold tickSpeed, getKeyboardMoveSpeed. rewrite Hw. reflexivity. }
  pose proof (magnitude_diagonal _ speed Hb) as Mb. fold deltaBoth in Mb.
  pose proof (magnitude_single _ speed Ho) as Mo. fold deltaOne in Mo.
  pose proof (tick_displacement both timeBoth Rb) as [Cb Db].
  pose proof (tick_displacement one timeOne Ro) as [Co Do].
  rewrite Hs in Co, Do. cbv zeta in Cb, Db, Co, Do.
  fold speed deltaBoth afterBoth in Cb, Db. fold deltaOne afterOne in Co, Do.
  split; [exact Hs|]. split; [exact Mb|]. split; [exact Mo|].
  split; [rewrite Mb, Mo; reflexivity|].
  split; [apply keyboardDelta_direction|].
  split; [apply direction_diagonal, Hb|]. split; [apply direction_diagonal, Hb|].
  split; [|split; [|split]].
  - intros Hne.
    assert (Hpos : Rabs speed <> 0) by (apply Rabs_no_R0, Hne).
    assert (Hz : magnitude ((0, 0) : R * R) = 0).
    { unfold magnitude. simpl. replace (0 * 0 + 0 * 0) with 0 by ring. apply sqrt_0. }
    split; [apply Cb|apply Co]; intros H0; rewrite H0, Hz in *; auto.
  - intros Ib Io. specialize (Db Ib). specialize (Do Io).
    split; [exact Db|]. split; [exact Do|].
    rewrite Db, Do, Mb, Mo. reflexivity.
  - intros Hin. rewrite <- Mb. exact (tick_displacement_short both timeBoth Rb Hin).
  - intros Hin. rewrite <- Mo. unfold deltaOne. rewrite <- Hs.
    exact (tick_displacement_short one timeOne Ro Hin).
Qed.

End ExactFacts.

(** ** binary64 *)

(** *** The order of the specification *)

Section SpecOrder.
Implicit Types (a b c : spec_float).

Lemma SFcompare_refl a : a <> S754_nan -> SFcompare a a = Some Eq.
Proof.
  destruct a as [s|s| |s m e]; simpl; try congruence; intros _.
  - destruct s; reflexivity.
  - destruct s; rewrite Z.compare_refl, Pos.compare_cont_refl; reflexivity.
Qed.

Lemma SFcompare_total a b :
  a <> S754_nan -> b <> S754_nan -> exists r, SFcompare a b = Some r.
Proof.
  destruct a, b; simpl; try congruence; intros _ _; eauto.
Qed.

Lemma SFcompare_nan a b : SFcompare a b = None <-> (a = S754_nan \/ b = S754_nan).
Proof.
  destruct a, b; simpl; split; intros H; try discriminate; auto;
    destruct H; discriminate.
Qed.

Lemma SFcompare_swap a b : SFcompare b a = option_map CompOpp (SFcompare a b).
Proof.
  destruct a as [s|s| |s m e], b as [s'|s'| |s' m' e']; simpl; try reflexivity;
    try (destruct s; reflexivity); try (destruct s'; reflexivity);
    try (destruct s, s'; reflexivity).
  change (Pos.compare_cont Eq m m') with (Pos.compare m m').
  change (Pos.compare_cont Eq m' m) with (Pos.compare m' m).
  destruct s, s'; try reflexivity;
    rewrite (Z.compare_antisym e e'), (Pos.compare_antisym m m');
    destruct (e ?= e')%Z; simpl; try reflexivity;
    destruct (m ?= m')%positive; reflexivity.
Qed.

Lemma SFcompare_trans a b c r1 r2 r :
  SFcompare a b = Some r1 -> SFcompare b c = Some r2 -> Float64.chain r1 r2 = Some r ->
  SFcompare a c = Some r.
Proof.
  destruct a as [sa|sa| |sa ma ea], b as [sb|sb| |sb mb eb], c as [sc|sc| |sc mc ec];
    simpl; try discriminate;
    try (destruct sa); try (destruct sb); try (destruct sc);
    intros H1 H2; injection H1 as <-; injection H2 as <-; simpl;
    try (intros H; injection H as <-; reflexivity); try discriminate.
  all: repeat match goal with
       | |- context [Pos.compare_cont Eq ?x ?y] =>
           change (Pos.compare_cont Eq x y) with (Pos.compare x y)
       end;
    repeat match goal with
       | |- context [Z.compare ?x ?y] => destruct (Z.compare_spec x y)
       | |- context [Pos.compare ?x ?y] => destruct (Pos.compare_spec x y)
       end;
    simpl; intros Hch; try discriminate Hch; try (injection Hch as <-);
    try reflexivity; try lia.
Qed.

End SpecOrder.

(** *** The order on [float], and the clamp *)

Section Binary64Order.
Implicit Types (a b c x : float).

Lemma ltb_cmp a b : PrimFloat.ltb a b = true <-> Float64.cmp a b = Some Lt.
Proof.
  rewrite FloatAxioms.ltb_spec. unfold SFltb, Float64.cmp.
  destruct (SFcompare _ _) as [[]|]; split; congruence.
Qed.

Lemma ltb_false_cmp a b : PrimFloat.ltb a b = false <-> Float64.cmp a b <> Some Lt.
Proof. rewrite <- ltb_cmp. destruct (PrimFloat.ltb a b); split; congruence. Qed.

Lemma leb_cmp a b :
  PrimFloat.leb a b = true <-> (Float64.cmp a b = Some Lt \/ Float64.cmp a b = Some Eq).
Proof.
  rewrite FloatAxioms.leb_spec. unfold SFleb, Float64.cmp.
  destruct (SFcompare _ _) as [[]|]; intuition congruence.
Qed.

Lemma is_nan_Prim2SF a : PrimFloat.is_nan a = false <-> Prim2SF a <> S754_nan.
Proof.
  unfold PrimFloat.is_nan. rewrite FloatAxioms.eqb_spec. unfold SFeqb. split.
  - intros H E. rewrite E in H. discriminate.
  - intros H. rewrite (SFcompare_refl _ H). reflexivity.
Qed.

Lemma cmp_some a b r : Float64.cmp a b = Some r -> PrimFloat.is_nan a = false /\ PrimFloat.is_nan b = false.
Proof.
  intros H. rewrite !is_nan_Prim2SF.
  split; intros E; unfold Float64.cmp in H; rewrite E in H;
    [|destruct (Prim2SF a)]; discriminate.
Qed.

Lemma cmp_total a b :
  PrimFloat.is_nan a = false -> PrimFloat.is_nan b = false -> exists r, Float64.cmp a b = Some r.
Proof. rewrite !is_nan_Prim2SF. apply SFcompare_total. Qed.

Lemma cmp_swap a b r : Float64.cmp a b = Some r -> Float64.cmp b a = Some (CompOpp r).
Proof. unfold Float64.cmp. intros H. rewrite SFcompare_swap, H. reflexivity. Qed.

Lemma cmp_trans a b c r1 r2 r :
  Float64.cmp a b = Some r1 -> Float64.cmp b c = Some r2 -> Float64.chain r1 r2 = Some r -> Float64.cmp a c = Some r.
Proof. apply SFcompare_trans. Qed.

(** [Math.max] and [Math.min] pick one of their arguments, by the order. *)
Lemma max_cases a b :
  PrimFloat.is_nan a = false -> PrimFloat.is_nan b = false ->
  (Float64.cmp a b = Some Lt /\ Float64.max a b = b)
  \/ (Float64.cmp a b = Some Gt /\ Float64.max a b = a)
  \/ (Float64.cmp a b = Some Eq /\ (Float64.max a b = a \/ Float64.max a b = b)).
Proof.
  intros Ha Hb. unfold Float64.max. rewrite Ha, Hb. simpl.
  destruct (cmp_total a b Ha Hb) as [r Hr].
  destruct (PrimFloat.ltb a b) eqn:Hab.
  - left. rewrite ltb_cmp in Hab. auto.
  - destruct (PrimFloat.ltb b a) eqn:Hba.
    + right; left. rewrite ltb_cmp in Hba. apply cmp_swap in Hba. auto.
    + right; right. rewrite ltb_false_cmp in Hab, Hba.
      destruct r.
      * split; [assumption|]. destruct (PrimFloat.get_sign a); auto.
      * congruence.
      * apply cmp_swap in Hr. simpl in Hr. congruence.
Qed.

Lemma min_cases a b :
  PrimFloat.is_nan a = false -> PrimFloat.is_nan b = false ->
  (Float64.cmp a b = Some Lt /\ Float64.min a b = a)
  \/ (Float64.cmp a b = Some Gt /\ Float64.min a b = b)
  \/ (Float64.cmp a b = Some Eq /\ (Float64.min a b = a \/ Float64.min a b = b)).
Proof.
  intros Ha Hb. unfold Float64.min. rewrite Ha, Hb. simpl.
  destruct (cmp_total a b Ha Hb) as [r Hr].
  destruct (PrimFloat.ltb a b) eqn:Hab.
  - left. rewrite ltb_cmp in Hab. auto.
  - destruct (PrimFloat.ltb b a) eqn:Hba.
    + right; left. rewrite ltb_cmp in Hba. apply cmp_swap in Hba. auto.
    + right; right. rewrite ltb_false_cmp in Hab, Hba.
      destruct r.
      * split; [assumption|]. destruct (PrimFloat.get_sign a); auto.
      * congruence.
      * apply cmp_swap in Hr. simpl in Hr. congruence.
Qed.

(** The clamp to an empty interval is its lower end. *)
Lemma clamp_degenerate lo hi x :
  PrimFloat.ltb hi lo = true -> PrimFloat.is_nan x = false ->
  Float64.max lo (Float64.min hi x) = lo.
Proof.
  intros Hd Hx. rewrite ltb_cmp in Hd.
  destruct (cmp_some _ _ _ Hd) as [Hhi Hlo].
  assert (Hm : Float64.cmp (Float64.min hi x) lo = Some Lt).
  { destruct (min_cases hi x Hhi Hx) as [[_ ->]|[[Hc ->]|[Hc [->| ->]]]]; try assumption.
    - apply cmp_swap in Hc. exact (cmp_trans _ _ _ _ _ _ Hc Hd eq_refl).
    - apply cmp_swap in Hc. exact (cmp_trans _ _ _ _ _ _ Hc Hd eq_refl). }
  destruct (cmp_some _ _ _ Hm) as [Hmn _].
  apply cmp_swap in Hm. simpl in Hm.
  destruct (max_cases lo _ Hlo Hmn) as [[Hc _]|[[_ ->]|[Hc _]]]; congruence.
Qed.

(** The clamp to a proper interval lands in it. *)
Lemma clamp_within lo hi x :
  PrimFloat.leb lo hi = true -> PrimFloat.is_nan x = false ->
  PrimFloat.leb lo (Float64.max lo (Float64.min hi x)) = true
  /\ PrimFloat.leb (Float64.max lo (Float64.min hi x)) hi = true.
Proof.
  intros Hd Hx. rewrite !leb_cmp in *.
  assert (Hn : PrimFloat.is_nan lo = false /\ PrimFloat.is_nan hi = false)
    by (destruct Hd as [Hd|Hd]; exact (cmp_some _ _ _ Hd)).
  destruct Hn as [Hlo Hhi].
  assert (Hrefl : forall a, PrimFloat.is_nan a = false -> Float64.cmp a a = Some Eq)
    by (intros a Ha; apply SFcompare_refl, is_nan_Prim2SF, Ha).
  assert (Hm : PrimFloat.is_nan (Float64.min hi x) = false
               /\ (Float64.cmp (Float64.min hi x) hi = Some Lt
                   \/ Float64.cmp (Float64.min hi x) hi = Some Eq)).
  { destruct (min_cases hi x Hhi Hx) as [[_ ->]|[[Hc ->]|[Hc [->| ->]]]];
      (split; [assumption|]); auto using cmp_swap.
    - left. apply cmp_swap in Hc. exact Hc.
    - right. apply cmp_swap in Hc. exact Hc. }
  destruct Hm as [Hmn Hm].
  destruct (max_cases lo _ Hlo Hmn) as [[Hc ->]|[[Hc ->]|[Hc [->| ->]]]]; auto.
Qed.

(** Inside a proper interval the clamp is the identity, up to the sign of
    a zero at an end. *)
Lemma clamp_strictly_inside lo hi x :
  PrimFloat.ltb lo x = true -> PrimFloat.ltb x hi = true ->
  Float64.max lo (Float64.min hi x) = x.
Proof.
  intros H1 H2. rewrite ltb_cmp in H1, H2.
  destruct (cmp_some _ _ _ H1) as [Hlo Hx].
  destruct (cmp_some _ _ _ H2) as [_ Hhi].
  assert (Hm : Float64.min hi x = x).
  { apply cmp_swap in H2. simpl in H2.
    destruct (min_cases hi x Hhi Hx) as [[Hc _]|[[_ ->]|[Hc _]]]; congruence. }
  rewrite Hm.
  destruct (max_cases lo x Hlo Hx) as [[_ ->]|[[Hc _]|[Hc _]]]; congruence.
Qed.


(** *** Infinities and NaN *)

Lemma Prim2SF_constants :
  Prim2SF PrimFloat.infinity = S754_infinity false
  /\ Prim2SF PrimFloat.neg_infinity = S754_infinity true
  /\ Prim2SF PrimFloat.nan = S754_nan
  /\ Prim2SF PrimFloat.zero = S754_zero false.
Proof. repeat split; vm_compute; reflexivity. Qed.

Lemma positive_finite_spec (r : float) :
  PrimFloat.ltb PrimFloat.zero r = true -> PrimFloat.ltb r PrimFloat.infinity = true ->
  exists m e, Prim2SF r = S754_finite false m e.
Proof.
  rewrite !FloatAxioms.ltb_spec. destruct Prim2SF_constants as (-> & _ & _ & ->).
  unfold SFltb. destruct (Prim2SF r) as [s|s| |s m e]; simpl; try discriminate.
  - destruct s; discriminate.
  - destruct s; try discriminate. eauto.
Qed.

Lemma div_positive_by_zero (r : float) :
  PrimFloat.ltb PrimFloat.zero r = true -> PrimFloat.ltb r PrimFloat.infinity = true ->
  PrimFloat.div r PrimFloat.zero = PrimFloat.infinity.
Proof.
  intros H0 H1. destruct (positive_finite_spec r H0 H1) as (m & e & Hr).
  apply Prim2SF_inj. rewrite div_spec, Hr.
  destruct Prim2SF_constants as (-> & _ & _ & ->). reflexivity.
Qed.

Lemma sub_from_infinity (x : float) :
  PrimFloat.sub PrimFloat.infinity x = PrimFloat.infinity
  \/ PrimFloat.sub PrimFloat.infinity x = PrimFloat.nan.
Proof.
  destruct Prim2SF_constants as (Hi & _ & Hn & _).
  destruct (Prim2SF x) as [s|s| |s m e] eqn:Hx.
  - left. apply Prim2SF_inj. rewrite sub_spec, Hi, Hx. reflexivity.
  - destruct s; [left|right]; apply Prim2SF_inj; rewrite sub_spec, Hi, Hx, ?Hn; reflexivity.
  - right. apply Prim2SF_inj. rewrite sub_spec, Hi, Hx, ?Hn; reflexivity.
  - left. apply Prim2SF_inj. rewrite sub_spec, Hi, Hx. reflexivity.
Qed.

Lemma add_infinity (x : float) :
  PrimFloat.add x PrimFloat.infinity = PrimFloat.infinity
  \/ PrimFloat.add x PrimFloat.infinity = PrimFloat.nan.
Proof.
  destruct Prim2SF_constants as (Hi & _ & Hn & _).
  destruct (Prim2SF x) as [s|s| |s m e] eqn:Hx.
  - left. apply Prim2SF_inj. rewrite add_spec, Hi, Hx. reflexivity.
  - destruct s; [right|left]; apply Prim2SF_inj; rewrite add_spec, Hi, Hx, ?Hn; reflexivity.
  - right. apply Prim2SF_inj. rewrite add_spec, Hi, Hx, ?Hn; reflexivity.
  - left. apply Prim2SF_inj. rewrite add_spec, Hi, Hx. reflexivity.
Qed.

Lemma add_nan (x : float) : PrimFloat.add x PrimFloat.nan = PrimFloat.nan.
Proof.
  destruct Prim2SF_constants as (_ & _ & Hn & _).
  apply Prim2SF_inj. rewrite add_spec, Hn. destruct (Prim2SF x); reflexivity.
Qed.

Lemma sub_nan (x : float) : PrimFloat.sub PrimFloat.nan x = PrimFloat.nan.
Proof.
  destruct Prim2SF_constants as (_ & _ & Hn & _).
  apply Prim2SF_inj. rewrite sub_spec, Hn. reflexivity.
Qed.

End Binary64Order.

(** *** The program on binary64 *)

Section Binary64Facts.

Implicit Types (p q : @Page float) (b : @Bounds float).

Lemma is_finite_not_nan (x : float) : PrimFloat.is_finite x = true -> PrimFloat.is_nan x = false.
Proof. unfold PrimFloat.is_finite. destruct (PrimFloat.is_nan x); simpl; congruence. Qed.

(** The clamp to the rectangle of a container of width zero. *)
Lemma clamp_to_infinity (v : float) :
  Float64.max PrimFloat.infinity (Float64.min PrimFloat.neg_infinity v) = PrimFloat.infinity
  \/ Float64.max PrimFloat.infinity (Float64.min PrimFloat.neg_infinity v) = PrimFloat.nan.
Proof.
  destruct (PrimFloat.is_nan v) eqn:Hv.
  - right. unfold Float64.min. rewrite Hv, orb_true_r. reflexivity.
  - left. apply clamp_degenerate; [reflexivity|exact Hv].
Qed.

Lemma smoothed_non_finite (x t alpha : float) :
  t = PrimFloat.infinity \/ t = PrimFloat.nan ->
  alpha = smoothingFactor \/ alpha = touchSmoothingFactor ->
  smoothed x t alpha = PrimFloat.infinity \/ smoothed x t alpha = PrimFloat.nan.
Proof.
  intros Ht Ha. unfold smoothed. simpl.
  assert (Hs : PrimFloat.sub t x = PrimFloat.infinity \/ PrimFloat.sub t x = PrimFloat.nan).
  { destruct Ht as [->| ->]; [apply sub_from_infinity|right; apply sub_nan]. }
  assert (Hm : PrimFloat.mul (PrimFloat.sub t x) alpha = PrimFloat.infinity
               \/ PrimFloat.mul (PrimFloat.sub t x) alpha = PrimFloat.nan).
  { destruct Hs as [->| ->], Ha as [->| ->]; auto. }
  destruct Hm as [->| ->]; [apply add_infinity|right; apply add_nan].
Qed.

Lemma computeBounds_zero_width (h r : float) :
  PrimFloat.ltb PrimFloat.zero r = true -> PrimFloat.ltb r PrimFloat.infinity = true ->
  minX (computeBounds (mkContainer PrimFloat.zero h) r) = PrimFloat.infinity
  /\ maxX (computeBounds (mkContainer PrimFloat.zero h) r) = PrimFloat.neg_infinity.
Proof.
  intros H0 H1. unfold computeBounds. simpl.
  rewrite (div_positive_by_zero r H0 H1). split; reflexivity.
Qed.

Lemma computeBounds_zero_height (w r : float) :
  PrimFloat.ltb PrimFloat.zero r = true -> PrimFloat.ltb r PrimFloat.infinity = true ->
  minY (computeBounds (mkContainer w PrimFloat.zero) r) = PrimFloat.infinity
  /\ maxY (computeBounds (mkContainer w PrimFloat.zero) r) = PrimFloat.neg_infinity.
Proof.
  intros H0 H1. unfold computeBounds. simpl.
  rewrite (div_positive_by_zero r H0 H1).
  destruct (PrimFloat.ltb w _); split; reflexivity.
Qed.

Lemma non_finite (t : float) :
  t = PrimFloat.infinity \/ t = PrimFloat.nan -> PrimFloat.is_finite t = false.
Proof. intros [-> | ->]; reflexivity. Qed.

(** With bounds [+infinity] and [-infinity] on an axis, whatever moves
    the position makes it non-finite on that axis. *)
Lemma x_not_finite (e : @Event float) p :
  inputEvent e -> cacheValid p ->
  minX (currentBounds p) = PrimFloat.infinity ->
  maxX (currentBounds p) = PrimFloat.neg_infinity ->
  intent e p <> Still ->
  PrimFloat.is_finite (state_x (handle e p)) = false.
Proof.
  intros Hi Hv Hlo Hhi Hs.
  pose proof (handle_intent e p Hi) as Hm.
  pose proof (intent_smoothing e p) as Ha.
  rewrite <- (usedBounds_valid p Hv) in Hlo, Hhi.
  destruct (intent e p) as [|tx ty|tx ty a]; [congruence| |];
    destruct Hm as (_ & -> & _); unfold clampTo; simpl; rewrite Hlo, Hhi.
  - apply non_finite, clamp_to_infinity.
  - apply non_finite, smoothed_non_finite; [apply clamp_to_infinity|eauto].
Qed.

Lemma y_not_finite (e : @Event float) p :
  inputEvent e -> cacheValid p ->
  minY (currentBounds p) = PrimFloat.infinity ->
  maxY (currentBounds p) = PrimFloat.neg_infinity ->
  intent e p <> Still ->
  PrimFloat.is_finite (state_y (handle e p)) = false.
Proof.
  intros Hi Hv Hlo Hhi Hs.
  pose proof (handle_intent e p Hi) as Hm.
  pose proof (intent_smoothing e p) as Ha.
  rewrite <- (usedBounds_valid p Hv) in Hlo, Hhi.
  destruct (intent e p) as [|tx ty|tx ty a]; [congruence| |];
    destruct Hm as (_ & _ & ->); unfold clampTo; simpl; rewrite Hlo, Hhi.
  - apply non_finite, clamp_to_infinity.
  - apply non_finite, smoothed_non_finite; [apply clamp_to_infinity|eauto].
Qed.

Lemma num_le_leb (a b : float) : num_le a b = PrimFloat.leb a b.
Proof.
  unfold num_le. simpl.
  rewrite FloatAxioms.ltb_spec, FloatAxioms.eqb_spec, FloatAxioms.leb_spec.
  unfold SFltb, SFeqb, SFleb. destruct (SFcompare _ _) as [[]|]; reflexivity.
Qed.

(** On binary64, an update that sets the position to the clamp of a target
    that is not NaN (a touch-start sample, a keyboard tick) lands in the
    rectangle, when the rectangle is not empty. *)
Lemma direct_update_contained (e : @Event float) p (targetX targetY : float) :
  inputEvent e -> cacheValid p ->
  nonDegenerate (currentBounds p) = true ->
  intent e p = Direct targetX targetY ->
  PrimFloat.is_nan targetX = false -> PrimFloat.is_nan targetY = false ->
  contained (handle e p).
Proof.
  intros Hi Hv Hn He Hx Hy.
  pose proof (handle_intent e p Hi) as Hm. rewrite He in Hm.
  unfold contained. rewrite (currentBounds_moved _ _ _ Hm).
  destruct Hm as (_ & -> & ->). rewrite (usedBounds_valid p Hv).
  revert Hn. unfold nonDegenerate, inRectangle, clampTo. simpl fst. simpl snd.
  rewrite !num_le_leb, !andb_true_iff. intros [Hnx Hny].
  destruct (clamp_within _ _ targetX Hnx Hx) as [X0 X1].
  destruct (clamp_within _ _ targetY Hny Hy) as [Y0 Y1].
  simpl. auto.
Qed.

(** C3, as the code has it.  There is no guard: in a container of width
    zero (and a positive finite radius) the bounds on x are [+infinity] and
    [-infinity], and every processed pointer or touch sample, and every
    keyboard tick that moves, stores [Infinity] or [NaN] in [state.x]; the
    same on y in a container of height zero. *)
Theorem C3_zero_sized_container_stores_non_finite
    p (clientX clientY currentTime : float) :
  isLoaded (AppState p) = true ->
  cacheValid p ->
  PrimFloat.ltb PrimFloat.zero (state_radius p) = true ->
  PrimFloat.ltb (state_radius p) PrimFloat.infinity = true ->
  let moves :=
    let d := keyboardDelta (keysPressed p) (tickSpeed (currentTime - lastFrameTime p)%num p) in
    loopRuns p && ((fst d !== int 0) || (snd d !== int 0))%num in
  (width p = PrimFloat.zero ->
     minX (currentBounds p) = PrimFloat.infinity
     /\ maxX (currentBounds p) = PrimFloat.neg_infinity
     /\ PrimFloat.is_finite (state_x (handle (MouseMove clientX clientY) p)) = false
     /\ PrimFloat.is_finite (state_x (handle (TouchStart (Some (clientX, clientY))) p)) = false
     /\ (input_touchActive (input (AppState p)) = true ->
         PrimFloat.is_finite (state_x (handle (TouchMove (Some (clientX, clientY))) p)) = false)
     /\ (moves = true ->
         PrimFloat.is_finite (state_x (handle (AnimationFrame currentTime) p)) = false))
  /\ (height p = PrimFloat.zero ->
     minY (currentBounds p) = PrimFloat.infinity
     /\ maxY (currentBounds p) = PrimFloat.neg_infinity
     /\ PrimFloat.is_finite (state_y (handle (MouseMove clientX clientY) p)) = false
     /\ PrimFloat.is_finite (state_y (handle (TouchStart (Some (clientX, clientY))) p)) = false
     /\ (input_touchActive (input (AppState p)) = true ->
         PrimFloat.is_finite (state_y (handle (TouchMove (Some (clientX, clientY))) p)) = false)
     /\ (moves = true ->
         PrimFloat.is_finite (state_y (handle (AnimationFrame currentTime) p)) = false)).
Proof.
  intros Hl Hv H0 H1 moves.
  assert (Hmm : intent (MouseMove clientX clientY) p <> Still)
    by (simpl; rewrite Hl; discriminate).
  assert (Hts : intent (TouchStart (Some (clientX, clientY))) p <> Still)
    by (simpl; rewrite Hl; discriminate).
  assert (Htm : input_touchActive (input (AppState p)) = true ->
                intent (TouchMove (Some (clientX, clientY))) p <> Still)
    by (intros Ht; simpl; rewrite Hl, Ht; discriminate).
  assert (Haf : moves = true -> intent (AnimationFrame currentTime) p <> Still).
  { unfold moves. rewrite andb_true_iff. intros [Hr Hd]. simpl. rewrite Hr.
    simpl in Hd. rewrite Hd. discriminate. }
  split; intros Hz.
  - assert (Hb : minX (currentBounds p) = PrimFloat.infinity
                 /\ maxX (currentBounds p) = PrimFloat.neg_infinity).
    { unfold currentBounds. unfold width in Hz.
      destruct (container (AppState p)) as [w h]. simpl in Hz. subst w.
      apply computeBounds_zero_width; assumption. }
    destruct Hb as [Hlo Hhi].
    repeat split; try assumption; intros;
      apply x_not_finite; simpl; auto.
  - assert (Hb : minY (currentBounds p) = PrimFloat.infinity
                 /\ maxY (currentBounds p) = PrimFloat.neg_infinity).
    { unfold currentBounds. unfold height in Hz.
      destruct (container (AppState p)) as [w h]. simpl in Hz. subst h.
      apply computeBounds_zero_height; assumption. }
    destruct Hb as [Hlo Hhi].
    repeat split; try assumption; intros;
      apply y_not_finite; simpl; auto.
Qed.

(** C2, as the code has it.  When the bounds of an axis cross
    ([max < min]), the clamp sends every position on that axis that is not
    NaN to the lower bound [min = radius / size + padding]: the clamped
    target is constant, and nothing throws.  In exact arithmetic that lower
    bound is above the midpoint 1/2. *)
Theorem C2_crossed_bounds_clamp_to_the_lower_bound p (x y : float) :
  cacheValid p ->
  let b := currentBounds p in
  (PrimFloat.ltb (maxX b) (minX b) = true -> PrimFloat.is_nan x = false ->
     fst (fst (applyBoundaryConstraints x y p)) = minX b)
  /\ (PrimFloat.ltb (maxY b) (minY b) = true -> PrimFloat.is_nan y = false ->
     snd (fst (applyBoundaryConstraints x y p)) = minY b)
  /\ (forall (c : @Container R) (r : R),
        let e := computeBounds c r in
        ((maxX e < minX e)%R -> (1 / 2 < minX e)%R)
        /\ ((maxY e < minY e)%R -> (1 / 2 < minY e)%R)).
Proof.
  intros Hv b. rewrite applyBoundaryConstraints_eq, (usedBounds_valid p Hv).
  fold b. unfold clampTo. simpl.
  split; [|split]; try (intros Hd Hn; apply clamp_degenerate; assumption).
  intros c r. unfold computeBounds, boundaryPadding, int, dec. simpl.
  unfold Exact.lit.
  generalize (r / container_width c)%R (r / container_height c)%R. intros rx ry.
  destruct (Exact.ltb _ _); simpl; split; lra.
Qed.

(** C10.  [setViewportPosition(nx, ny)] sets the position to
    [(max(0, min(1, nx)), max(0, min(1, ny)))] for all finite [nx], [ny]:
    a point of the unit square, [nx] itself when [0 < nx < 1], found without
    looking at the allowed rectangle, which it can leave. *)
Theorem C10_setViewportPosition_clamps_to_the_unit_square p (nx ny : float) :
  PrimFloat.is_finite nx = true ->
  PrimFloat.is_finite ny = true ->
  let q := setViewportPosition nx ny p in
  state_x q = Float64.max (int 0) (Float64.min (int 1) nx)
  /\ state_y q = Float64.max (int 0) (Float64.min (int 1) ny)
  /\ PrimFloat.leb (int 0) (state_x q) = true /\ PrimFloat.leb (state_x q) (int 1) = true
  /\ PrimFloat.leb (int 0) (state_y q) = true /\ PrimFloat.leb (state_y q) (int 1) = true
  /\ (PrimFloat.ltb (int 0) nx = true -> PrimFloat.ltb nx (int 1) = true -> state_x q = nx)
  /\ (PrimFloat.ltb (int 0) ny = true -> PrimFloat.ltb ny (int 1) = true -> state_y q = ny)
  /\ core q = core p
  /\ (let p0 : @Page float := loaded (int 1000) (int 800) in
      let q0 := setViewportPosition (int 0) (int 0) p0 in
      inRectangle (currentBounds p0) (state_x p0) (state_y p0) = true
      /\ currentBounds q0 = currentBounds p0
      /\ inRectangle (currentBounds q0) (state_x q0) (state_y q0) = false
      /\ inRectangle (mkBounds (int 0) (int 1) (int 0) (int 1)) (state_x q0) (state_y q0)
         = true).
Proof.
  intros Hx Hy q.
  apply is_finite_not_nan in Hx, Hy.
  assert (H01 : PrimFloat.leb (int 0) (int 1) = true) by reflexivity.
  pose proof (clamp_within (int 0) (int 1) nx H01 Hx) as [Hx0 Hx1].
  pose proof (clamp_within (int 0) (int 1) ny H01 Hy) as [Hy0 Hy1].
  change (state_x q) with (Float64.max (int 0) (Float64.min (int 1) nx)).
  change (state_y q) with (Float64.max (int 0) (Float64.min (int 1) ny)).
  repeat split; try assumption; try (apply clamp_strictly_inside).
  all: vm_compute; reflexivity.
Qed.

End Binary64Facts.

(** ** Runs of the script on binary64 *)

Section Binary64Runs.

Local Abbreviation page := (@Page float).

(** The page in a window of [w] by [h] pixels. *)
Local Abbreviation window w h := (loaded (int w) (int h) : page).

(** The claim of C1 fails where the rectangle is empty: in a window 100
    pixels wide the radius is 60, so [minX] = 0.61 and [maxX] = 0.39, and a
    touch leaves [x] at 0.61, above [maxX]. *)
Lemma C1_counterexample_narrow_window :
  let p := run [TouchStart (Some (int 50, int 400))] (window 100 800) in
  inputEvent (TouchStart (Some (int 50 : float, int 400 : float)))
  /\ state_x p = minX (currentBounds p)
  /\ PrimFloat.ltb (maxX (currentBounds p)) (state_x p) = true
  /\ ~ contained p.
Proof.
  split; [exact I|]. split; [vm_compute; reflexivity|].
  split; [vm_compute; reflexivity|].
  unfold contained. vm_compute. discriminate.
Qed.

(** The claim of C1 fails before the self-test timer fires too.  In a
    window of 124 by 800 pixels the rectangle is not empty, [x] ranging over
    about [0.494, 0.506]; the page is loaded with the position at
    (0.51, 0.51), a mouse move to the middle of the window is processed and
    leaves [x] at 0.5085, and only the timer brings the position back in. *)
Example self_test_nudge_in_a_window_of_124_by_800 :
  let p0 := initialized (int 124) (int 800) : page in
  let p1 := handle (MouseMove (int 62) (int 400)) p0 in
  let p2 := handle TestViewportMaskTimeout p1 in
  isLoaded (AppState p0) = true
  /\ nonDegenerate (currentBounds p0) = true
  /\ (state_x p0, state_y p0) = (dec 51 100, dec 51 100)
  /\ PrimFloat.ltb (maxX (currentBounds p0)) (state_x p0) = true
  /\ ~ contained p0
  /\ PrimFloat.ltb (maxX (currentBounds p1)) (state_x p1) = true
  /\ ~ contained p1
  /\ (state_x p2, state_y p2) = (dec 5 10, dec 5 10)
  /\ contained p2.
Proof.
  unfold contained. vm_compute.
  repeat split; try reflexivity; discriminate.
Qed.

(** In a window of 1000 by 125 pixels the only [y] allowed is 0.5. *)
Example self_test_nudge_in_a_window_of_1000_by_125 :
  let p0 := initialized (int 1000) (int 125) : page in
  let p1 := handle (MouseMove (int 500) (int 62)) p0 in
  nonDegenerate (currentBounds p0) = true
  /\ PrimFloat.ltb (maxY (currentBounds p1)) (state_y p1) = true
  /\ ~ contained p1
  /\ contained (handle TestViewportMaskTimeout p1).
Proof.
  unfold contained. vm_compute.
  repeat split; try reflexivity; discriminate.
Qed.
(** A resize recomputes the radius and publishes the position, and leaves
    the position where it was: from a window of 2000 by 1000 with [x] at its
    lower bound 0.06 to one of 400 by 800, whose lower bound is 0.16, the
    render sink gets the centre 24 pixels from the edge, with radius 60. *)
Example resize_keeps_the_position :
  let p := run [TouchStart (Some (int 0, int 500))] (window 2000 1000) in
  let q := handle (Resize (int 400) (int 800)) p in
  contained p
  /\ state_x q = state_x p
  /\ PrimFloat.ltb (state_x q) (minX (currentBounds q)) = true
  /\ rendered q = Some (mkRendered (int 24) (int 400) (int 60)).
Proof.
  unfold contained. vm_compute. repeat split; reflexivity.
Qed.

(** The claim of C2 fails: with [maxX < minX] the clamp gives [minX], 0.61
    here, and not the midpoint 0.5. *)
Lemma C2_counterexample_not_the_midpoint :
  let p := window 100 800 in
  let clamped := fst (applyBoundaryConstraints (dec 3 10) (dec 5 10) p) in
  PrimFloat.ltb (maxX (currentBounds p)) (minX (currentBounds p)) = true
  /\ fst clamped = minX (currentBounds p)
  /\ PrimFloat.ltb (dec 6 10) (fst clamped) = true
  /\ PrimFloat.eqb (fst clamped) (dec 5 10) = false.
Proof. vm_compute. repeat split; reflexivity. Qed.

(** The claim of C3 fails: in a container of width zero a pointer sample
    stores [Infinity] in [state.x]. *)
Lemma C3_counterexample_zero_width :
  let p := window 0 800 in
  let q := handle (MouseMove (int 10) (int 10)) p in
  PrimFloat.is_finite (state_x p) = true
  /\ state_x q = PrimFloat.infinity
  /\ PrimFloat.is_finite (state_x q) = false.
Proof. vm_compute. repeat split; reflexivity. Qed.

(** The claim of C4 fails on a touch-start sample: the position jumps to
    the clamped target (0.8, 0.2) instead of moving 0.4 of the way, to 0.62. *)
Lemma C4_counterexample_touch_start :
  let p := window 1000 800 in
  let q := handle (TouchStart (Some (int 800, int 160))) p in
  let clamped := target (int 800) (int 160) p in
  input_touchActive (input (AppState q)) = true
  /\ clamped = (dec 8 10, dec 2 10)
  /\ state_x q = dec 8 10
  /\ smoothed (state_x p) (fst clamped) (dec 4 10) = dec 62 100
  /\ PrimFloat.eqb (state_x q) (smoothed (state_x p) (fst clamped) (dec 4 10)) = false.
Proof. vm_compute. repeat split; reflexivity. Qed.

(** The claim of C5 fails: the script divides the elapsed time by 16.67
    and not by 1000/60.  After 50 ms with [arrowleft] held in a window 1000
    pixels wide, [x] has moved by 0.002 * (50 / 16.67), more than a
    millionth short of 0.002 * (50 / (1000 / 60)); no clamp is involved. *)
Lemma C5_counterexample_frame_constant :
  let p := run [KeyDown "ArrowLeft" (int 0)] (window 1000 800) in
  let q := handle (AnimationFrame (int 50)) p in
  let claimed := (int (-1) * dec 2 1000 * (int 50 / (int 1000 / int 60)))%num in
  loopRuns p = true
  /\ inRectangle (currentBounds p) (state_x p + claimed)%num (state_y p) = true
  /\ state_x q = (state_x p + (int 0 - dec 2 1000 * (int 50 / dec 1667 100)))%num
  /\ PrimFloat.ltb (dec 1 1000000) (state_x q - (state_x p + claimed))%num = true.
Proof. vm_compute. repeat split; reflexivity. Qed.

(** The scenario of C5 on binary64: one tick of 16.67 ms with [arrowleft]
    held asks for exactly -0.002, and [x] goes from 0.5 to 0.498. *)
Example arrowleft_for_one_tick :
  let p := run [KeyDown "ArrowLeft" (int 0)] (window 1000 800) in
  let q := handle (AnimationFrame (dec 1667 100)) p in
  keyboardDelta (keysPressed p) (tickSpeed (dec 1667 100 - lastFrameTime p)%num p)
  = (PrimFloat.opp (dec 2 1000), int 0)
  /\ state_x p = dec 5 10
  /\ state_x q = dec 498 1000.
Proof. vm_compute. repeat split; reflexivity. Qed.

(** C6: what the script does.  A mouse-move sample lowers the flag
    [keyboardActive], which nothing reads, and leaves the keyboard loop as it
    is, and so does a touch-start sample: if the loop was running it goes on.
    With [arrowleft] held, the tick after the sample still moves [x] and
    reschedules itself. *)
Theorem C6_keyboard_loop_survives_a_pointer_sample :
  (forall (p : page) (clientX clientY : float),
      loopRuns (handle (MouseMove clientX clientY) p) = loopRuns p
      /\ loopRuns (handle (TouchStart (Some (clientX, clientY))) p) = loopRuns p)
  /\ (let p1 := run [KeyDown "ArrowLeft" (int 0); AnimationFrame (dec 1667 100)]
                    (window 1000 800) in
      let p2 := handle (MouseMove (int 500) (int 400)) p1 in
      let p3 := handle (AnimationFrame (dec 3334 100)) p2 in
      let t2 := handle (TouchStart (Some (int 500, int 400))) p1 in
      let t3 := handle (AnimationFrame (dec 3334 100)) t2 in
      loopRuns p1 = true
      /\ input_keyboardActive (input (AppState p2)) = false
      /\ input_isMouseActive (input (AppState p2)) = true
      /\ loopRuns p2 = true
      /\ PrimFloat.ltb (state_x p3) (state_x p2) = true
      /\ loopRuns p3 = true
      /\ input_keyboardActive (input (AppState t2)) = false
      /\ loopRuns t2 = true
      /\ PrimFloat.ltb (state_x t3) (state_x t2) = true
      /\ loopRuns t3 = true).
Proof.
  split; [intros p cx cy; apply pointer_sample_keeps_the_loop|].
  vm_compute. repeat split; reflexivity.
Qed.

(** The claim of C7 fails: a resize to the size the window already has
    changes the radius from 80 to 140 (the device class, first computed
    while the container was 0 by 0, is now computed from the window), and
    the clamp goes on using the bounds cached for the radius 80. *)
Lemma C7_counterexample_radius_changes_alone :
  let p := run [MouseMove (int 0) (int 0)] (window 1200 900) in
  let q := handle (Resize (int 1200) (int 900)) p in
  container (AppState q) = container (AppState p)
  /\ state_radius p = int 80
  /\ state_radius q = int 140
  /\ cacheMiss q = false
  /\ PrimFloat.ltb (fst (fst (applyBoundaryConstraints (int 0) (int 0) q)))
                   (fst (applyBoundaryConstraints_recompute (int 0) (int 0) q)) = true.
Proof. vm_compute. repeat split; reflexivity. Qed.

(** The claim of C8 fails in its numbers: after 50 samples toward
    (0.8, 0.2) from (0.5, 0.5) the position is still more than 1e-6 away
    on both axes. *)
Lemma C8_counterexample_fifty_samples :
  let p := window 1000 800 in
  let q := run (repeat (MouseMove (int 800) (int 160)) 50) p in
  target (int 800) (int 160) p = (dec 8 10, dec 2 10)
  /\ (state_x p, state_y p) = (dec 5 10, dec 5 10)
  /\ PrimFloat.ltb (dec 1 1000000) (dec 8 10 - state_x q)%num = true
  /\ PrimFloat.ltb (dec 1 1000000) (state_y q - dec 2 10)%num = true.
Proof. vm_compute. repeat split; reflexivity. Qed.

(** On binary64 too, 78 samples bring the position within 1e-6. *)
Example seventy_eight_samples :
  let q := run (repeat (MouseMove (int 800) (int 160)) 78) (window 1000 800) in
  PrimFloat.ltb (PrimFloat.abs (state_x q - dec 8 10)%num) (dec 1 1000000) = true
  /\ PrimFloat.ltb (PrimFloat.abs (state_y q - dec 2 10)%num) (dec 1 1000000) = true.
Proof. vm_compute. repeat split; reflexivity. Qed.

(** The diagonal of C9 on binary64, for one tick of 16.67 ms. *)
Example diagonal_tick :
  let p := window 1000 800 in
  let speed := tickSpeed (dec 1667 100) p in
  let both := keyboardDelta {[ "arrowleft"; "arrowup" ]} speed in
  let one := keyboardDelta {[ "arrowleft" ]} speed in
  PrimFloat.ltb (PrimFloat.abs (magnitude both - magnitude one)%num)
                (dec 1 1000000000000000) = true.
Proof. vm_compute. reflexivity. Qed.

(** A tick in the middle of the window, where the clamp changes nothing:
    the viewport moves as far with [arrowleft] and [arrowup] held as with
    [arrowup] alone. *)
Example diagonal_tick_in_the_middle :
  let both := run [KeyDown "ArrowLeft" (int 0); KeyDown "ArrowUp" (int 0)] (window 1000 800) in
  let one := run [KeyDown "ArrowUp" (int 0)] (window 1000 800) in
  let afterBoth := handle (AnimationFrame (dec 1667 100)) both in
  let afterOne := handle (AnimationFrame (dec 1667 100)) one in
  PrimFloat.ltb (state_x afterBoth) (state_x both) = true
  /\ PrimFloat.ltb (state_y afterBoth) (state_y both) = true
  /\ state_x afterOne = state_x one
  /\ PrimFloat.ltb (PrimFloat.abs (magnitude (displacement both afterBoth)
                                   - magnitude (displacement one afterOne))%num)
                   (dec 1 1000000000000000) = true.
Proof. vm_compute. repeat split; reflexivity. Qed.

(** The claim of C9 fails at an edge.  With [x] at its lower bound 0.1, a
    tick of 16.67 ms with [arrowleft] and [arrowup] held moves the viewport
    by 0.002/sqrt 2 only, upward, the clamp taking the horizontal part; the
    same tick with [arrowup] alone moves it by 0.002. *)
Lemma C9_counterexample_clamped_diagonal :
  let start := run [TouchStart (Some (int 0, int 400))] (window 1000 800) in
  let both := run [KeyDown "ArrowLeft" (int 0); KeyDown "ArrowUp" (int 0)] start in
  let one := run [KeyDown "ArrowUp" (int 0)] start in
  let afterBoth := handle (AnimationFrame (dec 1667 100)) both in
  let afterOne := handle (AnimationFrame (dec 1667 100)) one in
  (loopRuns both = true /\ loopRuns one = true)
  /\ (diagonalKeys (keysPressed both) = true /\ singleKey (keysPressed one) = true)
  /\ tickSpeed (dec 1667 100 - lastFrameTime both)%num both
     = tickSpeed (dec 1667 100 - lastFrameTime one)%num one
  /\ (contained both /\ contained one)
  /\ state_x both = minX (currentBounds both)
  /\ state_x afterBoth = state_x both
  /\ PrimFloat.ltb (magnitude (displacement both afterBoth)) (dec 15 10000) = true
  /\ PrimFloat.ltb (dec 19 10000) (magnitude (displacement one afterOne)) = true.
Proof. unfold contained. vm_compute. repeat split; reflexivity. Qed.

End Binary64Runs.

(** ** The theorems at concrete inputs *)

Section Witnesses.

Local Open Scope R_scope.

Lemma C1_witness :
  (0 < 1000 /\ 0 < 800
   /\ nonDegenerate (currentBounds (initialized 1000 800 : @Page R)) = true)
  /\ contained
       (run (take 3 [MouseMove 800 160; TestViewportMaskTimeout; KeyDown "ArrowLeft" 0;
                     AnimationFrame 20])
            (initialized 1000 800 : @Page R)).
Proof.
  assert (Hn : nonDegenerate (currentBounds (initialized 1000 800 : @Page R)) = true).
  { change (currentBounds (initialized 1000 800 : @Page R))
      with (currentBounds (loaded 1000 800 : @Page R)).
    rewrite nonDegenerate_iff. unfold currentBounds.
    rewrite loaded_1000_800_radius, loaded_container. rcompute. lra. }
  split; [repeat split; [lra|lra|exact Hn]|].
  assert (H0 : 0 < 1000) by lra.
  assert (H1 : 0 < 800) by lra.
  assert (He : Forall (@fixedWindowEvent R)
                 [MouseMove 800 160; TestViewportMaskTimeout; KeyDown "ArrowLeft" 0;
                  AnimationFrame 20]) by (repeat constructor).
  exact (proj1 (C1_contained_while_the_container_is_fixed 1000 800 _ 3 H0 H1 Hn He) eq_refl).
Defined.

Lemma C5_witness :
  let p := run [KeyDown "ArrowLeft" 0] (loaded 1000 800 : @Page R) in
  (0 < width p /\ 0 < height p /\ loopRuns p = true)
  /\ (768 <= width p -> getKeyboardMoveSpeed p = 2 / 1000).
Proof.
  intros p.
  assert (Hw : 0 < width p) by (lazy; lra).
  assert (Hh : 0 < height p) by (lazy; lra).
  assert (Hrun : loopRuns p = true) by (lazy; reflexivity).
  split; [repeat split; assumption|].
  exact (proj2 (proj2 (proj1 (C5_keyboard_tick_displacement p 50 Hw Hh Hrun)))).
Defined.

Lemma C8_witness :
  let p := loaded 1000 800 : @Page R in
  state_x (run (repeat (MouseMove 800 160) 50) p) - fst (target 800 160 p)
  = (state_x p - fst (target 800 160 p)) * (85 / 100) ^ 50.
Proof.
  intros p.
  assert (Hw : 0 < width p) by (unfold width, p; rewrite loaded_container; simpl; lra).
  assert (Hh : 0 < height p) by (unfold height, p; rewrite loaded_container; simpl; lra).
  exact (proj1 (proj1 (proj1 C8_smoothing_converges_geometrically p 800 160 Hw Hh
                         (proj1 (loaded_flags (1000 : R) 800))
                         (proj2 (loaded_flags (1000 : R) 800))) 50%nat)).
Defined.

Lemma C9_witness :
  let both := run [KeyDown "ArrowLeft" 0; KeyDown "ArrowUp" 0] (loaded 1000 800 : @Page R) in
  let one := run [KeyDown "ArrowUp" 0] (loaded 1000 800 : @Page R) in
  let speed := tickSpeed (1667 / 100 - lastFrameTime both) both in
  magnitude (keyboardDelta (keysPressed both) speed)
  = magnitude (keyboardDelta (keysPressed one) speed).
Proof.
  intros both one speed.
  assert (Rb : loopRuns both = true) by (vm_compute; reflexivity).
  assert (Ro : loopRuns one = true) by (vm_compute; reflexivity).
  assert (Hb : diagonalKeys (keysPressed both) = true) by (vm_compute; reflexivity).
  assert (Ho : singleKey (keysPressed one) = true) by (vm_compute; reflexivity).
  assert (Hw : width both = width one) by (rcompute; reflexivity).
  assert (Ht : 1667 / 100 - lastFrameTime both = 1667 / 100 - lastFrameTime one)
    by (rcompute; reflexivity).
  pose proof (C9_diagonal_speed_is_axis_speed both one (1667 / 100) (1667 / 100)
                Rb Ro Hb Ho Hw Ht) as (_ & _ & _ & Hm & _).
  exact Hm.
Defined.
Lemma C2_witness :
  let p := loaded (int 100) (int 800) : @Page float in
  fst (fst (applyBoundaryConstraints (dec 3 10) (dec 5 10) p)) = minX (currentBounds p).
Proof.
  intros p.
  assert (Hv : cacheValid p) by exact I.
  assert (Hd : PrimFloat.ltb (maxX (currentBounds p)) (minX (currentBounds p)) = true)
    by (vm_compute; reflexivity).
  assert (Hn : PrimFloat.is_nan (dec 3 10) = false) by (vm_compute; reflexivity).
  exact (proj1 (C2_crossed_bounds_clamp_to_the_lower_bound p (dec 3 10) (dec 5 10) Hv) Hd Hn).
Defined.

Lemma C3_witness :
  let p := loaded (int 0) (int 800) : @Page float in
  PrimFloat.is_finite (state_x (handle (MouseMove (int 10) (int 10)) p)) = false.
Proof.
  intros p.
  assert (Hl : isLoaded (AppState p) = true) by reflexivity.
  assert (Hv : cacheValid p) by exact I.
  assert (H0 : PrimFloat.ltb PrimFloat.zero (state_radius p) = true)
    by (vm_compute; reflexivity).
  assert (H1 : PrimFloat.ltb (state_radius p) PrimFloat.infinity = true)
    by (vm_compute; reflexivity).
  assert (Hw : width p = PrimFloat.zero) by (vm_compute; reflexivity).
  exact (proj1 (proj2 (proj2 (proj1
           (C3_zero_sized_container_stores_non_finite p (int 10) (int 10) (int 0)
              Hl Hv H0 H1) Hw)))).
Defined.

Lemma C4_witness :
  let p := loaded (int 1000) (int 800) : @Page float in
  let q := handle (TouchStart (Some (int 800, int 160))) p in
  state_x q
  = fst (clampTo (usedBounds p) (fst (target (int 800) (int 160) p))
                 (snd (target (int 800) (int 160) p))).
Proof.
  intros p q.
  assert (Hl : isLoaded (AppState p) = true) by reflexivity.
  exact (proj1 (proj2 (proj2 (C4_pointer_sample_update p (int 800) (int 160) Hl)))).
Defined.

Lemma C7_witness :
  let p := loaded (int 1000) (int 800) : @Page float in
  let es := [MouseMove (int 800) (int 160); Resize (int 500) (int 400);
             MouseMove (int 10) (int 10)] in
  fst (applyBoundaryConstraints (int 0) (int 1) (run es p))
  = applyBoundaryConstraints_recompute (int 0) (int 1) (run es p).
Proof.
  intros p es.
  assert (Hv : cacheValid p) by exact I.
  assert (Hk : keyedRun es p).
  { split; [exact I|]. split; [left; vm_compute; reflexivity|].
    split; [exact I|exact I]. }
  exact (proj1 (C7_cache_keyed_on_container_size p es (int 0) (int 1) Hv Hk)).
Defined.

Lemma C10_witness :
  let q := setViewportPosition (dec 3 10) (dec 15 10) (loaded (int 1000) (int 800) : @Page float) in
  state_x q = dec 3 10 /\ state_y q = int 1.
Proof.
  intros q.
  assert (Hx : PrimFloat.is_finite (dec 3 10) = true) by (vm_compute; reflexivity).
  assert (Hy : PrimFloat.is_finite (dec 15 10) = true) by (vm_compute; reflexivity).
  pose proof (C10_setViewportPosition_clamps_to_the_unit_square
                (loaded (int 1000) (int 800)) (dec 3 10) (dec 15 10) Hx Hy)
    as (Ex & Ey & _).
  unfold q. split; [rewrite Ex|rewrite Ey]; vm_compute; reflexivity.
Defined.

End Witnesses.

(** * More of the script *)

(** ** Invariants of the runs, whatever the numbers are *)

Section RunInvariants.

Context {num : Type} {number : JSNumber num}.
Implicit Types (p q : @Page num) (e : @Event num).

(** What every handler preserves holds after every run. *)
Lemma run_invariant (P : @Page num -> Prop) es p :
  (forall e q, P q -> P (handle e q)) -> P p -> P (run es p).
Proof.
  intros Hstep. revert p. induction es as [|e es IH]; intros p Hp; [exact Hp|].
  rewrite run_cons. apply IH, Hstep, Hp.
Qed.

(** *** What the handlers leave alone *)

Lemma handleTouchMove_frame touch p :
  let q := handleTouchMove touch p in
  isLoaded (AppState q) = isLoaded (AppState p)
  /\ input_isMouseActive (input (AppState q)) = input_isMouseActive (input (AppState p))
  /\ input_keyboardActive (input (AppState q)) = input_keyboardActive (input (AppState p))
  /\ keyboard (AppState q) = keyboard (AppState p)
  /\ keysPressed q = keysPressed p.
Proof.
  unfold handleTouchMove.
  destruct (negb _ || negb _); [simpl; auto|].
  destruct touch as [[cx cy]|]; [|simpl; auto].
  match goal with
  | |- context [mouseToViewportPosition _ _ ?p1] =>
      pose proof (pointer_frame cx cy true p1) as (Fl & Fi & Fk & Ft)
  end.
  unfold keysPressed. cbv zeta. rewrite Fl, Fi, Fk. simpl. auto.
Qed.

Lemma handleTouchStart_rest touch p :
  let q := handleTouchStart touch p in
  isLoaded (AppState q) = isLoaded (AppState p)
  /\ keyboard (AppState q) = keyboard (AppState p)
  /\ keysPressed q = keysPressed p
  /\ (input_isMouseActive (input (AppState q)) && input_keyboardActive (input (AppState q))
      = input_isMouseActive (input (AppState p)) && input_keyboardActive (input (AppState p))
      \/ input_isMouseActive (input (AppState q)) = false).
Proof.
  unfold handleTouchStart.
  destruct (isLoaded (AppState p)) eqn:Hl; simpl; [|rewrite Hl; auto].
  destruct touch as [[cx cy]|]; [|rewrite Hl; auto].
  match goal with
  | |- context [mouseToViewportPosition _ _ ?p1] =>
      pose proof (pointer_frame cx cy false p1) as (Fl & Fi & Fk & Ft)
  end.
  unfold keysPressed. rewrite Fl, Fi, Fk. simpl. auto.
Qed.

Lemma moveViewportByDelta_frame dx dy p :
  let q := moveViewportByDelta dx dy p in
  isLoaded (AppState q) = isLoaded (AppState p)
  /\ input (AppState q) = input (AppState p)
  /\ keyboard (AppState q) = keyboard (AppState p)
  /\ lastFrameTime q = lastFrameTime p.
Proof.
  unfold moveViewportByDelta. rewrite applyBoundaryConstraints_eq.
  pose proof (refreshBounds_AppState p) as H1.
  pose proof (refreshBounds_rest p) as (_ & L1 & _).
  simpl. rewrite H1, L1. auto.
Qed.

(** The keyboard and the keys after a run of [moveLoop]. *)
Lemma moveLoop_keyboard t p :
  let q := moveLoop t p in
  keysPressed q = keysPressed p
  /\ isLoaded (AppState q) = isLoaded (AppState p)
  /\ input (AppState q) = input (AppState p)
  /\ keyboard (AppState q)
     = if negb (keyboard_isMoving (keyboard (AppState p)))
          || bool_decide (size (keysPressed p) = 0%nat)
       then mkKeyboard false false
       else mkKeyboard true true.
Proof.
  unfold moveLoop.
  destruct (keyboard_isMoving (keyboard (AppState p))) eqn:Hm; simpl; [|auto].
  destruct (bool_decide (size (keysPressed p) = 0%nat)) eqn:Hs; simpl; [auto|].
  change (keysPressed (setLastFrameTime t p)) with (keysPressed p).
  destruct (keyboardDelta _ _) as [dX dY].
  destruct ((dX !== int 0) || (dY !== int 0))%num.
  - pose proof (moveViewportByDelta_frame dX dY (setLastFrameTime t p)) as (Fl & Fi & Fk & _).
    unfold keysPressed. simpl. rewrite Fl, Fi, Fk. simpl. rewrite Hm. auto.
  - simpl. rewrite Hm. auto.
Qed.

(** *** The keyboard loop *)

Lemma loopConsistent_step e p : loopConsistent p -> loopConsistent (handle e p).
Proof.
  unfold loopConsistent. intros [Ha Hk].
  destruct e as [cx cy| | |key now|key|t|touch|touch|n| |hidden|w h|w h| |nx ny]; simpl.
  - pose proof (handleMouseMove_frame cx cy p) as (_ & _ & -> & -> & _). auto.
  - auto.
  - auto.
  - unfold handleKeyDown, startKeyboardMovement.
    destruct (isLoaded (AppState p)); simpl; [|auto].
    destruct (bool_decide _); [|auto]. simpl.
    assert (Hne : size ({[toLowerCase key]} ∪ input_keysPressed (input (AppState p))) <> 0%nat).
    { intros H. apply size_empty_inv in H.
      apply (not_elem_of_empty (C := gset string) (toLowerCase key)).
      rewrite <- H. apply elem_of_union_l, elem_of_singleton. reflexivity. }
    destruct (keyboard_isMoving (keyboard (AppState p))) eqn:Hm; simpl.
    + rewrite Hm. split; [exact Ha|intros _; exact Hne].
    + split; [reflexivity|intros _; exact Hne].
  - unfold handleKeyUp.
    destruct (isLoaded (AppState p)); simpl; [|auto].
    destruct (bool_decide _) eqn:Hs; simpl.
    + split; [reflexivity|discriminate].
    + apply bool_decide_eq_false in Hs. split; [exact Ha|intros _; exact Hs].
  - destruct (keyboard_animationId (keyboard (AppState p))) eqn:Hid; [|rewrite Hid; auto].
    pose proof (moveLoop_keyboard t p) as (-> & _ & _ & ->).
    rewrite <- Ha. simpl.
    destruct (bool_decide _) eqn:Hs; simpl.
    + split; [reflexivity|discriminate].
    + apply bool_decide_eq_false in Hs. auto.
  - pose proof (handleTouchStart_rest touch p) as (_ & -> & -> & _). auto.
  - pose proof (handleTouchMove_frame touch p) as (_ & _ & _ & -> & ->). auto.
  - unfold touchEndTimeout. destruct (n =? 0)%nat; auto.
  - split; [reflexivity|discriminate].
  - destruct hidden; simpl; [split; [reflexivity|discriminate]|auto].
  - unfold handleResize. simpl. destruct (isLoaded (AppState p)); auto.
  - unfold handleOrientationChange, handleResize. simpl. destruct (isLoaded (AppState p)); auto.
  - unfold testViewportMaskTimeout. destruct (testOriginal p) as [[ox oy]|]; auto.
  - auto.
Qed.

Lemma loopConsistent_loaded (w h : num) : loopConsistent (loaded w h).
Proof. split; [reflexivity|discriminate]. Qed.

(** X1.  After start-up, whatever the events are, a [requestAnimationFrame]
    request for [moveLoop] is pending exactly while [isMoving] is set, and
    [isMoving] is set only while a key is held: a frame that finds
    [isMoving] set does run a tick of the loop. *)
Theorem keyboard_loop_is_requested_while_a_key_is_held (w h : num) (es : list (@Event num)) :
  let p := run es (loaded w h) in
  keyboard_animationId (keyboard (AppState p)) = keyboard_isMoving (keyboard (AppState p))
  /\ loopRuns p = keyboard_isMoving (keyboard (AppState p)).
Proof.
  intros p.
  assert (H : loopConsistent p)
    by (apply run_invariant; [apply loopConsistent_step|apply loopConsistent_loaded]).
  destruct H as [Ha Hk]. split; [exact Ha|].
  unfold loopRuns. rewrite Ha.
  destruct (keyboard_isMoving (keyboard (AppState p))); [|reflexivity].
  simpl. apply negb_true_iff, bool_decide_eq_false. auto.
Qed.

Lemma keys_step e p :
  (forall k, k ∈ keysPressed p -> k ∈ navigationKeys) ->
  forall k, k ∈ keysPressed (handle e p) -> k ∈ navigationKeys.
Proof.
  intros Hp k.
  destruct e as [cx cy| | |key now|key|t|touch|touch|n| |hidden|w h|w h| |nx ny]; simpl.
  - pose proof (handleMouseMove_frame cx cy p) as (_ & _ & _ & -> & _). auto.
  - auto.
  - auto.
  - unfold handleKeyDown, startKeyboardMovement.
    destruct (isLoaded (AppState p)); simpl; [|auto].
    destruct (bool_decide _) eqn:Hn; [|auto].
    apply bool_decide_eq_true in Hn.
    assert (Hin : k ∈ ({[toLowerCase key]} ∪ input_keysPressed (input (AppState p)) : gset string)
                  -> k ∈ navigationKeys).
    { rewrite elem_of_union, elem_of_singleton. intros [->|H]; [exact Hn|apply Hp, H]. }
    simpl. destruct (keyboard_isMoving (keyboard (AppState p))); exact Hin.
  - unfold handleKeyUp.
    destruct (isLoaded (AppState p)); simpl; [|auto].
    assert (Hin : k ∈ (input_keysPressed (input (AppState p)) ∖ {[toLowerCase key]} : gset string)
                  -> k ∈ navigationKeys).
    { rewrite elem_of_difference. intros [H _]. apply Hp, H. }
    destruct (bool_decide _); exact Hin.
  - destruct (keyboard_animationId (keyboard (AppState p))); [|auto].
    pose proof (moveLoop_keyboard t p) as (-> & _). auto.
  - pose proof (handleTouchStart_rest touch p) as (_ & _ & -> & _). auto.
  - pose proof (handleTouchMove_frame touch p) as (_ & _ & _ & _ & ->). auto.
  - unfold touchEndTimeout. destruct (n =? 0)%nat; auto.
  - intros H. exfalso. revert H. apply not_elem_of_empty.
  - destruct hidden; [|auto]. intros H. exfalso. revert H. apply not_elem_of_empty.
  - unfold handleResize. simpl. destruct (isLoaded (AppState p)); auto.
  - unfold handleOrientationChange, handleResize. simpl. destruct (isLoaded (AppState p)); auto.
  - unfold testViewportMaskTimeout. destruct (testOriginal p) as [[ox oy]|]; auto.
  - auto.
Qed.

(** X2.  The set of held keys only ever holds navigation keys, in lower
    case: [handleKeyDown] adds no other, and nothing else adds any. *)
Theorem held_keys_are_navigation_keys (w h : num) (es : list (@Event num)) (k : string) :
  k ∈ keysPressed (run es (loaded w h)) -> k ∈ navigationKeys.
Proof.
  revert k.
  apply (run_invariant (fun p => forall k, k ∈ keysPressed p -> k ∈ navigationKeys)).
  - intros e q. apply keys_step.
  - intros k H. exfalso. revert H. apply not_elem_of_empty.
Qed.

Lemma frames_do_nothing ts p :
  keyboard_animationId (keyboard (AppState p)) = false ->
  run (map AnimationFrame ts) p = p.
Proof.
  intros H. induction ts as [|t ts IH]; [reflexivity|].
  simpl map. rewrite run_cons. simpl handle. rewrite H. exact IH.
Qed.

(** X3.  When the window loses the focus, and when the tab is hidden, the
    held keys are forgotten and the loop is cancelled: from any page, the
    animation frames that follow change nothing. *)
Theorem no_keyboard_motion_after_blur (p : @Page num) (ts : list num) :
  run (map AnimationFrame ts) (handle Blur p) = handle Blur p
  /\ run (map AnimationFrame ts) (handle (VisibilityChange true) p)
     = handle (VisibilityChange true) p
  /\ keysPressed (handle Blur p) = ∅
  /\ keysPressed (handle (VisibilityChange true) p) = ∅.
Proof.
  split; [apply frames_do_nothing; reflexivity|].
  split; [apply frames_do_nothing; reflexivity|].
  split; reflexivity.
Qed.

Lemma add_then_delete (k : string) (keys : gset string) :
  k ∉ keys -> ({[k]} ∪ keys) ∖ {[k]} = keys.
Proof.
  intros Hk. apply set_eq. intros x.
  rewrite elem_of_difference, elem_of_union, elem_of_singleton. split.
  - intros [[->|Hx] Hn]; [contradiction|exact Hx].
  - intros Hx. split; [right; exact Hx|]. intros ->. contradiction.
Qed.

(** X4.  Pressing a navigation key that was not held and releasing it, in
    whatever letter case each event reports it, gives back the set of held
    keys; if no other key was held, the loop is stopped. *)
Theorem key_press_and_release (p : @Page num) (down up : string) (now : num) :
  isLoaded (AppState p) = true ->
  toLowerCase down ∈ navigationKeys ->
  toLowerCase up = toLowerCase down ->
  toLowerCase down ∉ keysPressed p ->
  let q := handle (KeyUp up) (handle (KeyDown down now) p) in
  keysPressed q = keysPressed p
  /\ (keysPressed p = ∅ -> keyboard (AppState q) = mkKeyboard false false).
Proof.
  intros Hl Hn Hu Hk. simpl.
  assert (Hd : keysPressed (handleKeyDown down now p) = {[toLowerCase down]} ∪ keysPressed p
               /\ isLoaded (AppState (handleKeyDown down now p)) = true).
  { unfold handleKeyDown, startKeyboardMovement. rewrite Hl. simpl.
    rewrite (bool_decide_eq_true_2 _ Hn). simpl.
    destruct (keyboard_isMoving (keyboard (AppState p))); simpl; auto. }
  destruct Hd as (Hd & Hdl).
  unfold handleKeyUp. rewrite Hdl. simpl.
  fold (keysPressed (handleKeyDown down now p)). rewrite Hd, Hu.
  rewrite (add_then_delete _ _ Hk).
  destruct (bool_decide _) eqn:Hs; (split; [reflexivity|]); [reflexivity|].
  apply bool_decide_eq_false in Hs. intros He. exfalso. apply Hs.
  unfold keysPressed at 1. simpl. fold (keysPressed p). rewrite He. apply size_empty.
Qed.

(** *** Before the image has loaded *)

Lemma guarded_step e p :
  isLoaded (AppState p) = false -> guardedEvent e = true -> handle e p = p.
Proof.
  intros Hl.
  destruct e; simpl; try discriminate; intros _.
  - unfold handleMouseMove. rewrite Hl. reflexivity.
  - unfold handleKeyDown. rewrite Hl. reflexivity.
  - unfold handleKeyUp. rewrite Hl. reflexivity.
  - unfold handleTouchStart. rewrite Hl. reflexivity.
  - unfold handleTouchMove. rewrite Hl. reflexivity.
Qed.

(** X5.  Until [initializeViewport] has set [isLoaded], mouse moves, key
    presses and releases, touch starts and touch moves change nothing at
    all: no key is recorded, no flag is set, nothing is rendered. *)
Theorem input_is_ignored_until_loaded (p : @Page num) (es : list (@Event num)) :
  isLoaded (AppState p) = false ->
  forallb guardedEvent es = true ->
  run es p = p.
Proof.
  intros Hl. induction es as [|e es IH]; intros Hes; [reflexivity|].
  simpl in Hes. apply andb_true_iff in Hes as [He Hes].
  rewrite run_cons, (guarded_step e p Hl He). exact (IH Hes).
Qed.

(** *** The flags of the input sources *)

Lemma flagsExclusive_step e p :
  isMouseEnter e = false -> flagsExclusive p -> flagsExclusive (handle e p).
Proof.
  unfold flagsExclusive. intros He Hp.
  destruct e as [cx cy| | |key now|key|t|touch|touch|n| |hidden|w h|w h| |nx ny]; simpl;
    try discriminate He.
  - unfold handleMouseMove.
    destruct (isLoaded (AppState p)); simpl; [|exact Hp].
    match goal with
    | |- context [mouseToViewportPosition _ _ ?p1] =>
        pose proof (pointer_frame cx cy true p1) as (_ & Fi & _)
    end.
    rewrite Fi. reflexivity.
  - reflexivity.
  - unfold handleKeyDown, startKeyboardMovement.
    destruct (isLoaded (AppState p)); simpl; [|exact Hp].
    destruct (bool_decide _); [|exact Hp]. simpl.
    destruct (keyboard_isMoving (keyboard (AppState p))); reflexivity.
  - unfold handleKeyUp.
    destruct (isLoaded (AppState p)); simpl; [|exact Hp].
    destruct (bool_decide _); exact Hp.
  - destruct (keyboard_animationId (keyboard (AppState p))); [|exact Hp].
    pose proof (moveLoop_keyboard t p) as (_ & _ & -> & _). exact Hp.
  - pose proof (handleTouchStart_rest touch p) as (_ & _ & _ & [-> | ->]);
      [exact Hp|reflexivity].
  - pose proof (handleTouchMove_frame touch p) as (_ & -> & -> & _). exact Hp.
  - unfold touchEndTimeout. destruct (n =? 0)%nat; exact Hp.
  - exact Hp.
  - destruct hidden; exact Hp.
  - unfold handleResize. simpl. destruct (isLoaded (AppState p)); exact Hp.
  - unfold handleOrientationChange, handleResize. simpl.
    destruct (isLoaded (AppState p)); exact Hp.
  - unfold testViewportMaskTimeout. destruct (testOriginal p) as [[ox oy]|]; exact Hp.
  - exact Hp.
Qed.

(** X6.  Every handler that raises [isMouseActive] lowers [keyboardActive]
    and the other way round, but for the [mouseenter] listener: on a run
    without a [mouseenter] event the two flags are never both up. *)
Theorem handlers_keep_mouse_and_keyboard_flags_exclusive
    (w h : num) (es : list (@Event num)) :
  forallb (fun e => negb (isMouseEnter e)) es = true ->
  let p := run es (loaded w h) in
  input_isMouseActive (input (AppState p)) && input_keyboardActive (input (AppState p)) = false.
Proof.
  intros Hes.
  assert (H : forall p, flagsExclusive p -> flagsExclusive (run es p)).
  { induction es as [|e es IH]; intros p Hp; [exact Hp|].
    simpl in Hes. apply andb_true_iff in Hes as [He Hes].
    rewrite run_cons. apply (IH Hes), flagsExclusive_step; [|exact Hp].
    apply negb_true_iff, He. }
  apply H. reflexivity.
Qed.

(** *** The render sink *)

Lemma updateViewportPosition_inSync p : inSync (updateViewportPosition p).
Proof. reflexivity. Qed.

Lemma inSync_congr p q :
  viewport (AppState q) = viewport (AppState p) ->
  container (AppState q) = container (AppState p) ->
  rendered q = rendered p ->
  inSync p -> inSync q.
Proof.
  unfold inSync, state_x, state_y, state_radius, width, height.
  intros -> -> ->. auto.
Qed.

Lemma pointer_inSync cx cy (smooth : bool) p1 :
  inSync (let '(position, p2) := mouseToViewportPosition cx cy p1 in
          ViewportController_updateViewportPosition (fst position) (snd position) smooth p2).
Proof.
  rewrite mouseToViewportPosition_eq.
  unfold ViewportController_updateViewportPosition.
  rewrite applyBoundaryConstraints_eq.
  destruct smooth; apply updateViewportPosition_inSync.
Qed.

Lemma inSync_step e p :
  isLoaded (AppState p) = true /\ inSync p ->
  isLoaded (AppState (handle e p)) = true /\ inSync (handle e p).
Proof.
  intros [Hl Hs].
  destruct e as [cx cy| | |key now|key|t|touch|touch|n| |hidden|w h|w h| |nx ny]; simpl.
  - split; [pose proof (handleMouseMove_frame cx cy p) as (-> & _); exact Hl|].
    unfold handleMouseMove. rewrite Hl. simpl. apply pointer_inSync.
  - split; [exact Hl|revert Hs; apply inSync_congr; reflexivity].
  - split; [exact Hl|revert Hs; apply inSync_congr; reflexivity].
  - unfold handleKeyDown, startKeyboardMovement. rewrite Hl. simpl.
    destruct (bool_decide _); [|auto]. simpl.
    destruct (keyboard_isMoving (keyboard (AppState p))); simpl;
      (split; [exact Hl|revert Hs; apply inSync_congr; reflexivity]).
  - unfold handleKeyUp. rewrite Hl. simpl.
    destruct (bool_decide _); simpl;
      (split; [exact Hl|revert Hs; apply inSync_congr; reflexivity]).
  - destruct (keyboard_animationId (keyboard (AppState p))); [|auto].
    split; [pose proof (moveLoop_keyboard t p) as (_ & -> & _); exact Hl|].
    unfold moveLoop.
    destruct (negb _ || bool_decide _);
      [revert Hs; apply inSync_congr; reflexivity|].
    destruct (keyboardDelta _ _) as [dX dY].
    destruct ((dX !== int 0) || (dY !== int 0))%num.
    + match goal with
      | |- inSync (setKeyboard _ ?q) => apply (inSync_congr q); [reflexivity..|]
      end.
      unfold moveViewportByDelta. rewrite applyBoundaryConstraints_eq.
      apply updateViewportPosition_inSync.
    + revert Hs; apply inSync_congr; reflexivity.
  - split; [pose proof (handleTouchStart_rest touch p) as (-> & _); exact Hl|].
    unfold handleTouchStart. rewrite Hl. simpl.
    destruct touch as [[cx cy]|]; [apply pointer_inSync|exact Hs].
  - split; [pose proof (handleTouchMove_frame touch p) as (-> & _); exact Hl|].
    unfold handleTouchMove.
    destruct (negb _ || negb _); [exact Hs|].
    destruct touch as [[cx cy]|]; [apply pointer_inSync|exact Hs].
  - unfold touchEndTimeout. destruct (n =? 0)%nat; [|auto].
    split; [exact Hl|revert Hs; apply inSync_congr; reflexivity].
  - split; [exact Hl|revert Hs; apply inSync_congr; reflexivity].
  - destruct hidden; [|auto].
    split; [exact Hl|revert Hs; apply inSync_congr; reflexivity].
  - unfold handleResize. simpl. rewrite Hl. split; [exact Hl|reflexivity].
  - unfold handleOrientationChange, handleResize. simpl. rewrite Hl.
    split; [exact Hl|reflexivity].
  - unfold testViewportMaskTimeout. destruct (testOriginal p) as [[ox oy]|]; [|auto].
    split; [exact Hl|reflexivity].
  - split; [exact Hl|reflexivity].
Qed.

(** X7.  After start-up, whatever the events are, every change of the
    position, of the radius or of the container size has been followed by
    a call of [updateViewportPosition]: the render sink holds
    [x * width], [y * height] and the radius of the current state, and
    [isLoaded] stays set. *)
Theorem render_sink_follows_the_state (w h : num) (es : list (@Event num)) :
  let p := run es (loaded w h) in
  isLoaded (AppState p) = true
  /\ rendered p
     = Some (mkRendered (state_x p * width p) (state_y p * height p) (state_radius p))%num.
Proof.
  apply (run_invariant (fun p => isLoaded (AppState p) = true /\ inSync p)).
  - intros e q. apply inSync_step.
  - split; reflexivity.
Qed.

(** *** The self-test of [testViewportMask] *)

(** X8.  [initializeViewport] sets [isLoaded] before it calls
    [testViewportMask], whose timer writes back the position it saw, the
    centre.  So whatever the pointer, the touches and the keys did to the
    position before the timer fires is undone by it: the position is
    (0.5, 0.5) again. *)
Theorem self_test_undoes_the_first_movements (p : @Page num) (es : list (@Event num)) :
  forallb (fun e => negb (isTestTimeout e)) es = true ->
  let q := handle TestViewportMaskTimeout (run es (initializeViewport p)) in
  state_x q = dec 5 10 /\ state_y q = dec 5 10 /\ testOriginal q = None.
Proof.
  intros Hes.
  assert (Ht : testOriginal (run es (initializeViewport p)) = Some (dec 5 10, dec 5 10)).
  { assert (H0 : testOriginal (initializeViewport p) = Some (dec 5 10, dec 5 10)) by reflexivity.
    revert H0. generalize (initializeViewport p).
    induction es as [|e es IH]; intros q Hq; [exact Hq|].
    simpl in Hes. apply andb_true_iff in Hes as [He Hes].
    rewrite run_cons. apply (IH Hes).
    rewrite handle_testOriginal; [exact Hq|]. apply negb_true_iff, He. }
  simpl. unfold testViewportMaskTimeout. rewrite Ht. repeat split.
Qed.

End RunInvariants.

(** ** [throttle] and [debounce] *)

Section SchedulingFacts.

Context {num : Type} {number : JSNumber num}.
Context {State Args : Type} (func : Args -> State -> State).
Implicit Types (t : @Throttle num) (s : State) (es : list (@ThrottleEvent num Args)).

Lemma throttleRun_cons limit e es c :
  throttleRun func limit (e :: es) c = throttleRun func limit es (throttleStep func limit e c).
Proof. reflexivity. Qed.

Lemma throttleRun_executed limit es t s :
  snd (throttleRun func limit es (t, s))
  = fold_left (fun s a => func (snd a) s) (executed limit es t) s.
Proof.
  revert t s. induction es as [|[now args|] es IH]; intros t s; [reflexivity| |].
  - rewrite throttleRun_cons. simpl.
    destruct (negb (inThrottle t) && num_ge _ _); simpl; apply IH.
  - rewrite throttleRun_cons. simpl. apply IH.
Qed.

Lemma executed_sublist limit es t : sublist (executed limit es t) (calls es).
Proof.
  revert t. induction es as [|[now args|] es IH]; intros t; simpl.
  - constructor.
  - destruct (negb (inThrottle t) && num_ge _ _).
    + apply sublist_skip, IH.
    + apply sublist_cons, IH.
  - apply IH.
Qed.

(** X9.  A throttled function drops calls and does nothing else: the state
    after any sequence of calls and animation frames is the state after
    running the wrapped function on the calls that went through, in order,
    and those are a subsequence of the calls made. *)
Theorem throttle_runs_a_subsequence_of_the_calls limit es t s :
  snd (throttleRun func limit es (t, s))
  = fold_left (fun s a => func (snd a) s) (executed limit es t) s
  /\ sublist (executed limit es t) (calls es).
Proof.
  pose proof (throttleRun_executed limit es t s) as H1.
  pose proof (executed_sublist limit es t) as H2.
  split; assumption.
Qed.

Lemma executed_length limit es t :
  (length (executed limit es t) <= (if inThrottle t then 0 else 1) + frames es)%nat.
Proof.
  revert t. induction es as [|[now args|] es IH]; intros t; simpl.
  - lia.
  - destruct (inThrottle t) eqn:Ht; simpl.
    + specialize (IH t). rewrite Ht in IH. exact IH.
    + destruct (num_ge _ _).
      * specialize (IH (mkThrottle true now)). simpl in *. lia.
      * specialize (IH t). rewrite Ht in IH. exact IH.
  - specialize (IH (mkThrottle false (lastExecTime t))). simpl in IH.
    destruct (inThrottle t); lia.
Qed.

(** X10.  At most one call goes through per animation frame: the calls
    that went through are at most one more than the frames seen, and no
    more than the frames if the run starts inside a throttle period. *)
Theorem throttle_runs_at_most_one_call_per_frame limit es t :
  (length (executed limit es t) <= S (frames es))%nat
  /\ (inThrottle t = true -> length (executed limit es t) <= frames es)%nat.
Proof.
  pose proof (executed_length limit es t) as H.
  destruct (inThrottle t); split; try discriminate; intros; lia.
Qed.

(** X11.  The calls that go through are spaced: for each of them,
    [now - lastExecTime >= limit] held with [lastExecTime] the time of the
    one before it (the initial [lastExecTime] for the first). *)
Theorem throttle_spaces_the_calls_it_runs limit es t :
  spaced limit (lastExecTime t) (executed limit es t) = true.
Proof.
  revert t. induction es as [|[now args|] es IH]; intros t; simpl.
  - reflexivity.
  - destruct (negb (inThrottle t)); simpl; [|apply IH].
    destruct (num_ge _ _) eqn:Hg; [|apply IH].
    simpl. rewrite Hg. apply (IH (mkThrottle true now)).
  - apply (IH (mkThrottle false (lastExecTime t))).
Qed.

(** X12.  Of a burst of calls with no animation frame in between, at most
    one has any effect. *)
Theorem throttle_lets_one_call_of_a_burst_through limit es t s :
  frames es = 0%nat ->
  snd (throttleRun func limit es (t, s)) = s
  \/ exists now args, (now, args) ∈ calls es
       /\ snd (throttleRun func limit es (t, s)) = func args s.
Proof.
  intros Hf. rewrite throttleRun_executed.
  pose proof (executed_length limit es t) as Hl. rewrite Hf in Hl.
  pose proof (executed_sublist limit es t) as Hs.
  destruct (executed limit es t) as [|[now args] [|x l]].
  - left. reflexivity.
  - right. exists now, args. split; [|reflexivity].
    apply (elem_of_sublist _ _ _ (list_elem_of_here _ _) Hs).
  - simpl in Hl. destruct (inThrottle t); lia.
Qed.

Lemma debounceRun_app (es1 es2 : list (@DebounceEvent Args)) c :
  debounceRun func (es1 ++ es2) c = debounceRun func es2 (debounceRun func es1 c).
Proof. unfold debounceRun. apply fold_left_app. Qed.

Lemma debounceRun_calls (l : list Args) (a : Args) c :
  debounceRun func (map DebouncedCall (l ++ [a])) c
  = (Some a, snd (debounceRun func (map DebouncedCall l) c))
  /\ snd (debounceRun func (map DebouncedCall l) c) = snd c.
Proof.
  split.
  - rewrite map_app, debounceRun_app. reflexivity.
  - revert c. induction l as [|b l IH]; intros c; [reflexivity|].
    simpl. unfold debounceRun in *. simpl. rewrite IH. reflexivity.
Qed.

Lemma timers_do_nothing (n : nat) s :
  debounceRun func (repeat TimerFires n) (None, s) = (None, s).
Proof. induction n as [|n IH]; [reflexivity|exact IH]. Qed.

(** X13.  A debounced function runs once for a burst of calls, when the
    timer of the last call fires, with the arguments of the last call; the
    earlier calls of the burst, and a timer that was pending before it,
    have no effect. *)
Theorem debounce_runs_the_last_call_of_a_burst (l : list Args) (a : Args) (n : nat) d s :
  debounceRun func (map DebouncedCall (l ++ [a]) ++ TimerFires :: repeat TimerFires n) (d, s)
  = (None, func a s).
Proof.
  destruct (debounceRun_calls l a (d, s)) as [H1 H2].
  rewrite debounceRun_app, H1, H2. apply (timers_do_nothing n).
Qed.

End SchedulingFacts.

Section ResizeFacts.

Context {num : Type} {number : JSNumber num}.

Lemma resizeRun_app (es1 es2 : list (@ResizeEvent num)) c :
  resizeRun (es1 ++ es2) c = resizeRun es2 (resizeRun es1 c).
Proof. unfold resizeRun. apply fold_left_app. Qed.

Lemma resizeRun_burst (sizes : list (num * num)) c :
  snd (snd (resizeRun (map (fun s => WindowResized (fst s) (snd s)) sizes) c)) = snd (snd c).
Proof.
  revert c. induction sizes as [|s sizes IH]; intros c; [reflexivity|].
  simpl. unfold resizeRun in *. simpl. rewrite IH. reflexivity.
Qed.

(** X14.  While the window is being resized the page is left alone; when
    the debounce timer fires, the resize body runs once, on the page as it
    was, with the size the window has then: the sizes in between are never
    seen. *)
Theorem resize_burst_applies_the_last_size
    (sizes : list (num * num)) (w h : num) d win (p : @Page num) :
  resizeRun (map (fun s => WindowResized (fst s) (snd s)) (sizes ++ [(w, h)])
             ++ [ResizeTimerFires])
            (d, (win, p))
  = (None, (mkWindow w h, handleResize w h p)).
Proof.
  rewrite resizeRun_app, map_app, resizeRun_app. simpl.
  unfold debounceTimeout, resizeBody. simpl. rewrite resizeRun_burst. reflexivity.
Qed.

(** X27.  The resize body is idempotent: run again for the same window
    size, by a second [resize] timer or by the timer of an
    [orientationchange] that came with the resize, it changes nothing more.
    And it never moves the position or touches the cache of the controller. *)
Theorem resize_to_the_same_size_changes_nothing_more (w h : num) (p : @Page num) :
  handleResize w h (handleResize w h p) = handleResize w h p
  /\ handleOrientationChange w h (handleResize w h p) = handleResize w h p
  /\ state_x (handleResize w h p) = state_x p
  /\ state_y (handleResize w h p) = state_y p
  /\ viewportController (handleResize w h p) = viewportController p.
Proof.
  unfold handleOrientationChange, handleResize. simpl.
  destruct (isLoaded (AppState p)) eqn:Hl; simpl; rewrite ?Hl; repeat split; reflexivity.
Qed.

End ResizeFacts.

(** ** The image state *)

Section ImageFacts.

Local Open Scope nat_scope.

Lemma imageRun_cons e es s : imageRun (e :: es) s = imageRun es (imageStep e s).
Proof. reflexivity. Qed.

Lemma imageStep_invariant e s :
  retryCount s <= maxRetries s ->
  imageState_isLoaded s && imageState_hasError s = false ->
  retryCount (imageStep e s) <= maxRetries (imageStep e s)
  /\ maxRetries (imageStep e s) = maxRetries s
  /\ imageState_isLoaded (imageStep e s) && imageState_hasError (imageStep e s) = false.
Proof.
  intros Hc Hx. destruct e; simpl; unfold retry; simpl.
  - rewrite andb_false_r. auto.
  - split; [lia|auto].
  - auto.
  - destruct (Nat.leb_spec (maxRetries s) (retryCount s)); simpl.
    + auto.
    + rewrite andb_false_r. split; [lia|auto].
Qed.

Lemma imageRun_invariant es s :
  retryCount s <= maxRetries s ->
  imageState_isLoaded s && imageState_hasError s = false ->
  retryCount (imageRun es s) <= maxRetries (imageRun es s)
  /\ maxRetries (imageRun es s) = maxRetries s
  /\ imageState_isLoaded (imageRun es s) && imageState_hasError (imageRun es s) = false.
Proof.
  revert s. induction es as [|e es IH]; intros s Hc Hx; [auto|].
  rewrite imageRun_cons.
  destruct (imageStep_invariant e s Hc Hx) as (Hc' & Hm' & Hx').
  destruct (IH _ Hc' Hx') as (H1 & H2 & H3). rewrite <- Hm'. auto.
Qed.

(** X15.  However loads, successes, failures and presses of the retry
    button follow one another, the retry count stays at most 3, the image
    is never both loaded and in error, and at a count of 3 [retry] does
    nothing and the error panel offers no retry button. *)
Theorem retry_count_never_exceeds_three (es : list ImageEvent) :
  let s := imageRun es initialImageState in
  retryCount s <= 3
  /\ maxRetries s = 3
  /\ imageState_isLoaded s && imageState_hasError s = false
  /\ (retryCount s = 3 -> retry s = s /\ retryOffered s = false).
Proof.
  intros s.
  destruct (imageRun_invariant es initialImageState) as (H1 & H2 & H3);
    [simpl; lia|reflexivity|].
  fold s in H1, H2, H3. simpl in H2. rewrite H2 in H1.
  repeat split; try assumption.
  - unfold retry. rewrite H2, H. reflexivity.
  - unfold retryOffered. rewrite H2, H. reflexivity.
Qed.

Lemma retriesStarted_count es s :
  forallb (fun e => negb (isImageSuccess e)) es = true ->
  retryCount s <= maxRetries s ->
  retryCount (imageRun es s) = retryCount s + retriesStarted es s.
Proof.
  revert s. induction es as [|e es IH]; intros s Hes Hc; [simpl; lia|].
  simpl in Hes. apply andb_true_iff in Hes as [He Hes].
  rewrite imageRun_cons. simpl retriesStarted.
  assert (Hc' : retryCount (imageStep e s) <= maxRetries (imageStep e s)).
  { destruct e; simpl; unfold retry; simpl; try lia.
    destruct (Nat.leb_spec (maxRetries s) (retryCount s)); simpl; lia. }
  rewrite (IH _ Hes Hc').
  destruct e; simpl; try discriminate He; try lia.
  unfold retry. destruct (Nat.leb_spec (maxRetries s) (retryCount s)); simpl; lia.
Qed.

(** X16.  As long as no load succeeds, the retry button starts at most
    three loads, however often it is pressed, and the retry count is the
    number of loads it started. *)
Theorem retry_starts_at_most_three_loads (es : list ImageEvent) :
  forallb (fun e => negb (isImageSuccess e)) es = true ->
  retriesStarted es initialImageState <= 3
  /\ retryCount (imageRun es initialImageState) = retriesStarted es initialImageState.
Proof.
  intros Hes.
  assert (H0 : retryCount initialImageState <= maxRetries initialImageState) by (simpl; lia).
  pose proof (retriesStarted_count es initialImageState Hes H0) as Hn.
  destruct (imageRun_invariant es initialImageState) as (H1 & H2 & _);
    [exact H0|reflexivity|].
  simpl in Hn, H2. rewrite H2 in H1. lia.
Qed.

End ImageFacts.

(** ** The radius and the window, in exact arithmetic *)

Section ExactWindow.

Local Open Scope R_scope.
Local Abbreviation sqrt := R_sqrt.sqrt.
Implicit Types (p q : @Page R) (e : @Event R).

Lemma getOptimalViewportRadius_cap p :
  getOptimalViewportRadius p <= IZR (radiusCap (deviceType (responsiveManager p))).
Proof.
  unfold getOptimalViewportRadius.
  destruct (deviceType (responsiveManager p)); simpl; unfold Exact.lit;
    match goal with |- Rmin ?a ?b <= _ => pose proof (Rmin_l a b) end; lra.
Qed.

Lemma calculateViewportRadius_cap p :
  60 <= state_radius (calculateViewportRadius p)
     <= IZR (radiusCap (deviceType (responsiveManager p))).
Proof.
  unfold calculateViewportRadius.
  pose proof (getOptimalViewportRadius_cap p) as Hc.
  set (b := getOptimalViewportRadius p) in *.
  assert (Hcap : 80 <= IZR (radiusCap (deviceType (responsiveManager p))) <= 180)
    by (destruct (deviceType (responsiveManager p)); simpl; lra).
  set (cap := IZR (radiusCap (deviceType (responsiveManager p)))) in *.
  cbv zeta. unfold state_radius. simpl.
  match goal with
  | |- context [Rmax _ (Rmin _ ?b')] => assert (Hb' : b' <= cap); [|generalize dependent b']
  end.
  { unfold Exact.lit. repeat destruct (Exact.ltb _ _); nra. }
  intros b' Hb'. unfold Exact.lit, Rmax, Rmin.
  repeat destruct (Rle_dec _ _); lra.
Qed.

(** X17.  In exact arithmetic, the radius [calculateViewportRadius]
    stores is at least 60 and at most the cap of the device class the
    responsive manager holds (80, 100, 140 or 180): it never reaches the
    200 of [Math.min(200, baseRadius)]. *)
Theorem radius_is_between_60_and_the_cap_of_the_class p :
  let q := calculateViewportRadius p in
  60 <= state_radius q <= IZR (radiusCap (deviceType (responsiveManager p)))
  /\ state_radius q <= 180.
Proof.
  intros q. pose proof (calculateViewportRadius_cap p) as H. fold q in H.
  split; [exact H|].
  destruct (deviceType (responsiveManager p)); simpl in H; lra.
Qed.

Lemma moved_radius m p q : moved m p q -> state_radius q = state_radius p.
Proof.
  intros Hm.
  assert (H : snd (core q) = snd (core p))
    by (destruct m; destruct Hm as (-> & _); auto; apply core_refresh).
  exact H.
Qed.

Lemma loaded_deviceType (w h : R) : deviceType (responsiveManager (loaded w h)) = MobileSmall.
Proof.
  change (deviceType (responsiveManager (loaded w h)))
    with (detectDeviceType (initialContainer : @Container R)).
  rcompute. reflexivity.
Qed.

Lemma run_radius (es : list (@Event R)) p :
  Forall inputEvent es -> state_radius (run es p) = state_radius p.
Proof.
  intros Hes. revert p. induction Hes as [|e es He _ IH]; intros p; [reflexivity|].
  simpl. change (fold_left _ es (handle e p)) with (run es (handle e p)).
  rewrite IH. exact (moved_radius _ _ _ (handle_intent e p He)).
Qed.

(** X18.  The responsive manager is built while the container is still 0
    by 0, so it holds the class of the smallest phones until the first
    resize computes it again.  In exact arithmetic, in a window of any
    size, the radius set at start-up is between 60 and 80, and pointer,
    touch and keyboard events leave it there. *)
Theorem radius_is_at_most_80_until_the_first_resize (w h : R) (es : list (@Event R)) :
  Forall inputEvent es ->
  deviceType (responsiveManager (loaded w h)) = MobileSmall
  /\ 60 <= state_radius (run es (loaded w h)) <= 80.
Proof.
  intros Hes. split; [apply loaded_deviceType|].
  rewrite (run_radius es _ Hes).
  change (state_radius (loaded w h))
    with (state_radius (calculateViewportRadius
            (setPosition (dec 5 10) (dec 5 10) (init w h initialPage)))).
  pose proof (calculateViewportRadius_cap
                (setPosition (dec 5 10) (dec 5 10) (init w h initialPage))) as H.
  change (deviceType (responsiveManager (setPosition (dec 5 10) (dec 5 10) (init w h initialPage))))
    with (deviceType (responsiveManager (loaded w h))) in H.
  rewrite loaded_deviceType in H. simpl in H. exact H.
Qed.

Lemma loaded_radius_bounds (w h : R) :
  60 <= state_radius (loaded w h)
  /\ state_radius (loaded w h) <= Rmax 60 (15 / 100 * Rmin w h).
Proof.
  change (state_radius (loaded w h))
    with (state_radius (calculateViewportRadius
            (setPosition (dec 5 10) (dec 5 10) (init w h initialPage)))).
  unfold calculateViewportRadius, getOptimalViewportRadius.
  change (deviceType (responsiveManager (setPosition (dec 5 10) (dec 5 10) (init w h initialPage))))
    with (detectDeviceType (initialContainer : @Container R)).
  replace (detectDeviceType (initialContainer : @Container R)) with MobileSmall
    by (rcompute; reflexivity).
  change (width (setPosition (dec 5 10) (dec 5 10) (init w h initialPage))) with w.
  change (height (setPosition (dec 5 10) (dec 5 10) (init w h initialPage))) with h.
  cbv zeta. unfold state_radius. simpl. unfold Exact.lit.
  set (md := Rmin w h).
  assert (Hb : Rmin (80 / 1) (md * (15 / 100)) <= 15 / 100 * md)
    by (pose proof (Rmin_r (80 / 1) (md * (15 / 100))); lra).
  set (b := Rmin (80 / 1) (md * (15 / 100))) in *.
  match goal with
  | |- context [Rmax _ (Rmin _ ?b')] =>
      assert (Hb' : b' <= Rmax 60 (15 / 100 * md)); [|generalize dependent b']
  end.
  { pose proof (Rmax_l 60 (15 / 100 * md)). pose proof (Rmax_r 60 (15 / 100 * md)).
    repeat destruct (Exact.ltb _ _); lra. }
  intros b' Hb'. revert Hb'. unfold Rmax, Rmin.
  repeat destruct (Rle_dec _ _); lra.
Qed.

Lemma loaded_nonDegenerate (w h : R) :
  125 <= w -> 125 <= h -> nonDegenerate (currentBounds (loaded w h)) = true.
Proof.
  intros Hw Hh. rewrite nonDegenerate_iff.
  destruct (loaded_radius_bounds w h) as [H60 Hr].
  unfold currentBounds, computeBounds. rewrite loaded_container.
  set (r := state_radius (loaded w h)) in *.
  assert (Hmd : Rmin w h <= w /\ Rmin w h <= h) by (split; [apply Rmin_l|apply Rmin_r]).
  assert (Hr' : r <= 60 \/ r <= 15 / 100 * Rmin w h).
  { revert Hr. unfold Rmax. destruct (Rle_dec _ _); lra. }
  assert (Hx : r / w <= 48 / 100).
  { apply (Rmult_le_reg_r w); [lra|].
    replace (r / w * w) with r by (field; lra). destruct Hr'; nra. }
  assert (Hy : r / h <= 48 / 100).
  { apply (Rmult_le_reg_r h); [lra|].
    replace (r / h * h) with r by (field; lra). destruct Hr'; nra. }
  simpl. unfold boundaryPadding, dec, int. simpl. unfold Exact.lit.
  destruct (Exact.ltb _ _); simpl; lra.
Qed.

Lemma initialized_nonDegenerate (w h : R) :
  125 <= w -> 125 <= h -> nonDegenerate (currentBounds (initialized w h)) = true.
Proof. exact (loaded_nonDegenerate w h). Qed.

Lemma initialized_nudge_inRectangle (w h : R) :
  128 <= w -> 128 <= h ->
  inRectangle (currentBounds (initialized w h)) (dec 51 100) (dec 51 100) = true.
Proof.
  intros Hw Hh. rewrite inRectangle_iff.
  destruct (loaded_radius_bounds w h) as [H60 Hr].
  change (currentBounds (initialized w h)) with (currentBounds (loaded w h)).
  unfold currentBounds, computeBounds. rewrite loaded_container.
  set (r := state_radius (loaded w h)) in *.
  assert (Hmd : Rmin w h <= w /\ Rmin w h <= h) by (split; [apply Rmin_l|apply Rmin_r]).
  assert (Hr' : r <= 60 \/ r <= 15 / 100 * Rmin w h).
  { revert Hr. unfold Rmax. destruct (Rle_dec _ _); lra. }
  assert (Hx : r / w <= 47 / 100).
  { apply (Rmult_le_reg_r w); [lra|].
    replace (r / w * w) with r by (field; lra). destruct Hr'; nra. }
  assert (Hy : r / h <= 47 / 100).
  { apply (Rmult_le_reg_r h); [lra|].
    replace (r / h * h) with r by (field; lra). destruct Hr'; nra. }
  simpl. unfold boundaryPadding, dec, int. simpl. unfold Exact.lit.
  destruct (Exact.ltb _ _); simpl; lra.
Qed.

(** X19.  In exact arithmetic, in every window at least 125 pixels wide
    and 125 pixels high, after every sequence of pointer, touch and keyboard
    events and firings of the self-test timer that follows
    [initializeViewport], the allowed rectangle is not empty, and the
    position is in it once the timer has fired; in every window at least 128
    pixels wide and high the (0.51, 0.51) of the self-test is in the
    rectangle too, and the position is in it throughout. *)
Theorem rectangle_and_position_in_windows_of_125_and_128_px
    (w h : R) (es : list (@Event R)) :
  125 <= w -> 125 <= h ->
  Forall fixedWindowEvent es ->
  let p := run es (initialized w h) in
  nonDegenerate (currentBounds p) = true
  /\ (existsb isTestTimeout es = true -> contained p)
  /\ (128 <= w -> 128 <= h -> contained p).
Proof.
  intros Hw Hh Hes p.
  pose proof (initialized_sound w h (initialized_nonDegenerate w h Hw Hh)) as H0.
  destruct (selfTestSound_run _ _ Hes H0) as (_ & Hn & Ho). fold p in Hn, Ho.
  split; [exact Hn|]. split.
  - intros Ht.
    replace (testOriginal p) with (@None (R * R)) in Ho; [exact Ho|].
    symmetry. apply timer_fired; [exact Hes|right; exact Ht].
  - intros Hw' Hh'.
    apply (settled_fixed_run _ _ Hes H0), initialized_settled;
      [apply initialized_nonDegenerate; assumption
      |apply initialized_nudge_inRectangle; assumption].
Qed.

(** *** Opposite keys *)

Lemma keyboardDelta_opposite (keys : gset string) (speed : R) :
  leftPressed keys = true -> rightPressed keys = true ->
  fst (keyboardDelta keys speed) = 0
  /\ (upPressed keys = downPressed keys -> keyboardDelta keys speed = (0, 0))
  /\ (xorb (upPressed keys) (downPressed keys) = true ->
      magnitude (keyboardDelta keys speed) = Rabs speed / sqrt 2).
Proof.
  intros Hl Hr.
  assert (Hp : 0 < sqrt 2) by (apply sqrt_lt_R0; lra).
  unfold keyboardDelta. rewrite Hl, Hr.
  destruct (upPressed keys), (downPressed keys); simpl; unfold int; simpl; unfold Exact.lit;
    replace (0 / 1 - speed + speed) with 0 by lra;
    replace (2 / 1) with 2 by lra;
    (split; [lra|]);
    (split; [intros H; try discriminate H; f_equal; lra|]);
    intros H; try discriminate H; clear H; unfold magnitude; simpl.
  - replace (0 * (1 / 1 / sqrt 2) * (0 * (1 / 1 / sqrt 2))
             + (0 / 1 - speed) * (1 / 1 / sqrt 2) * ((0 / 1 - speed) * (1 / 1 / sqrt 2)))
      with (Rsqr (speed / sqrt 2)) by (unfold Rsqr; field; lra).
    rewrite sqrt_Rsqr_abs. unfold Rdiv. rewrite Rabs_mult, (Rabs_pos_eq (/ sqrt 2)); [reflexivity|].
    left. apply Rinv_0_lt_compat, Hp.
  - replace (0 * (1 / 1 / sqrt 2) * (0 * (1 / 1 / sqrt 2))
             + (0 / 1 + speed) * (1 / 1 / sqrt 2) * ((0 / 1 + speed) * (1 / 1 / sqrt 2)))
      with (Rsqr (speed / sqrt 2)) by (unfold Rsqr; field; lra).
    rewrite sqrt_Rsqr_abs. unfold Rdiv. rewrite Rabs_mult, (Rabs_pos_eq (/ sqrt 2)); [reflexivity|].
    left. apply Rinv_0_lt_compat, Hp.
Qed.

(** X20.  In exact arithmetic, with a left key and a right key held
    together a tick asks for no horizontal displacement; if the vertical
    keys balance too the tick leaves the position alone, and if exactly one
    vertical direction is held the tick still scales by [1/sqrt 2]: the
    viewport moves straight up or down at [1/sqrt 2] of the tick's speed. *)
Theorem opposite_keys_cancel p (currentTime : R) :
  leftPressed (keysPressed p) = true -> rightPressed (keysPressed p) = true ->
  let speed := tickSpeed (currentTime - lastFrameTime p) p in
  let q := handle (AnimationFrame currentTime) p in
  fst (keyboardDelta (keysPressed p) speed) = 0
  /\ (upPressed (keysPressed p) = downPressed (keysPressed p) ->
      state_x q = state_x p /\ state_y q = state_y p)
  /\ (xorb (upPressed (keysPressed p)) (downPressed (keysPressed p)) = true ->
      magnitude (keyboardDelta (keysPressed p) speed) = Rabs speed / sqrt 2).
Proof.
  intros Hl Hr speed q.
  destruct (keyboardDelta_opposite (keysPressed p) speed Hl Hr) as (H0 & Hs & Hm).
  split; [exact H0|]. split; [|exact Hm].
  intros Hud. specialize (Hs Hud).
  pose proof (handle_intent (AnimationFrame currentTime) p I) as Hi.
  unfold intent in Hi. fold q in Hi.
  destruct (loopRuns p); [|destruct Hi as (_ & Hx & Hy); auto].
  change (num_sub currentTime (lastFrameTime p)) with (currentTime - lastFrameTime p) in Hi.
  fold speed in Hi. rewrite Hs in Hi. cbv zeta in Hi. simpl fst in Hi. simpl snd in Hi.
  assert (Hc : ((0 !== int 0) || (0 !== int 0))%num = false).
  { rewrite orb_false_iff. split; apply not_true_is_false; rewrite neq_iff, int_0; tauto. }
  rewrite Hc in Hi. destruct Hi as (_ & Hx & Hy). auto.
Qed.

End ExactWindow.

(** ** binary64: rounding, the radius and the clamp *)

(** *** Rounding never makes a NaN *)

Section SpecRounding.

Variables prec emax : Z.

Lemma iter_pos_invariant {A : Type} (P : A -> Prop) (f : A -> A) :
  (forall x, P x -> P (f x)) -> forall n x, P x -> P (SpecFloat.iter_pos f n x).
Proof.
  intros Hf. induction n as [n IH|n IH|]; intros x Hx; simpl; auto.
Qed.

Lemma shr_1_nonneg mrs : 0 <= shr_m mrs -> 0 <= shr_m (shr_1 mrs).
Proof.
  destruct mrs as [m r s]. simpl.
  destruct m as [|[q|q|]|[q|q|]]; simpl; lia.
Qed.

Lemma shr_nonneg mrs e n : 0 <= shr_m mrs -> 0 <= shr_m (fst (shr mrs e n)).
Proof.
  intros H. unfold shr. destruct n; simpl; try exact H.
  apply (iter_pos_invariant (fun x => 0 <= shr_m x)); [apply shr_1_nonneg|exact H].
Qed.

Lemma shr_fexp_nonneg m e l : 0 <= m -> 0 <= shr_m (fst (shr_fexp prec emax m e l)).
Proof.
  intros H. unfold shr_fexp. apply shr_nonneg. destruct l as [|[]]; exact H.
Qed.

Lemma round_nearest_even_nonneg m l : 0 <= m -> 0 <= round_nearest_even m l.
Proof.
  intros H. destruct l as [|[]]; simpl; try lia. destruct (Z.even m); lia.
Qed.

Lemma binary_round_aux_not_nan s m e l :
  0 <= m -> binary_round_aux prec emax s m e l <> S754_nan.
Proof.
  intros H. unfold binary_round_aux.
  pose proof (shr_fexp_nonneg m e l H) as H1.
  destruct (shr_fexp prec emax m e l) as [mrs' e'].
  pose proof (shr_fexp_nonneg _ e' loc_Exact
                (round_nearest_even_nonneg _ (loc_of_shr_record mrs') H1)) as H2.
  destruct (shr_fexp prec emax _ e' loc_Exact) as [mrs'' e''].
  simpl in H2. destruct (shr_m mrs''); [discriminate| |lia].
  destruct (_ <=? _); discriminate.
Qed.

(** The product of a number that is not NaN and a finite non-zero number
    is not NaN. *)
Lemma SFmul_finite_not_nan x s m e :
  x <> S754_nan -> SFmul prec emax x (S754_finite s m e) <> S754_nan.
Proof.
  destruct x as [sx|sx| |sx mx ex]; simpl; try congruence.
  intros _. apply binary_round_aux_not_nan. lia.
Qed.

End SpecRounding.

Section Binary64More.

Implicit Types (a b lo hi x : float) (p q : @Page float).

Lemma mul_finite_not_nan (x k : float) s m e :
  Prim2SF k = S754_finite s m e ->
  PrimFloat.is_nan x = false -> PrimFloat.is_nan (PrimFloat.mul x k) = false.
Proof.
  intros Hk. rewrite !is_nan_Prim2SF, mul_spec, Hk. apply SFmul_finite_not_nan.
Qed.

Lemma min_not_nan a b :
  PrimFloat.is_nan a = false -> PrimFloat.is_nan b = false ->
  PrimFloat.is_nan (Float64.min a b) = false.
Proof.
  intros Ha Hb.
  destruct (min_cases a b Ha Hb) as [[_ ->]|[[_ ->]|[_ [->| ->]]]]; assumption.
Qed.

Lemma getOptimalViewportRadius_not_nan p :
  PrimFloat.is_nan (width p) = false -> PrimFloat.is_nan (height p) = false ->
  PrimFloat.is_nan (getOptimalViewportRadius p) = false.
Proof.
  intros Hw Hh. unfold getOptimalViewportRadius.
  pose proof (min_not_nan _ _ Hw Hh) as Hm.
  destruct (deviceType (responsiveManager p)); apply min_not_nan;
    try reflexivity;
    refine (mul_finite_not_nan _ _ _ _ _ _ Hm); vm_compute; reflexivity.
Qed.

(** X21.  On binary64, whatever the device class, if neither the width nor
    the height of the container is NaN (they may be zero, negative or
    infinite), the radius [calculateViewportRadius] stores is a number
    between 60 and 200. *)
Theorem radius_is_between_60_and_200 p :
  PrimFloat.is_nan (width p) = false -> PrimFloat.is_nan (height p) = false ->
  let q := calculateViewportRadius p in
  PrimFloat.leb (int 60) (state_radius q) = true
  /\ PrimFloat.leb (state_radius q) (int 200) = true.
Proof.
  intros Hw Hh. unfold calculateViewportRadius.
  pose proof (getOptimalViewportRadius_not_nan p Hw Hh) as Hb.
  set (b := getOptimalViewportRadius p) in *.
  cbv zeta.
  match goal with
  | |- context [setRadius (num_max _ (num_min _ ?b')) p] =>
      assert (Hb' : PrimFloat.is_nan b' = false)
  end.
  { destruct (_ >? _)%num;
      [refine (mul_finite_not_nan _ _ _ _ _ _ Hb); vm_compute; reflexivity|].
    destruct (_ >? _)%num;
      [refine (mul_finite_not_nan _ _ _ _ _ _ Hb); vm_compute; reflexivity|exact Hb]. }
  unfold state_radius. simpl viewport_radius.
  apply clamp_within; [reflexivity|exact Hb'].
Qed.

(** *** The clamp is idempotent *)

Lemma zero_of_spec a s :
  Prim2SF a = S754_zero s -> a = if s then PrimFloat.neg_zero else PrimFloat.zero.
Proof. intros H. rewrite <- (SF2Prim_Prim2SF a), H. destruct s; reflexivity. Qed.

(** Two values that compare equal and have the same sign bit are the
    same. *)
Lemma cmp_eq_sign a b :
  Float64.cmp a b = Some Eq -> PrimFloat.get_sign a = PrimFloat.get_sign b -> a = b.
Proof.
  unfold Float64.cmp. intros Hc Hs.
  destruct (Prim2SF a) as [s|s| |s m e] eqn:Ea, (Prim2SF b) as [s'|s'| |s' m' e'] eqn:Eb;
    simpl in Hc; try discriminate;
    try (destruct s; discriminate); try (destruct s'; discriminate).
  - apply zero_of_spec in Ea, Eb. subst a b. destruct s, s'; try reflexivity; discriminate.
  - apply Prim2SF_inj. rewrite Ea, Eb. destruct s, s'; try reflexivity; discriminate.
  - apply Prim2SF_inj. rewrite Ea, Eb.
    change (Pos.compare_cont Eq m m') with (Pos.compare m m') in Hc.
    change (Pos.compare_cont Eq m' m) with (Pos.compare m' m) in Hc.
    destruct s, s'; try discriminate;
      destruct (Z.compare_spec e e'); try discriminate; subst.
    + destruct (Pos.compare_spec m m'); try discriminate. subst. reflexivity.
    + destruct (Pos.compare_spec m m'); try discriminate. subst. reflexivity.
Qed.

Lemma cmp_refl a : PrimFloat.is_nan a = false -> Float64.cmp a a = Some Eq.
Proof. intros Ha. apply SFcompare_refl, is_nan_Prim2SF, Ha. Qed.

(** [Math.min] and [Math.max] of two values that compare equal: the sign
    bit of the first decides. *)
Lemma min_eq a b :
  Float64.cmp a b = Some Eq -> Float64.min a b = if PrimFloat.get_sign a then a else b.
Proof.
  intros Hc. destruct (cmp_some _ _ _ Hc) as [Ha Hb].
  unfold Float64.min. rewrite Ha, Hb. simpl.
  assert (H1 : PrimFloat.ltb a b = false) by (apply ltb_false_cmp; congruence).
  assert (H2 : PrimFloat.ltb b a = false)
    by (apply ltb_false_cmp; rewrite (cmp_swap _ _ _ Hc); discriminate).
  rewrite H1, H2. reflexivity.
Qed.

Lemma max_eq a b :
  Float64.cmp a b = Some Eq -> Float64.max a b = if PrimFloat.get_sign a then b else a.
Proof.
  intros Hc. destruct (cmp_some _ _ _ Hc) as [Ha Hb].
  unfold Float64.max. rewrite Ha, Hb. simpl.
  assert (H1 : PrimFloat.ltb a b = false) by (apply ltb_false_cmp; congruence).
  assert (H2 : PrimFloat.ltb b a = false)
    by (apply ltb_false_cmp; rewrite (cmp_swap _ _ _ Hc); discriminate).
  rewrite H1, H2. reflexivity.
Qed.

Lemma min_self a : PrimFloat.is_nan a = false -> Float64.min a a = a.
Proof.
  intros Ha. rewrite (min_eq a a (cmp_refl a Ha)). destruct (PrimFloat.get_sign a); reflexivity.
Qed.

Lemma max_self a : PrimFloat.is_nan a = false -> Float64.max a a = a.
Proof.
  intros Ha. rewrite (max_eq a a (cmp_refl a Ha)). destruct (PrimFloat.get_sign a); reflexivity.
Qed.

(** The lower end is a fixed point of the clamp, also of the clamp to an
    empty interval. *)
Lemma clamp_lower lo hi :
  PrimFloat.is_nan lo = false -> PrimFloat.is_nan hi = false ->
  Float64.max lo (Float64.min hi lo) = lo.
Proof.
  intros Hlo Hhi.
  destruct (min_cases hi lo Hhi Hlo) as [[Hc ->]|[[Hc ->]|[Hc _]]].
  - apply cmp_swap in Hc. simpl in Hc.
    destruct (max_cases lo hi Hlo Hhi) as [[Hc' _]|[[_ ->]|[Hc' _]]]; congruence.
  - apply max_self, Hlo.
  - rewrite (min_eq hi lo Hc).
    destruct (PrimFloat.get_sign hi) eqn:Shi; [|apply max_self, Hlo].
    pose proof (cmp_swap _ _ _ Hc) as Hc'. simpl in Hc'.
    rewrite (max_eq lo hi Hc').
    destruct (PrimFloat.get_sign lo) eqn:Slo; [|reflexivity].
    apply cmp_eq_sign; congruence.
Qed.

Lemma clamp_nan lo hi x :
  PrimFloat.is_nan lo || PrimFloat.is_nan hi || PrimFloat.is_nan x = true ->
  Float64.max lo (Float64.min hi x) = PrimFloat.nan.
Proof.
  intros H. unfold Float64.max.
  destruct (PrimFloat.is_nan lo) eqn:Hlo; [reflexivity|].
  simpl in H. unfold Float64.min at 1. rewrite H. reflexivity.
Qed.

Lemma clamp_idempotent_binary64 lo hi x :
  Float64.max lo (Float64.min hi (Float64.max lo (Float64.min hi x)))
  = Float64.max lo (Float64.min hi x).
Proof.
  destruct (PrimFloat.is_nan lo || PrimFloat.is_nan hi || PrimFloat.is_nan x) eqn:Hn.
  - rewrite (clamp_nan lo hi x Hn). apply clamp_nan.
    rewrite orb_true_iff. right. reflexivity.
  - rewrite !orb_false_iff in Hn. destruct Hn as [[Hlo Hhi] Hx].
    assert (Hm : Float64.min hi x = hi \/ Float64.min hi x = x)
      by (destruct (min_cases hi x Hhi Hx) as [[_ ->]|[[_ ->]|[_ [->| ->]]]]; auto).
    destruct Hm as [Hm|Hm]; rewrite Hm.
    + assert (Hr : Float64.max lo hi = lo \/ Float64.max lo hi = hi)
        by (destruct (max_cases lo hi Hlo Hhi) as [[_ ->]|[[_ ->]|[_ [->| ->]]]]; auto).
      destruct Hr as [Hr|Hr]; rewrite Hr.
      * apply clamp_lower; assumption.
      * rewrite (min_self hi Hhi). exact Hr.
    + assert (Hr : Float64.max lo x = lo \/ Float64.max lo x = x)
        by (destruct (max_cases lo x Hlo Hx) as [[_ ->]|[[_ ->]|[_ [->| ->]]]]; auto).
      destruct Hr as [Hr|Hr]; rewrite Hr.
      * apply clamp_lower; assumption.
      * rewrite Hm. exact Hr.
Qed.

Lemma clampTo_idempotent_binary64 (bounds : @Bounds float) x y :
  clampTo bounds (fst (clampTo bounds x y)) (snd (clampTo bounds x y)) = clampTo bounds x y.
Proof. unfold clampTo. simpl. rewrite !clamp_idempotent_binary64. reflexivity. Qed.

(** X22.  On binary64, clamping what [applyBoundaryConstraints] returned
    returns it again, bit for bit: for every input, NaN and the infinities
    included, whatever the bounds are (crossed, infinite, NaN), and
    whatever the cache holds. *)
Theorem applyBoundaryConstraints_is_idempotent p x y :
  let r := applyBoundaryConstraints x y p in
  fst (applyBoundaryConstraints (fst (fst r)) (snd (fst r)) (snd r)) = fst r.
Proof.
  cbv zeta. rewrite !applyBoundaryConstraints_eq. simpl.
  rewrite usedBounds_refresh. apply clampTo_idempotent_binary64.
Qed.

(** X23.  On binary64, a touch start stores the clamp of the normalized
    touch point: the second clamp, in [updateViewportPosition], of what
    [mouseToViewportPosition] has clamped already changes nothing. *)
Theorem touch_start_stores_the_clamped_sample p (clientX clientY : float) :
  isLoaded (AppState p) = true ->
  let q := handle (TouchStart (Some (clientX, clientY))) p in
  (state_x q, state_y q)
  = clampTo (usedBounds p) (clientX / width p)%num (clientY / height p)%num.
Proof.
  intros Hl q.
  pose proof (handle_intent (TouchStart (Some (clientX, clientY))) p I) as Hm.
  unfold intent in Hm. rewrite Hl in Hm. destruct Hm as (_ & Hx & Hy).
  fold q in Hx, Hy. rewrite Hx, Hy. unfold target.
  rewrite <- surjective_pairing. apply clampTo_idempotent_binary64.
Qed.

(** X24.  On binary64, with no rounding to account for: where the allowed
    rectangle is not empty and the normalized touch point is not NaN, a
    touch start leaves the position in the rectangle. *)
Theorem touch_start_lands_in_the_rectangle p (clientX clientY : float) :
  isLoaded (AppState p) = true ->
  cacheValid p ->
  nonDegenerate (currentBounds p) = true ->
  PrimFloat.is_nan (clientX / width p)%num = false ->
  PrimFloat.is_nan (clientY / height p)%num = false ->
  contained (handle (TouchStart (Some (clientX, clientY))) p).
Proof.
  intros Hl Hv Hn Hx Hy.
  pose proof Hn as Hn'. unfold nonDegenerate in Hn'.
  rewrite !num_le_leb, andb_true_iff in Hn'. destruct Hn' as [Hnx Hny].
  apply (direct_update_contained _ p (fst (target clientX clientY p))
           (snd (target clientX clientY p))); try assumption.
  - exact I.
  - simpl. rewrite Hl. reflexivity.
  - unfold target, clampTo. rewrite (usedBounds_valid p Hv). simpl.
    pose proof (clamp_within _ _ _ Hnx Hx) as [H1 _].
    apply leb_cmp in H1. destruct H1 as [H1|H1]; exact (proj2 (cmp_some _ _ _ H1)).
  - unfold target, clampTo. rewrite (usedBounds_valid p Hv). simpl.
    pose proof (clamp_within _ _ _ Hny Hy) as [H1 _].
    apply leb_cmp in H1. destruct H1 as [H1|H1]; exact (proj2 (cmp_some _ _ _ H1)).
Qed.

(** X25.  On binary64, setting the position to what [setViewportPosition]
    has just stored changes nothing: the page, render sink included, is the
    same, for every input. *)
Theorem setViewportPosition_is_idempotent p (normalizedX normalizedY : float) :
  let q := setViewportPosition normalizedX normalizedY p in
  setViewportPosition (state_x q) (state_y q) q = q.
Proof.
  intros q. unfold q, setViewportPosition. unfold state_x, state_y. simpl.
  rewrite !clamp_idempotent_binary64. reflexivity.
Qed.

Lemma contained_still p q : moved Still p q -> contained p -> contained q.
Proof.
  intros Hm. unfold contained. rewrite (currentBounds_moved _ _ _ Hm).
  destruct Hm as (_ & -> & ->). auto.
Qed.

(** X28.  On binary64, with no rounding left aside: where the allowed
    rectangle is not empty, a frame of the keyboard loop keeps the position
    in the rectangle, whether it moves it or not, as long as the displaced
    position it asks for is not NaN. *)
Theorem keyboard_tick_stays_in_the_rectangle p (currentTime : float) :
  cacheValid p ->
  nonDegenerate (currentBounds p) = true ->
  contained p ->
  let d := keyboardDelta (keysPressed p) (tickSpeed (currentTime - lastFrameTime p)%num p) in
  PrimFloat.is_nan (state_x p + fst d)%num = false ->
  PrimFloat.is_nan (state_y p + snd d)%num = false ->
  contained (handle (AnimationFrame currentTime) p).
Proof.
  intros Hv Hn Hc d Hx Hy.
  pose proof (handle_intent (AnimationFrame currentTime) p I) as Hm.
  destruct (intent (AnimationFrame currentTime) p) as [|tx ty|tx ty a] eqn:Hi.
  - exact (contained_still _ _ Hm Hc).
  - apply (direct_update_contained _ p tx ty); try assumption; try exact I.
    + revert Hi. simpl. destruct (loopRuns p); [|discriminate].
      fold d. destruct (_ || _); [|discriminate].
      intros H. injection H as <- _. exact Hx.
    + revert Hi. simpl. destruct (loopRuns p); [|discriminate].
      fold d. destruct (_ || _); [|discriminate].
      intros H. injection H as _ <-. exact Hy.
  - exfalso. revert Hi. simpl. destruct (loopRuns p); [|discriminate].
    destruct (_ || _); discriminate.
Qed.

End Binary64More.

(** *** The throttled listeners *)

Section Binary64Listeners.

(** [>=] on binary64 is the comparison of IEEE 754. *)
Lemma num_ge_leb (a b : float) : num_ge a b = PrimFloat.leb b a.
Proof.
  unfold num_ge. simpl.
  rewrite FloatAxioms.ltb_spec, FloatAxioms.eqb_spec, FloatAxioms.leb_spec.
  unfold SFltb, SFeqb, SFleb.
  rewrite (SFcompare_swap (Prim2SF b) (Prim2SF a)).
  destruct (SFcompare (Prim2SF b) (Prim2SF a)) as [[]|]; reflexivity.
Qed.

(** The [mousemove] listener on binary64, in a window of 1000 by 800: a
    move at 10 ms is processed; one at 12 ms is dropped, and so is one at
    30 ms if no animation frame has come; after a frame the next one is
    processed.  A move in the first 8 ms of the page is dropped. *)
Example mouse_moves_through_the_throttle :
  let p := loaded (int 1000) (int 800) : @Page float in
  let c1 := throttledMouseMove (int 10) (int 800, int 160) (newThrottle, p) in
  let c2 := throttledMouseMove (int 12) (int 0, int 0) c1 in
  let c3 := throttledMouseMove (int 30) (int 0, int 0) c2 in
  let c4 := throttledMouseMove (int 30) (int 0, int 0) (throttleFrame c3) in
  snd c1 = handle (MouseMove (int 800) (int 160)) p
  /\ c2 = c1
  /\ c3 = c1
  /\ snd c4 = handle (MouseMove (int 0) (int 0)) (snd c1)
  /\ throttledMouseMove (int 5) (int 800, int 160) (newThrottle, p) = (newThrottle, p).
Proof. vm_compute. repeat split; reflexivity. Qed.

(** The [touchmove] listener: 6 ms, and the body ignores the move unless
    a touch is active. *)
Example touch_moves_through_the_throttle :
  let p := handle (TouchStart (Some (int 500, int 400))) (loaded (int 1000) (int 800) : @Page float) in
  let c1 := throttledTouchMove (int 10) (Some (int 800, int 160)) (newThrottle, p) in
  let c2 := throttledTouchMove (int 15) (Some (int 0, int 0)) c1 in
  snd c1 = handle (TouchMove (Some (int 800, int 160))) p
  /\ PrimFloat.ltb (state_x p) (state_x (snd c1)) = true
  /\ c2 = c1.
Proof. vm_compute. repeat split; reflexivity. Qed.

End Binary64Listeners.

(** *** The health check *)

Section Binary64Health.

Lemma nan_is_not_ge (x y : float) : PrimFloat.is_nan x = true -> num_ge x y = false.
Proof.
  intros Hx.
  assert (Hn : Prim2SF x = S754_nan).
  { destruct (Prim2SF x) eqn:Ex; try reflexivity;
      assert (H : PrimFloat.is_nan x = false) by (apply is_nan_Prim2SF; congruence);
      congruence. }
  unfold num_ge. simpl.
  rewrite FloatAxioms.ltb_spec, FloatAxioms.eqb_spec, Hn. unfold SFltb, SFeqb.
  simpl. destruct (Prim2SF y); reflexivity.
Qed.

Lemma thresholds (h : @HealthStatus) :
  health_eventListeners h = true ->
  (1 <= passed h <= 6)%Z
  /\ @belowOptimal float _ h = (passed h <=? 4)%Z
  /\ @userErrorShown float _ h = (passed h <=? 2)%Z.
Proof.
  destruct h as [b1 b2 b3 b4 b5 b6]. simpl. intros ->.
  destruct b1, b2, b3, b4, b6; vm_compute; repeat split; discriminate.
Qed.

(** X26.  On binary64, with six checks of which [eventListeners] always
    passes: the warning is logged exactly when at most four checks pass,
    that is when two of the other five fail; the error toast is shown
    exactly when at most two pass; and a position with a NaN coordinate
    fails the viewport check. *)
Theorem health_check_thresholds
    (hasError : bool) (imageState : ImageState) (modernCSS clipPath domElements : bool)
    (p : @Page float) :
  let h := healthStatus hasError imageState modernCSS clipPath domElements p in
  (1 <= passed h <= 6)%Z
  /\ @belowOptimal float _ h = (passed h <=? 4)%Z
  /\ @userErrorShown float _ h = (passed h <=? 2)%Z
  /\ (PrimFloat.is_nan (state_x p) = true -> health_viewport h = false).
Proof.
  intros h.
  destruct (thresholds h eq_refl) as (H1 & H2 & H3).
  split; [exact H1|]. split; [exact H2|]. split; [exact H3|].
  intros Hx. unfold h, healthStatus. cbn [health_viewport].
  rewrite (nan_is_not_ge _ _ Hx). reflexivity.
Qed.

End Binary64Health.

(** ** More theorems at concrete inputs *)

Section MoreWitnesses.

(** X2: after [A] is pressed in a window of 1000 by 800, the key held is
    [a], a navigation key. *)
Lemma held_keys_witness :
  let p := run [KeyDown "A" (int 0)] (loaded (int 1000) (int 800) : @Page float) in
  "a"%string ∈ keysPressed p /\ "a"%string ∈ navigationKeys.
Proof.
  intros p.
  assert (Hk : "a"%string ∈ keysPressed p)
    by (refine (bool_decide_unpack _ _); vm_compute; exact I).
  split; [exact Hk|].
  exact (held_keys_are_navigation_keys (int 1000) (int 800) [KeyDown "A" (int 0)] "a" Hk).
Defined.

(** X4: [A] pressed (with the shift key) and [a] released. *)
Lemma key_press_and_release_witness :
  let p := loaded (int 1000) (int 800) : @Page float in
  let q := handle (KeyUp "a") (handle (KeyDown "A" (int 0)) p) in
  keysPressed q = keysPressed p /\ keyboard (AppState q) = mkKeyboard false false.
Proof.
  intros p q.
  assert (Hl : isLoaded (AppState p) = true) by reflexivity.
  assert (Hn : toLowerCase "A" ∈ navigationKeys)
    by (refine (bool_decide_unpack _ _); vm_compute; exact I).
  assert (Hu : toLowerCase "a" = toLowerCase "A") by reflexivity.
  assert (Hk : toLowerCase "A" ∉ keysPressed p) by apply not_elem_of_empty.
  destruct (key_press_and_release p "A" "a" (int 0) Hl Hn Hu Hk) as [H1 H2].
  split; [exact H1|exact (H2 eq_refl)].
Defined.

(** X5: a mouse move, a key and a touch before the image has loaded. *)
Lemma input_is_ignored_witness :
  let p := init (int 1000) (int 800) initialPage : @Page float in
  run [MouseMove (int 10) (int 10); KeyDown "a" (int 0); TouchStart (Some (int 5, int 5))] p = p.
Proof.
  intros p.
  apply (input_is_ignored_until_loaded p); reflexivity.
Defined.

(** X6: a key, then the mouse, then the mouse leaves. *)
Lemma flags_witness :
  let p := run [KeyDown "a" (int 0); MouseMove (int 10) (int 10); MouseLeave]
               (loaded (int 1000) (int 800) : @Page float) in
  input_isMouseActive (input (AppState p)) && input_keyboardActive (input (AppState p)) = false.
Proof.
  apply (handlers_keep_mouse_and_keyboard_flags_exclusive (int 1000) (int 800)).
  reflexivity.
Defined.

(** X8: a touch at (800, 160) before the self-test timer fires. *)
Lemma self_test_witness :
  let p := init (int 1000) (int 800) initialPage : @Page float in
  let q := handle TestViewportMaskTimeout
             (run [TouchStart (Some (int 800, int 160))] (initializeViewport p)) in
  state_x (run [TouchStart (Some (int 800, int 160))] (initializeViewport p)) = dec 8 10
  /\ state_x q = dec 5 10 /\ state_y q = dec 5 10.
Proof.
  intros p q. split; [vm_compute; reflexivity|].
  destruct (self_test_undoes_the_first_movements p [TouchStart (Some (int 800, int 160))]
              eq_refl) as (Hx & Hy & _).
  split; assumption.
Defined.

(** X12: two mouse moves, 2 ms apart, with no frame in between: the
    second is dropped. *)
Lemma throttle_burst_witness :
  let p := loaded (int 1000) (int 800) : @Page float in
  let es := [Call (int 10 : float) (int 800 : float, int 160 : float);
             Call (int 12) (int 0, int 0)] in
  let body := fun event : float * float => handleMouseMove (fst event) (snd event) in
  frames es = 0%nat
  /\ (snd (throttleRun body (int 8) es (newThrottle, p)) = p
      \/ exists now args, (now, args) ∈ calls es
           /\ snd (throttleRun body (int 8) es (newThrottle, p)) = body args p).
Proof.
  intros p es body. split; [reflexivity|].
  exact (throttle_lets_one_call_of_a_burst_through body (int 8) es newThrottle p eq_refl).
Defined.

(** X16: four failures, the retry button pressed after each. *)
Lemma retry_witness :
  let es := [ImageError; Retry; ImageError; Retry; ImageError; Retry; ImageError; Retry] in
  (retriesStarted es initialImageState <= 3)%nat
  /\ retryCount (imageRun es initialImageState) = retriesStarted es initialImageState.
Proof.
  intros es. apply (retry_starts_at_most_three_loads es). reflexivity.
Defined.

Local Open Scope R_scope.

(** X18, X19: a window of 1000 by 800 and a mouse move. *)
Lemma radius_until_resize_witness :
  60 <= state_radius (run [MouseMove 800 160] (loaded 1000 800 : @Page R)) <= 80.
Proof.
  apply (radius_is_at_most_80_until_the_first_resize 1000 800 [MouseMove 800 160]).
  repeat constructor.
Defined.

Lemma window_of_128_px_witness :
  contained (run [MouseMove 800 160; KeyDown "ArrowLeft" 0; AnimationFrame 20]
                 (initialized 1000 800 : @Page R)).
Proof.
  assert (Hw : 125 <= 1000) by lra.
  assert (Hh : 125 <= 800) by lra.
  assert (Hw' : 128 <= 1000) by lra.
  assert (Hh' : 128 <= 800) by lra.
  assert (He : Forall (@fixedWindowEvent R)
                 [MouseMove 800 160; KeyDown "ArrowLeft" 0; AnimationFrame 20])
    by (repeat constructor).
  exact (proj2 (proj2 (rectangle_and_position_in_windows_of_125_and_128_px
                         1000 800 _ Hw Hh He)) Hw' Hh').
Defined.

(** X20: left, right and up held together. *)
Lemma opposite_keys_witness :
  let p := run [KeyDown "ArrowLeft" 0; KeyDown "ArrowRight" 0; KeyDown "ArrowUp" 0]
               (loaded 1000 800 : @Page R) in
  let speed := tickSpeed (20 - lastFrameTime p) p in
  fst (keyboardDelta (keysPressed p) speed) = 0
  /\ magnitude (keyboardDelta (keysPressed p) speed) = Rabs speed / R_sqrt.sqrt 2.
Proof.
  intros p speed.
  assert (Hl : leftPressed (keysPressed p) = true) by (vm_compute; reflexivity).
  assert (Hr : rightPressed (keysPressed p) = true) by (vm_compute; reflexivity).
  assert (Hu : xorb (upPressed (keysPressed p)) (downPressed (keysPressed p)) = true)
    by (vm_compute; reflexivity).
  destruct (opposite_keys_cancel p 20 Hl Hr) as (H0 & _ & Hm).
  split; [exact H0|exact (Hm Hu)].
Defined.

(** X21: a container of 1000 by 800. *)
Lemma radius_binary64_witness :
  let q := calculateViewportRadius (init (int 1000) (int 800) initialPage : @Page float) in
  PrimFloat.leb (int 60) (state_radius q) = true
  /\ PrimFloat.leb (state_radius q) (int 200) = true.
Proof.
  apply (radius_is_between_60_and_200 (init (int 1000) (int 800) initialPage));
    reflexivity.
Defined.

(** X23, X24: a touch at (800, 160) in a window of 1000 by 800. *)
Lemma touch_start_clamped_witness :
  let p := loaded (int 1000) (int 800) : @Page float in
  let q := handle (TouchStart (Some (int 800, int 160))) p in
  (state_x q, state_y q)
  = clampTo (usedBounds p) (int 800 / width p)%num (int 160 / height p)%num.
Proof.
  intros p q.
  exact (touch_start_stores_the_clamped_sample p (int 800) (int 160) eq_refl).
Defined.

Lemma touch_start_contained_witness :
  contained (handle (TouchStart (Some (int 800, int 160)))
                    (loaded (int 1000) (int 800) : @Page float)).
Proof.
  apply touch_start_lands_in_the_rectangle.
  - reflexivity.
  - exact I.
  - vm_compute. reflexivity.
  - vm_compute. reflexivity.
  - vm_compute. reflexivity.
Defined.

(** X28: [arrowleft] held for 50 ms in a window of 1000 by 800. *)
Lemma keyboard_tick_witness :
  let p := run [KeyDown "ArrowLeft" (int 0)] (loaded (int 1000) (int 800) : @Page float) in
  loopRuns p = true
  /\ PrimFloat.ltb (state_x (handle (AnimationFrame (int 50)) p)) (state_x p) = true
  /\ contained (handle (AnimationFrame (int 50)) p).
Proof.
  intros p. split; [vm_compute; reflexivity|]. split; [vm_compute; reflexivity|].
  apply keyboard_tick_stays_in_the_rectangle.
  - exact I.
  - vm_compute. reflexivity.
  - vm_compute. reflexivity.
  - vm_compute. reflexivity.
  - vm_compute. reflexivity.
Defined.

End MoreWitnesses.

(** * Sanity of the binary64 reading *)

(** The literals of the script, read by [Float64.lit], are the binary64
    values JavaScript reads. *)
Example lit_smoothing : Float64.lit 15 100 = 0.15%float.
Proof. reflexivity. Qed.

Example lit_frame : Float64.lit 1667 100 = 16.67%float.
Proof. reflexivity. Qed.

Example lit_speeds :
  (Float64.lit 3 1000, Float64.lit 25 10000, Float64.lit 2 1000)
  = (0.003%float, 0.0025%float, 0.002%float).
Proof. reflexivity. Qed.

Example lit_others :
  [Float64.lit 4 10; Float64.lit 2 100; Float64.lit 1 100; Float64.lit 5 10; Float64.lit 51 100;
   Float64.lit 18 100; Float64.lit 2 10; Float64.lit 25 10; Float64.lit 75 100;
   Float64.lit 85 100; Float64.lit 768 1]
  = [0.4; 0.02; 0.01; 0.5; 0.51; 0.18; 0.2; 2.5; 0.75; 0.85; 768]%float.
Proof. reflexivity. Qed.

Example max_signed_zero :
  (Float64.max PrimFloat.neg_zero PrimFloat.zero, Float64.max PrimFloat.zero PrimFloat.neg_zero,
   Float64.min PrimFloat.zero PrimFloat.neg_zero, Float64.min PrimFloat.neg_zero PrimFloat.zero)
  = (PrimFloat.zero, PrimFloat.zero, PrimFloat.neg_zero, PrimFloat.neg_zero).
Proof. reflexivity. Qed.

Example max_nan :
  (Float64.max PrimFloat.nan PrimFloat.one, Float64.min PrimFloat.infinity PrimFloat.nan)
  = (PrimFloat.nan, PrimFloat.nan).
Proof. reflexivity. Qed.
